(** * Ledger normalization pipeline of [app.py]

    A shallow embedding of [load_data] and of the type coercions the
    script applies to its result (lines 10-98 of [app.py]), with the
    properties the specification states about them, and of the
    dashboard the script computes from the ledger (lines 100-162):
    the month filter, the sums, the two charts and the order of the
    rows.

    Modelling decisions.
    - A Python [str] is a Rocq [string] holding its UTF-8 bytes.  The
      substring test and the replacement of an ASCII pattern commute
      with UTF-8 encoding.  [lower] lowers ASCII letters and the
      letters of the Latin-1 supplement (which covers every keyword of
      the source); other code points are left as they are.
    - A pandas frame is the ordered list of its columns, each a label
      and its cells: order and repeated labels matter to the source.
      [pd.read_csv] gives the columns of a table distinct labels, which
      statements about a raw table assume ([NoDup]); the renamings of
      the source can make labels coincide, and the model follows them.
    - [pd.read_csv] yields cells that are text or floating-point
      numbers, a missing cell being the number NaN; a column holding a
      text has the dtype [object].  Numbers are exact decimals together
      with the two infinities and NaN; binary rounding, overflow and
      the integer dtypes are not modelled.  A statement about the value
      of an amount therefore carries a hypothesis that keeps it to the
      numbers on which the exact decimals are the numbers of pandas
      ([Exact], [Norm.agreed], [Bounds]): amounts of at most 15 digits
      for what is read from or written as text, multiples of a power
      of 1/2 of bounded size for what is added or subtracted.
    - The arguments of [load_data] are the tables read; the errors of
      [pd.read_csv] itself are outside the model.  [pd.to_datetime] is
      a parameter of the development.
    - Exceptions are values of [exn]; a function that can raise returns
      a [result]. *)

From Stdlib Require Import String Ascii List ZArith NArith Bool Lia QArith.
From Stdlib Require Import DecimalString DecimalN DecimalPos.
From Stdlib Require Import Sorted Permutation.
From Stdlib Require OrderedTypeEx.
Import ListNotations.
Open Scope list_scope.
Open Scope string_scope.

(** ** Python string operations *)

Module Py.

(** [c in s]: [pat] occurs in [s] as a contiguous run. *)
Fixpoint contains (pat s : string) : bool :=
  String.prefix pat s ||
  match s with
  | EmptyString => false
  | String _ r => contains pat r
  end.

Definition ascii_in (lo hi : N) (c : ascii) : bool :=
  (lo <=? N_of_ascii c)%N && (N_of_ascii c <=? hi)%N.

Definition shift32 (c : ascii) : ascii := ascii_of_N (N_of_ascii c + 32).

(** [str.lower()]: ASCII [A-Z], and behind the UTF-8 lead byte 0xC3 the
    upper-case letters U+00C0 to U+00DE except the sign U+00D7. *)
Fixpoint lower (s : string) : string :=
  match s with
  | EmptyString => EmptyString
  | String c r =>
      match r with
      | String d r' =>
          if (N_of_ascii c =? 195)%N && ascii_in 128 158 d
             && negb (N_of_ascii d =? 151)%N
          then String c (String (shift32 d) (lower r'))
          else String (if ascii_in 65 90 c then shift32 c else c) (lower r)
      | EmptyString =>
          String (if ascii_in 65 90 c then shift32 c else c) EmptyString
      end
  end.

(** [s.replace(pat, '')]: occurrences are removed left to right, without
    overlap; [skip] counts the characters of a found occurrence that are
    still to be dropped. *)
Fixpoint remove_from (pat : string) (skip : nat) (s : string) : string :=
  match s with
  | EmptyString => EmptyString
  | String c r =>
      match skip with
      | S k => remove_from pat k r
      | O =>
          if String.prefix pat s
          then remove_from pat (String.length pat - 1) r
          else String c (remove_from pat 0 r)
      end
  end.

Definition remove (pat s : string) : string :=
  match pat with
  | EmptyString => s
  | _ => remove_from pat 0 s
  end.

(** [next((c for c in xs if p(c)), default)] *)
Definition next {A} (p : A -> bool) (xs : list A) (default : option A)
  : option A :=
  match find p xs with
  | Some x => Some x
  | None => default
  end.

End Py.

(** ** Numbers

    A float64 is an exact decimal [m / 10^k], an infinity or NaN. *)

Inductive float : Type :=
| Fin (m : Z) (k : nat)
| PInf
| NInf
| NaN.

Module F.

Definition zero : float := Fin 0 0.

Definition pow10 (k : nat) : Z := (10 ^ Z.of_nat k)%Z.

(** Subtraction of float64 values, exact on finite operands. *)
Definition sub (a b : float) : float :=
  match a, b with
  | NaN, _ | _, NaN => NaN
  | PInf, PInf | NInf, NInf => NaN
  | PInf, _ | _, NInf => PInf
  | NInf, _ | _, PInf => NInf
  | Fin m1 k1, Fin m2 k2 =>
      let k := Nat.max k1 k2 in
      Fin (m1 * pow10 (k - k1) - m2 * pow10 (k - k2)) k
  end.

(** Addition, used for the net sum of a column. *)
Definition add (a b : float) : float :=
  match a, b with
  | NaN, _ | _, NaN => NaN
  | PInf, NInf | NInf, PInf => NaN
  | PInf, _ | _, PInf => PInf
  | NInf, _ | _, NInf => NInf
  | Fin m1 k1, Fin m2 k2 =>
      let k := Nat.max k1 k2 in
      Fin (m1 * pow10 (k - k1) + m2 * pow10 (k - k2)) k
  end.

(** Numeric equality of float64 values ([==]): NaN equals nothing. *)
Definition eqb (a b : float) : bool :=
  match a, b with
  | Fin m1 k1, Fin m2 k2 => (m1 * pow10 k2 =? m2 * pow10 k1)%Z
  | PInf, PInf | NInf, NInf => true
  | _, _ => false
  end.

Definition isna (a : float) : bool :=
  match a with NaN => true | _ => false end.

(** *** Text of a number, [str(x)]

    The positional form: sign, integer digits and, when there are any,
    a point and the [k] fraction digits.  Python writes whole floats
    with a trailing [.0] and very large or small ones with an exponent;
    those texts denote the same number. *)

Fixpoint zeros (n : nat) : string :=
  match n with
  | O => EmptyString
  | S n' => String "0" (zeros n')
  end.

Fixpoint split_at (n : nat) (s : string) : string * string :=
  match n, s with
  | S n', String c r => let (a, b) := split_at n' r in (String c a, b)
  | _, _ => (EmptyString, s)
  end.

Definition digits_of (n : N) : string :=
  NilEmpty.string_of_uint (N.to_uint n).

Definition fin_text (m : Z) (k : nat) : string :=
  let ds := digits_of (Z.abs_N m) in
  let padded := zeros (S k - String.length ds) ++ ds in
  let (ip, fp) := split_at (String.length padded - k) padded in
  (if (m <? 0)%Z then "-" else EmptyString)
  ++ ip ++ match k with O => EmptyString | _ => String "." fp end.

Definition text (a : float) : string :=
  match a with
  | Fin m k => fin_text m k
  | PInf => "inf"
  | NInf => "-inf"
  | NaN => "nan"
  end.

(** *** Reading a number from text

    The grammar of the parser behind [pd.to_numeric]: white space, an
    optional sign, digits with an optional point (one digit at least),
    an optional exponent with its digits, white space. *)

Definition is_digit (c : ascii) : bool := Py.ascii_in 48 57 c.

Definition is_space (c : ascii) : bool :=
  Py.ascii_in 9 13 c || (N_of_ascii c =? 32)%N.

Fixpoint lstrip (s : string) : string :=
  match s with
  | String c r => if is_space c then lstrip r else s
  | EmptyString => EmptyString
  end.

Fixpoint all_space (s : string) : bool :=
  match s with
  | String c r => is_space c && all_space r
  | EmptyString => true
  end.

Fixpoint span_digits (s : string) : string * string :=
  match s with
  | String c r =>
      if is_digit c
      then let (d, t) := span_digits r in (String c d, t)
      else (EmptyString, s)
  | EmptyString => (EmptyString, EmptyString)
  end.

Definition parse_sign (s : string) : bool * string :=
  match s with
  | String c r =>
      if Ascii.eqb c "-" then (true, r)
      else if Ascii.eqb c "+" then (false, r)
      else (false, s)
  | EmptyString => (false, s)
  end.

(** Value of a run of decimal digits. *)
Definition digits_val (s : string) : N :=
  match NilEmpty.uint_of_string s with
  | Some u => N.of_uint u
  | None => 0%N
  end.

Definition signed (neg : bool) (n : N) : Z :=
  if neg then (- Z.of_N n)%Z else Z.of_N n.

(** The number [m * 10^ex / 10^k]. *)
Definition scaled (m : Z) (k : nat) (ex : Z) : float :=
  let sc := (Z.of_nat k - ex)%Z in
  if (sc <=? 0)%Z then Fin (m * 10 ^ (- sc)) 0 else Fin m (Z.to_nat sc).

(** An exponent mark without digits is not consumed. *)
Definition parse_exponent (s : string) : Z * string :=
  match s with
  | String c r =>
      if (N_of_ascii c =? 101)%N || (N_of_ascii c =? 69)%N
      then
        let (eneg, r1) := parse_sign r in
        let (ed, r2) := span_digits r1 in
        match ed with
        | EmptyString => (0%Z, s)
        | _ => (signed eneg (digits_val ed), r2)
        end
      else (0%Z, s)
  | EmptyString => (0%Z, EmptyString)
  end.

Definition parse_decimal (s : string) : option float :=
  let (neg, s1) := parse_sign (lstrip s) in
  let (ip, s2) := span_digits s1 in
  let (fp, s3) :=
    match s2 with
    | String c r =>
        if Ascii.eqb c "." then span_digits r else (EmptyString, s2)
    | EmptyString => (EmptyString, s2)
    end in
  match ip ++ fp with
  | EmptyString => None
  | ds =>
      let (ex, s4) := parse_exponent s3 in
      if all_space s4
      then Some (scaled (signed neg (digits_val ds)) (String.length fp) ex)
      else None
  end.

(** The words the parser knows besides numerals; every other text,
    ["nan"] included, reads as NaN. *)
Definition parse_special (s : string) : float :=
  let t := Py.lower s in
  if (t =? "inf") || (t =? "+inf") || (t =? "infinity") || (t =? "+infinity")
  then PInf
  else if (t =? "-inf") || (t =? "-infinity") then NInf
  else NaN.

(** [pd.to_numeric(text, errors='coerce')] on one text. *)
Definition of_text (s : string) : float :=
  match parse_decimal s with
  | Some a => a
  | None => parse_special s
  end.

End F.

(** ** Frames

    A cell of an [object] column is a text or a float (a missing cell of
    [read_csv] is the float NaN).  A column is an [object] column or a
    [float64] column; a frame is the ordered list of its labelled
    columns. *)

Inductive value : Type :=
| Str (s : string)
| Num (x : float).

Inductive column : Type :=
| Object (cells : list value)
| Float64 (xs : list float).

Inductive exn : Type :=
| IndexError
| KeyError (label : string)
| NotASeries (label : string)
| TypeError
| DateError.

Inductive result (A : Type) : Type :=
| Ok (a : A)
| Raise (e : exn).

Arguments Ok {A} a.
Arguments Raise {A} e.

Definition bind {A B} (r : result A) (f : A -> result B) : result B :=
  match r with
  | Ok a => f a
  | Raise e => Raise e
  end.

Notation "x <- r ;; k" := (bind r (fun x => k))
  (at level 61, r at next level, right associativity).

Definition frame (C : Type) : Type := list (string * C).

Module DF.
Section Frame.
Context {C : Type}.

(** [df.columns] *)
Definition columns (df : frame C) : list string := map fst df.

(** [df.columns[i]] *)
Definition column_at (df : frame C) (i : nat) : result string :=
  match nth_error (columns df) i with
  | Some c => Ok c
  | None => Raise IndexError
  end.

(** Value of a dict literal at [c], [c] itself when it is no key: the
    last of several equal keys wins; a [None] key is no label. *)
Definition dict_get (d : list (option string * string)) (c : string)
  : string :=
  fold_left
    (fun acc kv =>
       match fst kv with
       | Some k => if (k =? c) then snd kv else acc
       | None => acc
       end)
    d c.

(** [df.rename(columns=d)] *)
Definition rename (d : list (option string * string)) (df : frame C)
  : frame C :=
  map (fun cx => (dict_get d (fst cx), snd cx)) df.

Definition labelled (label : string) (cx : string * C) : bool :=
  fst cx =? label.

(** [df[label]] as a series.  A label carried by several columns
    selects a frame, on which every use the source makes of the
    selection raises. *)
Definition getitem (df : frame C) (label : string) : result C :=
  match filter (labelled label) df with
  | [] => Raise (KeyError label)
  | [cx] => Ok (snd cx)
  | _ => Raise (NotASeries label)
  end.

(** [df[label] = x]: the columns so labelled take the new cells in
    place; a new label is appended. *)
Definition setitem (df : frame C) (label : string) (x : C) : frame C :=
  if existsb (labelled label) df
  then map (fun cx => if labelled label cx then (fst cx, x) else cx) df
  else (df ++ [(label, x)])%list.

(** At most one column bears the label. *)
Definition at_most_once (df : frame C) (label : string) : Prop :=
  (List.length (filter (labelled label) df) <= 1)%nat.

End Frame.
End DF.

(** ** Series operations *)

Definition py_str (v : value) : string :=
  match v with
  | Str s => s
  | Num x => F.text x
  end.

Definition cells_of (c : column) : list value :=
  match c with
  | Object vs => vs
  | Float64 xs => map Num xs
  end.

(** [.str.lower().str.replace(',', '').str.replace('$', '')
     .str.replace('kr', '').str.replace(' ', '')] on one text *)
Definition clean_text (s : string) : string :=
  Py.remove " " (Py.remove "kr" (Py.remove "$" (Py.remove "," (Py.lower s)))).

(** [clean], line 42: [x.astype(str)] followed by the replacements. *)
Definition clean (x : column) : column :=
  Object (map (fun v => Str (clean_text (py_str v))) (cells_of x)).

(** [pd.to_numeric(x, errors='coerce')] *)
Definition to_numeric (x : column) : column :=
  match x with
  | Float64 xs => Float64 xs
  | Object vs =>
      Float64 (map (fun v => match v with
                             | Str s => F.of_text s
                             | Num a => a
                             end) vs)
  end.

Definition fill0 (a : float) : float :=
  match a with NaN => F.zero | _ => a end.

(** [x.fillna(0)] *)
Definition fillna0 (x : column) : column :=
  match x with
  | Float64 xs => Float64 (map fill0 xs)
  | Object vs =>
      Object (map (fun v => match v with
                            | Num a => Num (fill0 a)
                            | _ => v
                            end) vs)
  end.

(** The Numeric Normalizer of the dual-column path, lines 44-45. *)
Definition normalize (x : column) : column :=
  fillna0 (to_numeric (clean x)).

Fixpoint zip_sub (xs ys : list float) : list float :=
  match xs, ys with
  | a :: xs', b :: ys' => F.sub a b :: zip_sub xs' ys'
  | _, _ => []
  end.

(** [x - y] on two series of one frame; text cells do not subtract. *)
Definition series_sub (x y : column) : result column :=
  match x, y with
  | Float64 xs, Float64 ys => Ok (Float64 (zip_sub xs ys))
  | _, _ => Raise TypeError
  end.

(** ** The categorizer, lines 61-72 *)

Definition any_in (kws : list string) (desc : string) : bool :=
  existsb (fun x => Py.contains x desc) kws.

Definition categorize (v : value) : string :=
  let desc := Py.lower (py_str v) in
  if Py.contains "kontoregulering" desc && Py.contains "mobil overføring" desc
  then "Savings 🏦"
  else if any_in ["meny"; "rema"; "kiwi"; "bunnpris"; "coop"; "joker";
                  "dagligvare"; "extra"; "spar"] desc
  then "Groceries 🛒"
  else if any_in ["mcd"; "burger"; "sushi"; "pizza"; "restaurant"; "cafe";
                  "starbucks"; "boba"; "thai"; "vaffel"; "bakeri";
                  "espresso"; "tea"] desc
  then "Food & Dining 🍔"
  else if any_in ["ruter"; "vipps:ruter"; "vy"; "flytoget"; "uber"; "taxi";
                  "bolt"; "parkering"; "easypark"; "apcoa"; "voi"; "ryde";
                  "dott"; "buss"] desc
  then "Transport 🚆"
  else if any_in ["netflix"; "hbo"; "spotify"; "kino"; "steam";
                  "playstation"; "bio"; "disney"] desc
  then "Entertainment 🎬"
  else if any_in ["telia"; "telenor"; "nte"; "strøm"; "leie"; "husleie";
                  "forsikring"; "tryg"] desc
  then "Bills & Utilities 💡"
  else if any_in ["klarna"; "hm"; "zara"; "elkjøp"; "power"; "ikea";
                  "clas ohlson"; "normal"; "apotek"; "vitus"; "blomster"] desc
  then "Shopping 🛍️"
  else if any_in ["lønn"; "salary"; "deposit"; "overføring innland"; "vipps";
                  "straksoverføring"] desc
  then "Income/Transfer 💰"
  else "Other".

(** [series.apply(categorize)] *)
Definition apply_categorize (x : column) : column :=
  Object (map (fun v => Str (categorize v)) (cells_of x)).

(** ** Column roles, lines 24-34 and 57 *)

Definition date_like (c : string) : bool :=
  Py.contains "date" (Py.lower c) || Py.contains "time" (Py.lower c).

Definition desc_like (c : string) : bool :=
  Py.contains "desc" (Py.lower c) || Py.contains "merchant" (Py.lower c)
  || Py.contains "name" (Py.lower c).

Definition receive_like (c : string) : bool :=
  Py.contains "receive" (Py.lower c) || Py.contains "credit" (Py.lower c)
  || Py.contains "deposit" (Py.lower c).

Definition amount_like (c : string) : bool :=
  existsb (String.eqb (Py.lower c)) ["amount"; "debit"; "withdraw"; "payment"].

Definition cat_like (c : string) : bool :=
  Py.contains "cat" (Py.lower c).

(** [cols[i] if len(cols) > i else None] *)
Definition at_or_none (cols : list string) (i : nat) : option string :=
  if (i <? List.length cols)%nat then nth_error cols i else None.

Record roles : Type := {
  date_col : option string;
  desc_col : option string;
  receive_col : option string;
  amount_col : option string;
  cat_col : option string
}.

(** ** [load_data], lines 10-85 *)

(** Lines 24-30: the date and description columns take their canonical
    labels.  The default of [next] is evaluated first, and
    [df.columns[0]] raises on a frame without columns. *)
Definition find_date (cols : list string) (c0 : string) : string :=
  match find date_like cols with
  | Some c => c
  | None => c0
  end.

Definition find_desc (cols : list string) : option string :=
  Py.next desc_like cols (at_or_none cols 2).

(** The dict [{date_col: 'Date', desc_col: 'Description'}] *)
Definition basics (cols : list string) (c0 : string)
  : list (option string * string) :=
  [(Some (find_date cols c0), "Date"); (find_desc cols, "Description")].

Definition rename_basics (df : frame column) : result (frame column) :=
  c0 <- DF.column_at df 0 ;;
  Ok (DF.rename (basics (DF.columns df) c0) df).

(** Lines 33-53.  A label that passes one of the two tests is not
    empty, so that its truth value is that of [is not None]. *)
Definition find_receive (cols : list string) : option string :=
  find receive_like cols.

Definition find_amount (cols : list string) : option string :=
  find amount_like cols.

(** [amount_col if amount_col else (df.columns[1] if len(df.columns) > 1
    else None)] *)
Definition target_amt (df : frame column) : option string :=
  match find_amount (DF.columns df) with
  | Some a => Some a
  | None => at_or_none (DF.columns df) 1
  end.

Definition resolve_amount (df : frame column) : result (frame column) :=
  match find_receive (DF.columns df), find_amount (DF.columns df) with
  | Some r, Some a =>
      x <- DF.getitem df r ;;
      let df := DF.setitem df r (normalize x) in
      y <- DF.getitem df a ;;
      let df := DF.setitem df a (normalize y) in
      x' <- DF.getitem df r ;;
      y' <- DF.getitem df a ;;
      d <- series_sub x' y' ;;
      Ok (DF.setitem df "Amount" d)
  | _, _ => Ok (DF.rename [(target_amt df, "Amount")] df)
  end.

(** Lines 57-74 *)
Definition find_cat (cols : list string) : option string :=
  find cat_like cols.

Definition resolve_category (df : frame column) : result (frame column) :=
  match find_cat (DF.columns df) with
  | Some c => Ok (DF.rename [(Some c, "Category")] df)
  | None =>
      d <- DF.getitem df "Description" ;;
      Ok (DF.setitem df "Category" (apply_categorize d))
  end.

(** Lines 21-76, the branch [df is not None]. *)
Definition load_frame (df : frame column) : result (frame column) :=
  df1 <- rename_basics df ;;
  df2 <- resolve_amount df1 ;;
  resolve_category df2.

(** The five variables [date_col], [desc_col], [receive_col],
    [amount_col] and [cat_col] as [load_data] computes them. *)
Definition infer_roles (df : frame column) : result roles :=
  c0 <- DF.column_at df 0 ;;
  df1 <- rename_basics df ;;
  df2 <- resolve_amount df1 ;;
  Ok {| date_col := Some (find_date (DF.columns df) c0);
        desc_col := find_desc (DF.columns df);
        receive_col := find_receive (DF.columns df1);
        amount_col := find_amount (DF.columns df1);
        cat_col := find_cat (DF.columns df2) |}.

(** Lines 79-85 *)
Definition sample_dates : column :=
  Object [Str "2023-12-01"; Str "2023-12-02"; Str "2023-12-05";
          Str "2023-12-08"; Str "2023-12-10"].

Definition sample_amounts : list float :=
  [Fin (-150) 0; Fin 3000 0; Fin (-15) 0; Fin (-45) 0; Fin (-60) 0].

Definition sample_data : frame column :=
  [("Date", sample_dates);
   ("Description", Object [Str "Grocery Store"; Str "Salary"; Str "Netflix";
                           Str "Gas Station"; Str "Restaurant"]);
   ("Category", Object [Str "Groceries 🛒"; Str "Income 💰";
                        Str "Entertainment 🎬"; Str "Transport 🚆";
                        Str "Food & Dining 🍔"]);
   ("Amount", Float64 sample_amounts)].

(** [load_data(uploaded_file)]: the uploaded table when there is one,
    else the table of [statement.csv], [None] standing for
    [FileNotFoundError]; the arguments are the tables [pd.read_csv]
    returns. *)
Definition load_data (uploaded_file statement_csv : option (frame column))
  : result (frame column) :=
  let df :=
    match uploaded_file with
    | Some f => Some f
    | None => statement_csv
    end in
  match df with
  | Some df => load_frame df
  | None => Ok sample_data
  end.

(** ** The type coercions of the script, lines 93-98

    [pd.to_datetime] gives the [Date] column the type [datetime64], a
    cell being a time in nanoseconds or NaT. *)

Inductive lcolumn : Type :=
| Plain (c : column)
| Datetime64 (ts : list (option Z)).

Definition as_ledger (df : frame column) : frame lcolumn :=
  map (fun cx => (fst cx, Plain (snd cx))) df.

(** The int64 view of a time; NaT is the least int64. *)
Definition stamp_int (t : option Z) : float :=
  match t with
  | Some n => Fin n 0
  | None => Fin (-9223372036854775808) 0
  end.

Definition to_numeric_l (x : lcolumn) : column :=
  match x with
  | Plain c => to_numeric c
  | Datetime64 ts => Float64 (map stamp_int ts)
  end.

Section Pipeline.

(** The converter [pd.to_datetime] on a column that is not yet of type
    [datetime64]; [None] when it raises. *)
Variable pd_to_datetime : column -> option (list (option Z)).

Definition to_datetime (x : lcolumn) : result lcolumn :=
  match x with
  | Datetime64 ts => Ok (Datetime64 ts)
  | Plain c =>
      match pd_to_datetime c with
      | Some ts => Ok (Datetime64 ts)
      | None => Raise DateError
      end
  end.

Definition ensure_types (df : frame lcolumn) : result (frame lcolumn) :=
  d <- DF.getitem df "Date" ;;
  d' <- to_datetime d ;;
  let df := DF.setitem df "Date" d' in
  a <- DF.getitem df "Amount" ;;
  df <- match a with
        | Plain (Object _) =>
            a' <- DF.getitem df "Amount" ;;
            match a' with
            | Plain c => Ok (DF.setitem df "Amount" (Plain (clean c)))
            | Datetime64 _ => Ok df
            end
        | _ => Ok df
        end ;;
  a2 <- DF.getitem df "Amount" ;;
  Ok (DF.setitem df "Amount" (Plain (fillna0 (to_numeric_l a2)))).

(** Lines 91-98: the ledger the rest of the script works on. *)
Definition pipeline (uploaded_file statement_csv : option (frame column))
  : result (frame lcolumn) :=
  df <- load_data uploaded_file statement_csv ;;
  ensure_types (as_ledger df).

End Pipeline.

(** ** Reference definitions, from the words of the specification *)

Module Spec.

(** *** Column Role Inferrer (section 4.2): first match over the
    column names of the raw table, independently per role. *)

Definition first_containing (kws cols : list string) : option string :=
  find (fun c => existsb (fun k => Py.contains k (Py.lower c)) kws) cols.

Definition first_equal (words cols : list string) : option string :=
  find (fun c => existsb (String.eqb (Py.lower c)) words) cols.

Definition or_else {A} (o d : option A) : option A :=
  match o with
  | Some x => Some x
  | None => d
  end.

Definition role_map (cols : list string) : roles :=
  {| date_col := or_else (first_containing ["date"; "time"] cols)
                         (nth_error cols 0);
     desc_col := or_else (first_containing ["desc"; "merchant"; "name"] cols)
                         (nth_error cols 2);
     receive_col := first_containing ["receive"; "credit"; "deposit"] cols;
     amount_col :=
       first_equal ["amount"; "debit"; "withdraw"; "payment"] cols;
     cat_col := first_containing ["cat"] cols |}.

(** The roles keep apart: no column is claimed by the date or the
    description role and by the credit, debit or category role as
    well, and without a debit column the second column is not the
    category column. *)
Definition neq_role (a b : option string) : bool :=
  match a, b with
  | Some x, Some y => negb (x =? y)
  | _, _ => true
  end.

Definition roles_apart (cols : list string) : bool :=
  let r := role_map cols in
  neq_role (receive_col r) (date_col r) && neq_role (receive_col r) (desc_col r)
  && neq_role (amount_col r) (date_col r) && neq_role (amount_col r) (desc_col r)
  && neq_role (cat_col r) (date_col r) && neq_role (cat_col r) (desc_col r)
  && match amount_col r with
     | Some _ => true
     | None => neq_role (cat_col r) (nth_error cols 1)
     end.

(** *** Categorizer (section 4.4): an ordered list of rules, the first
    rule that fires gives the label. *)

Inductive trigger : Type :=
| Both (a b : string)
| AnyOf (kws : list string).

Definition fires (t : trigger) (desc : string) : bool :=
  match t with
  | Both a b => Py.contains a desc && Py.contains b desc
  | AnyOf kws => existsb (fun k => Py.contains k desc) kws
  end.

Definition savings : trigger := Both "kontoregulering" "mobil overføring".

Definition groceries : trigger :=
  AnyOf ["meny"; "rema"; "kiwi"; "bunnpris"; "coop"; "joker"; "dagligvare";
         "extra"; "spar"].

Definition dining : trigger :=
  AnyOf ["mcd"; "burger"; "sushi"; "pizza"; "restaurant"; "cafe";
         "starbucks"; "boba"; "thai"; "vaffel"; "bakeri"; "espresso"; "tea"].

Definition rules : list (trigger * string) :=
  [(savings, "Savings 🏦");
   (groceries, "Groceries 🛒");
   (dining, "Food & Dining 🍔");
   (AnyOf ["ruter"; "vipps:ruter"; "vy"; "flytoget"; "uber"; "taxi"; "bolt";
           "parkering"; "easypark"; "apcoa"; "voi"; "ryde"; "dott"; "buss"],
    "Transport 🚆");
   (AnyOf ["netflix"; "hbo"; "spotify"; "kino"; "steam"; "playstation";
           "bio"; "disney"], "Entertainment 🎬");
   (AnyOf ["telia"; "telenor"; "nte"; "strøm"; "leie"; "husleie";
           "forsikring"; "tryg"], "Bills & Utilities 💡");
   (AnyOf ["klarna"; "hm"; "zara"; "elkjøp"; "power"; "ikea"; "clas ohlson";
           "normal"; "apotek"; "vitus"; "blomster"], "Shopping 🛍️");
   (AnyOf ["lønn"; "salary"; "deposit"; "overføring innland"; "vipps";
           "straksoverføring"], "Income/Transfer 💰")].

Fixpoint first_match (rs : list (trigger * string)) (desc : string)
  : string :=
  match rs with
  | [] => "Other"
  | (t, label) :: rs' => if fires t desc then label else first_match rs' desc
  end.

(** *** Numeric Normalizer (section 4.1): a decimal numeral with an
    optional leading minus sign, and its value. *)

Fixpoint all_digits (s : string) : bool :=
  match s with
  | EmptyString => true
  | String c r => F.is_digit c && all_digits r
  end.

(** The digits before the first point and, when there is a point, the
    text behind it. *)
Fixpoint split_point (s : string) : string * option string :=
  match s with
  | EmptyString => (EmptyString, None)
  | String c r =>
      if Ascii.eqb c "."
      then (EmptyString, Some r)
      else let (a, b) := split_point r in (String c a, b)
  end.

Definition unsigned_part (s : string) : bool * string :=
  match s with
  | String c r => if Ascii.eqb c "-" then (true, r) else (false, s)
  | EmptyString => (false, s)
  end.

Definition numeral_parts (s : string) : bool * string * string :=
  let (neg, body) := unsigned_part s in
  let (ip, rest) := split_point body in
  (neg, ip, match rest with Some fp => fp | None => EmptyString end).

Definition plain_numeral (s : string) : bool :=
  let '(_, ip, fp) := numeral_parts s in
  all_digits ip && all_digits fp && (0 <? String.length (ip ++ fp))%nat.

Definition numeral_value (s : string) : float :=
  let '(neg, ip, fp) := numeral_parts s in
  Fin (F.signed neg (F.digits_val (ip ++ fp))) (String.length fp).

End Spec.

(** ** Derived notions used in the statements *)

(** The normalizer on one cell. *)
Definition normalize_cell (v : value) : float :=
  fill0 (F.of_text (clean_text (py_str v))).

(** Credit minus debit, cell by cell, both normalized. *)
Definition netted (x y : column) : column :=
  Float64 (zip_sub (map normalize_cell (cells_of x))
                   (map normalize_cell (cells_of y))).

(** What lines 96-98 make of the [Amount] column. *)
Definition coerce_amount (a : lcolumn) : column :=
  match a with
  | Plain (Object vs) => normalize (Object vs)
  | _ => fillna0 (to_numeric_l a)
  end.

(** [series.sum()] of a float64 series without NaN. *)
Definition total (xs : list float) : float := fold_left F.add xs F.zero.

Definition nrows (c : column) : nat := List.length (cells_of c).

(** A null cell: NaN. *)
Definition isnull (v : value) : bool :=
  match v with
  | Num NaN => true
  | _ => false
  end.

(** Shapes of text used in the proofs about the number parser. *)

Module Shape.

Definition starts_digit (s : string) : bool :=
  match s with
  | String c _ => F.is_digit c
  | EmptyString => false
  end.

Definition numeric_char (c : ascii) : bool :=
  F.is_digit c || Ascii.eqb c "." || Ascii.eqb c "-".

Fixpoint numeric_text (s : string) : bool :=
  match s with
  | EmptyString => true
  | String c r => numeric_char c && numeric_text r
  end.

Fixpoint without (p : ascii) (s : string) : bool :=
  match s with
  | EmptyString => true
  | String c r => negb (Ascii.eqb c p) && without p r
  end.

End Shape.

(** *** A converter for examples

    It reads the ISO form [YYYY-MM-DD] and takes NaN to NaT; it stands
    in for [pd.to_datetime] where a statement is tried on a concrete
    table. *)

Module Iso.

Definition digit (c : ascii) : option Z :=
  if F.is_digit c then Some (Z.of_N (N_of_ascii c) - 48)%Z else None.

Definition days_from_civil (y m d : Z) : Z :=
  let y := (if m <=? 2 then y - 1 else y)%Z in
  let era := (y / 400)%Z in
  let yoe := (y - era * 400)%Z in
  let mp := ((m + 9) mod 12)%Z in
  let doy := ((153 * mp + 2) / 5 + d - 1)%Z in
  let doe := (yoe * 365 + yoe / 4 - yoe / 100 + doy)%Z in
  (era * 146097 + doe - 719468)%Z.

Definition date (s : string) : option Z :=
  match s with
  | String a (String b (String c (String d (String "-" (String e (String f
      (String "-" (String g (String h EmptyString))))))))) =>
      match digit a, digit b, digit c, digit d,
            digit e, digit f, digit g, digit h with
      | Some a, Some b, Some c, Some d, Some e, Some f, Some g, Some h =>
          Some (days_from_civil (1000 * a + 100 * b + 10 * c + d)
                                (10 * e + f) (10 * g + h)
                * 86400000000000)%Z
      | _, _, _, _, _, _, _, _ => None
      end
  | _ => None
  end.

Fixpoint stamps (vs : list value) : option (list (option Z)) :=
  match vs with
  | [] => Some []
  | v :: vs' =>
      match v, stamps vs' with
      | Str s, Some ts =>
          match date s with
          | Some t => Some (Some t :: ts)
          | None => None
          end
      | Num NaN, Some ts => Some (None :: ts)
      | _, _ => None
      end
  end.

Definition to_datetime (c : column) : option (list (option Z)) :=
  stamps (cells_of c).

End Iso.

(** *** Tables for examples *)

Module Tables.

(** Tables as [pd.read_csv] returns them: a column in which every cell
    reads as a number is a [float64] column, any other column holds
    its texts, NaN standing for an empty cell. *)

Definition netting_table : frame column :=
  [("Date", Object [Str "2023-12-01"; Str "2023-12-02"]);
   ("Description", Object [Str "Kiwi 223"; Str "Salary"]);
   ("Credit", Object [Str "500"; Str "31,000.00 kr"]);
   ("Debit", Object [Str "120.50"; Num NaN])].

Definition two_column_table : frame column :=
  [("Date", Object [Str "2023-12-01"]); ("Amount", Float64 [Fin 1200 2])].

Definition undated_table : frame column :=
  [("Date", Object [Str "2023-12-01"; Str "tomorrow"]);
   ("Description", Object [Str "Kiwi 223"; Str "Ruter"]);
   ("Amount", Float64 [Fin 1200 2; Fin 39 0])].

Definition balance_table : frame column :=
  [("Date", Object [Str "2023-12-01"]);
   ("Description", Object [Str "Kiwi 223"]);
   ("Amount", Float64 [Fin (-1200) 2]);
   ("Balance", Object [Str "1,000.00"])].

Definition blank_description_table : frame column :=
  [("Date", Object [Str "2023-12-01"; Str "2023-12-02"]);
   ("Description", Object [Str "Kiwi 223"; Num NaN]);
   ("Amount", Object [Str "12.00 kr"; Str "39 kr"])].

Definition categorized_table : frame column :=
  [("Date", Object [Str "2023-12-01"]);
   ("Category", Object [Str "Food"]);
   ("Amount", Float64 [Fin (-1200) 2])].

Definition labelled_table : frame column :=
  [("Date", Object [Str "2023-12-01"]);
   ("Description", Object [Str "Rema 1000"]);
   ("Amount", Float64 [Fin (-1200) 2]);
   ("Kategori / Cat", Object [Str "Mat"])].

Definition deposit_table : frame column :=
  [("Deposit Date", Object [Str "2023-12-01"]);
   ("Amount", Float64 [Fin 1200 2]);
   ("Description", Object [Str "Kiwi 223"])].

Definition bank_table : frame column :=
  [("Transaction Date", Object [Str "2023-12-01"]);
   ("Payment", Float64 [Fin 12050 2]);
   ("Merchant Name", Object [Str "Kiwi 223"])].

End Tables.

(** ** The numbers on which the model is exact

    An amount with at most 15 digits is the float64 value nearest to
    it, and its text is read back to it.  An amount that is moreover a
    multiple of a power of 1/2 is a float64 value itself, so that a
    sum or a difference of such amounts that is again such an amount
    is computed without rounding, by float64 and by int64 arithmetic
    alike.  The statements about the values of amounts are made on
    these numbers. *)

Module Exact.

(** The rational a finite number stands for. *)
Definition value (x : float) : Q :=
  match x with
  | Fin m k => Qmake m (Z.to_pos (F.pow10 k))
  | _ => 0%Q
  end.

Definition finite (x : float) : bool :=
  match x with Fin _ _ => true | _ => false end.

(** At most 15 digits, of which at most 15 behind the point. *)
Definition short (x : float) : bool :=
  match x with
  | Fin m k => (Z.abs m <? 10 ^ 15)%Z && (k <=? 15)%nat
  | _ => true
  end.

(** [m / 10^k] is a multiple of [1 / 2^k]. *)
Definition dyadic (x : float) : bool :=
  match x with
  | Fin m k => (m mod 5 ^ Z.of_nat k =? 0)%Z
  | _ => false
  end.

Definition exact (x : float) : bool := finite x && short x && dyadic x.

End Exact.

(** ** The Numeric Normalizer in the words of the specification
    (section 4.1) *)

Module Norm.

(** Step 2: every occurrence of one character is stripped. *)
Fixpoint drop_char (p : ascii) (s : string) : string :=
  match s with
  | EmptyString => EmptyString
  | String c r =>
      if Ascii.eqb c p then drop_char p r else String c (drop_char p r)
  end.

(** The token "kr" is stripped, left to right. *)
Fixpoint drop_kr (s : string) : string :=
  match s with
  | EmptyString => EmptyString
  | String c r =>
      match r with
      | String d r' =>
          if Ascii.eqb c "k" && Ascii.eqb d "r"
          then drop_kr r'
          else String c (drop_kr r)
      | EmptyString => String c EmptyString
      end
  end.

(** Steps 1 and 2: lowercase, then strip the commas, the dollar signs,
    the token "kr" and the blanks. *)
Definition cleaned (s : string) : string :=
  drop_char " " (drop_kr (drop_char "$" (drop_char "," (Py.lower s)))).

Fixpoint no_digit (s : string) : bool :=
  match s with
  | EmptyString => true
  | String c r => negb (F.is_digit c) && no_digit r
  end.

(** The names of the infinities, in any letter case. *)
Definition names_infinity (s : string) : bool :=
  existsb (String.eqb (Py.lower s))
    ["inf"; "+inf"; "-inf"; "infinity"; "+infinity"; "-infinity"].

(** A residue that is no number: no digit in it, and no name of an
    infinity. *)
Definition unreadable (t : string) : bool :=
  no_digit t && negb (names_infinity t).

(** Steps 3 and 4 and the edge cases: the value of the numeral that is
    left, 0 on failure and for a null cell; a number passes through. *)
Definition amount (v : value) : float :=
  match v with
  | Num NaN => F.zero
  | Num x => x
  | Str s =>
      let t := cleaned s in
      if Spec.plain_numeral t then Spec.numeral_value t else F.zero
  end.

(** The cells on which the specification says what the normalizer
    returns and on which the numbers are those of float64: a number of
    at most 15 digits; a text whose residue is a decimal numeral, with
    an optional leading minus sign, of at most 15 characters; a text
    whose residue is no number. *)
Definition agreed (v : value) : bool :=
  match v with
  | Num x => Exact.short x
  | Str s =>
      let t := cleaned s in
      (Spec.plain_numeral t && (String.length t <=? 15)%nat) || unreadable t
  end.

End Norm.

(** ** Netting, in the words of the specification (section 4.3)

    [amt] nets the credit cells [x] against the debit cells [y]: in
    each row whose cells are in the domain of the normalizer and whose
    credit, debit and difference are exact numbers, the amount is the
    credit minus the debit. *)
Definition nets (x y : column) (amt : list float) : Prop :=
  forall i c d w,
    nth_error (cells_of x) i = Some c -> nth_error (cells_of y) i = Some d ->
    Norm.agreed c = true -> Norm.agreed d = true ->
    Exact.exact (Norm.amount c) = true -> Exact.exact (Norm.amount d) = true ->
    Exact.exact w = true ->
    (Exact.value w == Exact.value (Norm.amount c) - Exact.value (Norm.amount d))%Q ->
    exists z, nth_error amt i = Some z /\ Exact.finite z = true /\
              (Exact.value z == Exact.value w)%Q.

(** *** Further tables for examples *)

Module Cases.

(** A credit written with an exponent. *)
Definition exponent_table : frame column :=
  [("Date", Object [Str "2023-12-01"]);
   ("Description", Object [Str "Salary"]);
   ("Credit", Object [Str "1e3 kr"]);
   ("Debit", Float64 [Fin 0 0])].

(** A ledger with a row whose cells are all missing and a row whose
    amount is a word. *)
Definition gaps_table : frame column :=
  [("Date", Object [Str "2023-12-01"; Num NaN; Str "2023-12-03"]);
   ("Description", Object [Str "Kiwi 223"; Num NaN; Str "Ruter"]);
   ("Amount", Object [Str "12.00 kr"; Num NaN; Str "pending"])].

End Cases.

(** ** The shape of the ledger *)

(** A relabelling keeps a label or gives one of the four canonical
    labels in its place. *)
Definition relabels (f : string -> string) : Prop :=
  forall c, f c = c \/ In (f c) ["Date"; "Description"; "Amount"; "Category"].

(** The columns that can be appended, in their order. *)
Definition appended : list (list string) :=
  [[]; ["Amount"]; ["Category"]; ["Amount"; "Category"]].

(** The table takes the single-column fallback: after the first stage
    no credit column or no debit column is found. *)
Definition single_path (df : frame column) : Prop :=
  forall df1, rename_basics df = Ok df1 ->
    find_receive (DF.columns df1) = None \/ find_amount (DF.columns df1) = None.

(** ** Characters of a text *)

Module Chars.

(** The lowering of one ASCII character, and the test for the two
    bytes of a capital of the Latin-1 supplement. *)
Definition lower_char (c : ascii) : ascii :=
  if Py.ascii_in 65 90 c then Py.shift32 c else c.

Definition latin_pair (c d : ascii) : bool :=
  (N_of_ascii c =? 195)%N && Py.ascii_in 128 158 d && negb (N_of_ascii d =? 151)%N.

(** Every character of [s] passes [p]. *)
Fixpoint all_chars (p : ascii -> bool) (s : string) : bool :=
  match s with
  | EmptyString => true
  | String c r => p c && all_chars p r
  end.

(** The UTF-8 text of ASCII characters and characters of the Latin-1
    supplement (code points up to U+00FF), on which [Py.lower] is
    [str.lower]. *)
Fixpoint latin1 (s : string) : bool :=
  match s with
  | EmptyString => true
  | String c r =>
      if (N_of_ascii c <? 128)%N then latin1 r
      else
        match r with
        | String d r' =>
            ((N_of_ascii c =? 194)%N || (N_of_ascii c =? 195)%N)
            && Py.ascii_in 128 191 d && latin1 r'
        | EmptyString => false
        end
  end.

End Chars.

(** ** Further layouts of a table *)

Module Layouts.

(** A ledger in the order date, description, value. *)
Definition value_table : frame column :=
  [("Date", Object [Str "2024-01-05"; Str "2024-01-06"]);
   ("Description", Object [Str "Kiwi 223"; Str "Ruter"]);
   ("Value", Float64 [Fin (-1200) 2; Fin (-39) 0])].

(** A table whose first column holds names and no label is date-like. *)
Definition name_table : frame column :=
  [("Name", Object [Str "Kiwi 223"; Str "Ruter"]);
   ("Amount", Float64 [Fin (-1200) 2; Fin (-39) 0])].

End Layouts.


(** ** The dashboard, lines 100-162

    The script goes on with the ledger of [ensure_types], whose [Date]
    column is a [datetime64] column and whose [Amount] column a
    [float64] column: a month filter, three sums, a sum per day, a sum
    of the expenses per category and an order of the rows.  The
    functions below take the cells of these columns. *)

Module View.

(** *** Sums, lines 111-113 *)

(** [x > 0] and [x < 0] on float64 *)
Definition gt0 (x : float) : bool :=
  match x with
  | Fin m _ => (0 <? m)%Z
  | PInf => true
  | _ => false
  end.

Definition lt0 (x : float) : bool :=
  match x with
  | Fin m _ => (m <? 0)%Z
  | NInf => true
  | _ => false
  end.

(** One step of a sum that skips NaN. *)
Definition plus (s x : float) : float := if F.isna x then s else F.add s x.

(** [series.sum()]: NaN is skipped, the empty sum is 0. *)
Definition pd_sum (xs : list float) : float := fold_left plus xs F.zero.

(** [series.abs()] on one number *)
Definition fabs (x : float) : float :=
  match x with
  | Fin m k => Fin (Z.abs m) k
  | NInf => PInf
  | _ => x
  end.

Record metrics : Type := {
  total_balance : float;
  income : float;
  expense : float
}.

Definition metrics_of (xs : list float) : metrics :=
  {| total_balance := pd_sum xs;
     income := pd_sum (filter gt0 xs);
     expense := pd_sum (filter lt0 xs) |}.

(** *** Colours, lines 128-131 and 160-162 *)

Definition bar_type (x : float) : string :=
  if gt0 x then "Income 🟢" else "Expense 🔴".

Definition color_discrete_map (t : string) : option string :=
  if t =? "Income 🟢" then Some "#00CC96"
  else if t =? "Expense 🔴" then Some "#EF553B"
  else None.

Definition color_amount (val : float) : string :=
  let color := if gt0 val then "#00CC96" else "#EF553B" in
  "color: " ++ color.

(** *** Sums per group, lines 127 and 142

    [groupby(key)[col].sum().reset_index()]: one row per key, the keys
    in increasing order, the rows without key left out. *)

Section GroupBy.
Context {K : Type}.
Variable kcmp : K -> K -> comparison.

Fixpoint insert_sum (k : K) (x : float) (gs : list (K * float))
  : list (K * float) :=
  match gs with
  | [] => [(k, plus F.zero x)]
  | (k', s) :: gs' =>
      match kcmp k k' with
      | Lt => (k, plus F.zero x) :: gs
      | Eq => (k', plus s x) :: gs'
      | Gt => (k', s) :: insert_sum k x gs'
      end
  end.

Fixpoint group_rows (keys : list (option K)) (xs : list float)
    (gs : list (K * float)) : list (K * float) :=
  match keys, xs with
  | Some k :: keys', x :: xs' => group_rows keys' xs' (insert_sum k x gs)
  | None :: keys', _ :: xs' => group_rows keys' xs' gs
  | _, _ => gs
  end.

Definition groupby_sum (keys : list (option K)) (xs : list float)
  : list (K * float) :=
  group_rows keys xs [].

End GroupBy.

(** Line 127-128: the sum of each day and its type. *)
Definition daily (ts : list (option Z)) (xs : list float)
  : list (Z * float * string) :=
  map (fun g => (fst g, snd g, bar_type (snd g))) (groupby_sum Z.compare ts xs).

(** *** Values

    The rational a finite number stands for. *)
Definition finite (x : float) : bool :=
  match x with Fin _ _ => true | _ => false end.

Definition to_Q (x : float) : Q :=
  match x with
  | Fin m k => Qmake m (Z.to_pos (F.pow10 k))
  | _ => 0%Q
  end.

Definition Qsum (xs : list float) : Q :=
  fold_right (fun x q => (to_Q x + q)%Q) 0%Q xs.

Definition all_finite (xs : list float) : Prop :=
  Forall (fun x => finite x = true) xs.

Definition sums_finite {K} (gs : list (K * float)) : Prop :=
  all_finite (map snd gs).

(** The rows [xs] whose key passes [p]. *)
Fixpoint rows_where {K} (p : option K -> bool) (keys : list (option K))
    (xs : list float) : list float :=
  match keys, xs with
  | k :: keys', x :: xs' =>
      if p k then x :: rows_where p keys' xs' else rows_where p keys' xs'
  | _, _ => []
  end.

Definition has_key {K} (o : option K) : bool :=
  match o with Some _ => true | None => false end.

Definition is_day (t : Z) (o : option Z) : bool :=
  match o with Some u => (u =? t)%Z | None => false end.

(** The value recorded for a day among sums per day. *)
Definition gval (t : Z) (gs : list (Z * float)) : Q :=
  Qsum (map snd (filter (fun g => (fst g =? t)%Z) gs)).

(** Sums per group that are all above 0. *)
Definition positive {K} (gs : list (K * float)) : Prop :=
  Forall (fun g => gt0 (snd g) = true) gs.

End View.

Module Board.
Import View.

(** *** Rows *)

(** [xs[mask]] *)
Fixpoint mask {A} (m : list bool) (xs : list A) : list A :=
  match m, xs with
  | b :: m', x :: xs' => if b then x :: mask m' xs' else mask m' xs'
  | _, _ => []
  end.

(** The rows at the positions [idx], in this order. *)
Definition take {A} (idx : list nat) (xs : list A) : list A :=
  flat_map (fun i => match nth_error xs i with
                     | Some x => [x]
                     | None => []
                     end) idx.

(** *** Months, lines 101-108 *)

(** The civil date of a count of days since 1970-01-01 (proleptic
    Gregorian calendar). *)
Definition civil_from_days (z : Z) : Z * Z * Z :=
  let z := (z + 719468)%Z in
  let era := (z / 146097)%Z in
  let doe := (z - era * 146097)%Z in
  let yoe := ((doe - doe / 1460 + doe / 36524 - doe / 146096) / 365)%Z in
  let y := (yoe + era * 400)%Z in
  let doy := (doe - (365 * yoe + yoe / 4 - yoe / 100))%Z in
  let mp := ((5 * doy + 2) / 153)%Z in
  let d := (doy - (153 * mp + 2) / 5 + 1)%Z in
  let m := (if mp <? 10 then mp + 3 else mp - 9)%Z in
  ((if m <=? 2 then y + 1 else y)%Z, m, d).

Definition pad (w : nat) (n : Z) : string :=
  let ds := F.digits_of (Z.to_N n) in
  F.zeros (w - String.length ds) ++ ds.

(** [t.strftime('%Y-%m')] of a time in nanoseconds; the times of pandas
    lie in the years 1677 to 2262. *)
Definition month_text (t : Z) : string :=
  let '(y, m, _) := civil_from_days (t / 86400000000000) in
  pad 4 y ++ "-" ++ pad 2 m.

(** [df['Date'].dt.strftime('%Y-%m')]: NaT gives NaN, here [None]. *)
Definition month_year (ts : list (option Z)) : list (option string) :=
  map (option_map month_text) ts.

Definition opt_eqb (a b : option string) : bool :=
  match a, b with
  | Some s, Some t => s =? t
  | None, None => true
  | _, _ => false
  end.

(** [series.unique()]: the values in the order of their first
    occurrence, NaN once. *)
Fixpoint unique_from (seen xs : list (option string))
  : list (option string) :=
  match xs with
  | [] => []
  | x :: r =>
      if existsb (opt_eqb x) seen then unique_from seen r
      else x :: unique_from (x :: seen) r
  end.

Definition unique (xs : list (option string)) : list (option string) :=
  unique_from [] xs.

(** Insertion sort, stable: [x] goes before the first element it is
    [le] to. *)
Section Sort.
Context {A : Type}.
Variable le : A -> A -> bool.

Fixpoint insert_by (x : A) (l : list A) : list A :=
  match l with
  | [] => [x]
  | y :: l' => if le x y then x :: l else y :: insert_by x l'
  end.

Fixpoint sort_by (l : list A) : list A :=
  match l with
  | [] => []
  | x :: l' => insert_by x (sort_by l')
  end.

End Sort.

(** [a >= b] on texts, by code points *)
Definition str_ge (a b : string) : bool :=
  match String.compare a b with
  | Lt => false
  | _ => true
  end.

Fixpoint texts (xs : list (option string)) : list string :=
  match xs with
  | [] => []
  | Some s :: r => s :: texts r
  | None :: r => texts r
  end.

Definition is_none (o : option string) : bool :=
  match o with None => true | Some _ => false end.

(** [sorted(values, reverse=True)]: comparing a text with NaN raises
    [TypeError]; a single value is compared with nothing. *)
Definition sorted_reverse (u : list (option string))
  : result (list (option string)) :=
  if existsb is_none u
  then if existsb (fun o => negb (is_none o)) u
       then Raise TypeError
       else Ok u
  else Ok (map Some (sort_by str_ge (texts u))).

Definition available_months (ms : list (option string))
  : result (list (option string)) :=
  sorted_reverse (unique ms).

(** [df['Month_Year'] == selected_month] on one row *)
Definition month_is (selected : value) (m : option string) : bool :=
  match selected, m with
  | Str s, Some t => s =? t
  | _, _ => false
  end.

Definition is_all (selected : value) : bool :=
  match selected with
  | Str s => s =? "All"
  | Num _ => false
  end.

(** The mask of lines 107-108: every row under "All". *)
Definition month_mask (selected : value) (ms : list (option string))
  : list bool :=
  if is_all selected then map (fun _ => true) ms
  else map (month_is selected) ms.

(** *** Order of the rows, lines 156-157 *)

(** Dates descending, NaT last. *)
Definition date_before (a b : option Z) : bool :=
  match a, b with
  | Some x, Some y => (y <? x)%Z
  | Some _, None => true
  | _, _ => false
  end.

Definition date_same (a b : option Z) : bool :=
  match a, b with
  | Some x, Some y => (x =? y)%Z
  | None, None => true
  | _, _ => false
  end.

Definition row_key : Type := (option Z * bool)%type.

(** The order of [sort_values(by=['Date', 'IsPriority'],
    ascending=[False, True])] on the keys of two rows. *)
Definition key_le (a b : row_key) : bool :=
  date_before (fst a) (fst b)
  || (date_same (fst a) (fst b) && (negb (snd a) || snd b)).

Definition keyed_le (a b : row_key * nat) : bool := key_le (fst a) (fst b).

(** The positions of the rows in the sorted frame. *)
Definition sort_order (ts : list (option Z)) (bs : list bool) : list nat :=
  map snd (sort_by keyed_le
             (combine (combine ts bs) (seq 0 (List.length ts)))).

(** The key of row [i]. *)
Definition key_at (ts : list (option Z)) (bs : list bool) (i : nat) : row_key :=
  (nth i ts None, nth i bs false).

(** [a] before [b] in a stable sort: [a] is not after [b] by [le], and
    comes first in the input when they are equal by [le]. *)
Definition le2 {A} (le : A -> A -> bool) (idx : A -> nat) (a b : A) : Prop :=
  le a b = true /\ (le b a = true -> (idx a < idx b)%nat).

(** The reading of the order: row [i] is shown before row [j]. *)
Definition tie (bs : list bool) (i j : nat) : Prop :=
  (nth i bs false = true -> nth j bs false = true) /\
  (nth i bs false = nth j bs false -> (i < j)%nat).

Definition shown_before (ts : list (option Z)) (bs : list bool) (i j : nat)
  : Prop :=
  match nth i ts None, nth j ts None with
  | Some x, Some y => (y < x)%Z \/ (x = y /\ tie bs i j)
  | Some _, None => True
  | None, Some _ => False
  | None, None => tie bs i j
  end.

(** Texts in decreasing order, none twice. *)
Definition descending (ss : list string) : Prop :=
  StronglySorted (fun a b => String.compare a b = Gt) ss.

(** *** Expenses per category, lines 136-150 *)

Inductive gkey : Type :=
| KNum (x : float)
| KStr (s : string).

(** NaN is no key. *)
Definition value_key (v : value) : option gkey :=
  match v with
  | Str s => Some (KStr s)
  | Num NaN => None
  | Num x => Some (KNum x)
  end.

Definition cat_keys (c : column) : list (option gkey) :=
  map value_key (cells_of c).

Definition fcompare (a b : float) : comparison :=
  match a, b with
  | Fin m1 k1, Fin m2 k2 => (m1 * F.pow10 k2 ?= m2 * F.pow10 k1)%Z
  | NInf, NInf | PInf, PInf => Eq
  | NInf, _ | _, PInf => Lt
  | _, _ => Gt
  end.

(** Keys in increasing order; among the keys of an [object] column the
    numbers come before the texts. *)
Definition gcompare (a b : gkey) : comparison :=
  match a, b with
  | KNum x, KNum y => fcompare x y
  | KStr s, KStr t => String.compare s t
  | KNum _, KStr _ => Lt
  | KStr _, KNum _ => Gt
  end.

(** Lines 136-142: the rows with a negative amount, their absolute
    amounts summed per category; [None] when there is no such row
    ([expenses_df.empty]). *)
Definition cat_summary (cat : column) (xs : list float)
  : option (list (gkey * float)) :=
  let m := map lt0 xs in
  match mask m xs with
  | [] => None
  | ex => Some (groupby_sum gcompare (mask m (cat_keys cat)) (map fabs ex))
  end.

End Board.

(** *** Amounts whose sums are exact *)

Module Bounds.
Import View.

(** The magnitude of a finite amount, rounded up to a whole number. *)
Definition ceil_abs (x : float) : Z :=
  match x with
  | Fin m k => ((Z.abs m + F.pow10 k - 1) / F.pow10 k)%Z
  | _ => 0%Z
  end.

Definition magnitude (xs : list float) : Z :=
  fold_right (fun x s => (ceil_abs x + s)%Z) 0%Z xs.

(** Amounts of which the finite ones add up, in magnitude, to less
    than 2^63: a column of whole numbers that [read_csv] has read as
    int64 is summed without wrapping (a column with an infinity or NaN
    is a column of float64, where a sum of numbers above 0 is not
    below 0). *)
Definition int64_safe (xs : list float) : Prop :=
  (magnitude xs < 2 ^ 63)%Z.

(** Exact amounts (multiples of 1/2^15) whose magnitudes add up to less
    than 2^38: a sum of some of them or of their absolute values, in
    whatever order it is taken, is a multiple of 1/2^15 below 2^38,
    hence a float64 value, and is computed without rounding and, on
    int64, without wrapping. *)
Definition exact_sum (xs : list float) : Prop :=
  Forall (fun x => Exact.exact x = true) xs /\ (magnitude xs < 2 ^ 38)%Z.

End Bounds.

(** * Properties *)

(** ** Categorizer *)

Lemma categorize_first_match (v : value) :
  categorize v = Spec.first_match Spec.rules (Py.lower (py_str v)).
Proof.
  unfold categorize, any_in, Spec.rules, Spec.first_match, Spec.fires,
    Spec.savings, Spec.groceries, Spec.dining.
  reflexivity.
Qed.

(** ** Numbers and their text *)

Module FFacts.
Import F Shape.

Lemma span_digits_app a b :
  Spec.all_digits a = true -> starts_digit b = false ->
  span_digits (a ++ b) = (a, b).
Proof.
  induction a as [|c a IH]; simpl; intros Ha Hb.
  - destruct b as [|c b]; [reflexivity|]. simpl in *. now rewrite Hb.
  - apply andb_prop in Ha. destruct Ha as [Hc Ha]. rewrite Hc.
    now rewrite (IH Ha Hb).
Qed.

Lemma app_empty_r (a : string) : a ++ EmptyString = a.
Proof. induction a; simpl; congruence. Qed.

Lemma span_digits_all a :
  Spec.all_digits a = true -> span_digits a = (a, EmptyString).
Proof.
  intros H. rewrite <- (app_empty_r a) at 1. now apply span_digits_app.
Qed.

Lemma all_digits_app a b :
  Spec.all_digits (a ++ b) = Spec.all_digits a && Spec.all_digits b.
Proof.
  induction a as [|c a IH]; simpl; [reflexivity|].
  now rewrite IH, andb_assoc.
Qed.

Lemma scaled_0 m k : scaled m k 0 = Fin m k.
Proof.
  unfold scaled. rewrite Z.sub_0_r.
  destruct (Z.leb_spec (Z.of_nat k) 0) as [H|H].
  - assert (k = 0%nat) by lia. subst. simpl. now rewrite Z.mul_1_r.
  - now rewrite Nat2Z.id.
Qed.

(** The point splits a numeral as the parser does. *)
Lemma split_point_spec s ip rest :
  Spec.split_point s = (ip, rest) ->
  s = ip ++ match rest with Some fp => String "." fp | None => EmptyString end.
Proof.
  revert ip rest. induction s as [|c s IH]; simpl; intros ip rest H.
  - now inversion H.
  - destruct (Ascii.eqb_spec c ".") as [->|Hne].
    + now inversion H.
    + destruct (Spec.split_point s) as [a b]. inversion H; subst.
      simpl. f_equal. now apply IH.
Qed.

Lemma digit_not c d : is_digit c = true -> is_digit d = false -> Ascii.eqb c d = false.
Proof.
  intros Hc Hd. destruct (Ascii.eqb_spec c d); [congruence|reflexivity].
Qed.

Lemma digit_not_space c : is_digit c = true -> is_space c = false.
Proof.
  unfold is_digit, is_space, Py.ascii_in. intros H.
  apply andb_prop in H. destruct H as [H1 H2].
  apply N.leb_le in H1. apply N.leb_le in H2.
  apply orb_false_intro.
  - apply andb_false_intro2. apply N.leb_gt. lia.
  - apply N.eqb_neq. lia.
Qed.

Lemma length_nonempty (s : string) :
  (0 <? String.length s)%nat = true -> s <> EmptyString.
Proof. destruct s; [discriminate|congruence]. Qed.

(** On a numeral without sign the parser reads the digits around the
    point. *)
Lemma parse_unsigned ip fp (dot : bool) neg :
  Spec.all_digits ip = true -> Spec.all_digits fp = true ->
  ip ++ fp <> EmptyString ->
  (dot = false -> fp = EmptyString) ->
  let body := ip ++ (if dot then String "." fp else EmptyString) in
  (let (i, s2) := span_digits body in
   let (f, s3) :=
     match s2 with
     | String c r =>
         if Ascii.eqb c "." then span_digits r else (EmptyString, s2)
     | EmptyString => (EmptyString, s2)
     end in
   match i ++ f with
   | EmptyString => None
   | ds =>
       let (ex, s4) := parse_exponent s3 in
       if all_space s4
       then Some (scaled (signed neg (digits_val ds)) (String.length f) ex)
       else None
   end)
  = Some (Fin (signed neg (digits_val (ip ++ fp))) (String.length fp)).
Proof.
  intros Hi Hf Hne Hdot body. subst body. destruct dot.
  - rewrite (span_digits_app ip (String "." fp) Hi eq_refl). simpl.
    rewrite (span_digits_all fp Hf).
    destruct (ip ++ fp) eqn:E; [congruence|]. simpl.
    now rewrite scaled_0.
  - rewrite (Hdot eq_refl) in *. rewrite app_empty_r in *.
    rewrite (span_digits_all ip Hi). rewrite app_empty_r.
    destruct ip eqn:E; [congruence|]. simpl.
    now rewrite scaled_0.
Qed.

Lemma first_char_plain ip (dot : bool) fp c r :
  Spec.all_digits ip = true -> ip ++ fp <> EmptyString ->
  (dot = false -> fp = EmptyString) ->
  ip ++ (if dot then String "." fp else EmptyString) = String c r ->
  is_space c = false /\ Ascii.eqb c "-" = false /\ Ascii.eqb c "+" = false.
Proof.
  intros Hi Hne Hdot E. destruct ip as [|d ip].
  - destruct dot.
    + simpl in E. inversion E. subst. now repeat split.
    + rewrite (Hdot eq_refl) in Hne. now elim Hne.
  - simpl in E, Hi. inversion E; subst. apply andb_prop in Hi. destruct Hi as [Hd _].
    repeat split.
    + now apply digit_not_space.
    + now apply digit_not.
    + now apply digit_not.
Qed.

(** The parser reads a plain numeral as the specification values it. *)
Lemma of_text_plain t :
  Spec.plain_numeral t = true -> of_text t = Spec.numeral_value t.
Proof.
  unfold Spec.plain_numeral, Spec.numeral_value, Spec.numeral_parts.
  destruct (Spec.unsigned_part t) as [neg body] eqn:Eu.
  destruct (Spec.split_point body) as [ip rest] eqn:Es.
  intros H. apply andb_prop in H. destruct H as [H Hlen].
  apply andb_prop in H. destruct H as [Hi Hf].
  apply length_nonempty in Hlen.
  pose proof (split_point_spec _ _ _ Es) as Hb.
  set (fp := match rest with Some fp => fp | None => EmptyString end) in *.
  set (dot := match rest with Some _ => true | None => false end).
  assert (Hb' : body = ip ++ (if dot then String "." fp else EmptyString)).
  { rewrite Hb at 1. subst dot fp. now destruct rest. }
  assert (Hdot : dot = false -> fp = EmptyString).
  { subst dot fp. now destruct rest. }
  clearbody fp dot. clear Hb Es.
  assert (Hp : parse_sign (lstrip t) = (neg, body)).
  { destruct t as [|c r]; simpl in Eu.
    - inversion Eu; subst. destruct ip; [|discriminate]. destruct dot; [discriminate|].
      rewrite (Hdot eq_refl) in Hlen. now elim Hlen.
    - destruct (Ascii.eqb_spec c "-") as [->|Hc].
      + inversion Eu; subst. reflexivity.
      + inversion Eu; subst neg. rewrite <- H1 in *. clear H1.
        symmetry in Hb'.
        destruct (first_char_plain _ _ _ _ _ Hi Hlen Hdot Hb') as (Hs & Hm & Hpl).
        simpl. rewrite Hs. simpl. now rewrite Hm, Hpl. }
  unfold of_text, parse_decimal. rewrite Hp. rewrite Hb'.
  now rewrite (parse_unsigned ip fp dot neg Hi Hf Hlen Hdot).
Qed.

(** *** Text of a number and back *)

Lemma all_digits_uint u : Spec.all_digits (NilEmpty.string_of_uint u) = true.
Proof. induction u; simpl; auto. Qed.

Lemma all_digits_zeros j : Spec.all_digits (zeros j) = true.
Proof. induction j; simpl; auto. Qed.

Lemma length_app (a b : string) :
  String.length (a ++ b) = (String.length a + String.length b)%nat.
Proof. induction a; simpl; congruence. Qed.

Lemma length_zeros j : String.length (zeros j) = j.
Proof. induction j; simpl; congruence. Qed.

Lemma split_at_spec n s a b :
  split_at n s = (a, b) ->
  s = a ++ b /\
  ((n <= String.length s)%nat -> String.length a = n).
Proof.
  revert s a b. induction n as [|n IH]; intros s a b H.
  - simpl in H. destruct s; inversion H; subst; now split.
  - destruct s as [|c s]; simpl in H.
    + inversion H; subst. split; [reflexivity|]. simpl. lia.
    + destruct (split_at n s) as [a' b'] eqn:E. inversion H; subst.
      destruct (IH _ _ _ E) as [-> Hl]. split; [reflexivity|].
      simpl. intros Hle. f_equal. apply Hl. rewrite length_app in *. lia.
Qed.

Lemma digits_val_zeros j s : digits_val (zeros j ++ s) = digits_val s.
Proof.
  induction j as [|j IH]; [reflexivity|].
  simpl. unfold digits_val in *. simpl.
  destruct (NilEmpty.uint_of_string (zeros j ++ s)) as [u|];
    destruct (NilEmpty.uint_of_string s) as [u'|]; simpl in *; auto.
Qed.

Lemma digits_val_digits_of n : digits_val (digits_of n) = n.
Proof.
  unfold digits_val, digits_of. rewrite NilEmpty.usu.
  apply DecimalN.Unsigned.of_to.
Qed.

Lemma signed_abs m : signed (m <? 0)%Z (Z.abs_N m) = m.
Proof.
  unfold signed. rewrite N2Z.inj_abs_N.
  destruct (Z.ltb_spec m 0); lia.
Qed.

Lemma split_point_digits ip :
  Spec.all_digits ip = true ->
  (forall fp, Spec.split_point (ip ++ String "." fp) = (ip, Some fp)) /\
  Spec.split_point ip = (ip, None).
Proof.
  induction ip as [|c ip IH]; simpl; intros H.
  - now split.
  - apply andb_prop in H. destruct H as [Hc Hi].
    rewrite (digit_not c "." Hc eq_refl).
    destruct (IH Hi) as [IH1 IH2]. split.
    + intros fp. now rewrite IH1.
    + now rewrite IH2.
Qed.

(** The parts of the text of a finite number. *)
Lemma fin_text_parts m k :
  exists ip fp,
    fin_text m k =
      (if (m <? 0)%Z then "-" else EmptyString)
      ++ ip ++ match k with O => EmptyString | _ => String "." fp end /\
    Spec.all_digits ip = true /\ Spec.all_digits fp = true /\
    ip <> EmptyString /\ String.length fp = k /\
    digits_val (ip ++ fp) = Z.abs_N m.
Proof.
  unfold fin_text.
  set (ds := digits_of (Z.abs_N m)).
  set (padded := zeros (S k - String.length ds) ++ ds).
  destruct (split_at (String.length padded - k) padded) as [ip fp] eqn:E.
  exists ip, fp.
  assert (Hlen : (S k <= String.length padded)%nat).
  { subst padded. rewrite length_app, length_zeros. lia. }
  destruct (split_at_spec _ _ _ _ E) as [Hp Hl].
  assert (Had : Spec.all_digits padded = true).
  { subst padded. rewrite all_digits_app, all_digits_zeros. simpl.
    apply all_digits_uint. }
  rewrite Hp, all_digits_app in Had. apply andb_prop in Had.
  destruct Had as [Hi Hf].
  assert (Hli : String.length ip = (String.length padded - k)%nat)
    by (apply Hl; lia).
  repeat split; try assumption.
  - intros ->. simpl in Hli. lia.
  - rewrite Hp, length_app in Hli. rewrite Hp, length_app in Hlen. lia.
  - rewrite <- Hp. subst padded. rewrite digits_val_zeros.
    apply digits_val_digits_of.
Qed.

Lemma fin_text_numeral m k :
  Spec.plain_numeral (fin_text m k) = true /\
  Spec.numeral_value (fin_text m k) = Fin m k.
Proof.
  destruct (fin_text_parts m k) as (ip & fp & -> & Hi & Hf & Hne & Hk & Hv).
  assert (Hparts :
    Spec.numeral_parts
      ((if (m <? 0)%Z then "-" else EmptyString)
       ++ ip ++ match k with O => EmptyString | _ => String "." fp end)
    = ((m <? 0)%Z, ip, fp)).
  { unfold Spec.numeral_parts.
    assert (Hsp : Spec.split_point
              (ip ++ match k with O => EmptyString | _ => String "." fp end)
            = (ip, match k with O => None | _ => Some fp end)).
    { destruct (split_point_digits ip Hi) as [S1 S2]. destruct k.
      - now rewrite app_empty_r.
      - apply S1. }
    assert (Hfp : match (match k with O => None | _ => Some fp end) with
                  | Some f => f | None => EmptyString end = fp).
    { destruct k; [|reflexivity]. destruct fp; [reflexivity|discriminate]. }
    destruct (m <? 0)%Z.
    - cbn [append Spec.unsigned_part]. simpl Ascii.eqb. cbv iota.
      now rewrite Hsp, Hfp.
    - cbn [append]. destruct ip as [|c ip]; [now elim Hne|].
      cbn [append Spec.unsigned_part]. simpl in Hi.
      apply andb_prop in Hi. destruct Hi as [Hc Hi].
      rewrite (digit_not c "-" Hc eq_refl).
      change (String c (ip ++ match k with O => EmptyString | _ => String "." fp end))
        with (String c ip ++ match k with O => EmptyString | _ => String "." fp end).
      now rewrite Hsp, Hfp. }
  unfold Spec.plain_numeral, Spec.numeral_value. rewrite Hparts.
  split.
  - rewrite Hi, Hf. simpl. destruct ip; [now elim Hne|reflexivity].
  - now rewrite Hv, signed_abs, Hk.
Qed.

(** *** Cleaning leaves the text of a number alone *)

Lemma numeric_char_code c :
  numeric_char c = true -> (45 <= N_of_ascii c <= 57)%N.
Proof.
  unfold numeric_char, is_digit, Py.ascii_in. intros H.
  apply orb_prop in H. destruct H as [H|H].
  - apply orb_prop in H. destruct H as [H|H].
    + apply andb_prop in H. destruct H as [H1 H2].
      apply N.leb_le in H1. apply N.leb_le in H2. lia.
    + apply Ascii.eqb_eq in H. subst. simpl. lia.
  - apply Ascii.eqb_eq in H. subst. simpl. lia.
Qed.

Lemma lower_numeric s : numeric_text s = true -> Py.lower s = s.
Proof.
  induction s as [|c r IH]; [reflexivity|].
  intros H. simpl in H. apply andb_prop in H. destruct H as [Hc Hr].
  pose proof (numeric_char_code c Hc) as Hb.
  assert (E1 : (N_of_ascii c =? 195)%N = false) by (apply N.eqb_neq; lia).
  assert (E2 : Py.ascii_in 65 90 c = false).
  { unfold Py.ascii_in. apply andb_false_intro1. apply N.leb_gt. lia. }
  simpl. rewrite E1, E2. simpl. destruct r as [|d r']; [reflexivity|].
  now rewrite (IH Hr).
Qed.

Lemma prefix_head p pat c r :
  Ascii.eqb c p = false -> String.prefix (String p pat) (String c r) = false.
Proof.
  intros H. simpl. destruct (ascii_dec p c) as [->|]; [|reflexivity].
  now rewrite Ascii.eqb_refl in H.
Qed.

Lemma remove_without p pat s :
  without p s = true -> Py.remove (String p pat) s = s.
Proof.
  unfold Py.remove. induction s as [|c r IH]; [reflexivity|].
  intros H. simpl in H. apply andb_prop in H. destruct H as [Hc Hr].
  apply negb_true_iff in Hc.
  cbn [Py.remove_from]. rewrite (prefix_head p pat c r Hc).
  now rewrite (IH Hr).
Qed.

Lemma numeric_without p s :
  numeric_char p = false -> numeric_text s = true -> without p s = true.
Proof.
  intros Hp. induction s as [|c r IH]; [reflexivity|].
  simpl. intros H. apply andb_prop in H. destruct H as [Hc Hr].
  rewrite (IH Hr), andb_true_r. apply negb_true_iff.
  destruct (Ascii.eqb_spec c p); [congruence|reflexivity].
Qed.

Lemma clean_text_numeric s : numeric_text s = true -> clean_text s = s.
Proof.
  intros H. unfold clean_text. rewrite (lower_numeric s H).
  rewrite (remove_without "," EmptyString s) by (now apply numeric_without).
  rewrite (remove_without "$" EmptyString s) by (now apply numeric_without).
  rewrite (remove_without "k" "r" s) by (now apply numeric_without).
  now rewrite (remove_without " " EmptyString s) by (now apply numeric_without).
Qed.

Lemma numeric_text_app a b :
  numeric_text (a ++ b) = numeric_text a && numeric_text b.
Proof.
  induction a as [|c a IH]; simpl; [reflexivity|].
  now rewrite IH, andb_assoc.
Qed.

Lemma numeric_text_digits s : Spec.all_digits s = true -> numeric_text s = true.
Proof.
  induction s as [|c r IH]; [reflexivity|]. simpl.
  intros H. apply andb_prop in H. destruct H as [Hc Hr].
  unfold numeric_char. now rewrite Hc, (IH Hr).
Qed.

Lemma numeric_text_fin m k : numeric_text (fin_text m k) = true.
Proof.
  destruct (fin_text_parts m k) as (ip & fp & -> & Hi & Hf & _).
  rewrite !numeric_text_app. rewrite (numeric_text_digits ip Hi).
  assert (H1 : numeric_text (if (m <? 0)%Z then "-" else EmptyString) = true)
    by (now destruct (m <? 0)%Z).
  rewrite H1. simpl. destruct k; [reflexivity|].
  simpl. now apply numeric_text_digits.
Qed.

(** [str] followed by the cleaning and [to_numeric] gives a number
    back. *)
Lemma of_text_clean_text x : of_text (clean_text (text x)) = x.
Proof.
  destruct x as [m k| | |]; try reflexivity.
  simpl. rewrite (clean_text_numeric _ (numeric_text_fin m k)).
  destruct (fin_text_numeral m k) as [Hp Hv].
  now rewrite (of_text_plain _ Hp).
Qed.

End FFacts.

(** ** Frames: labels and selection *)

Module DFFacts.
Import DF.
Section Facts.
Context {C : Type}.
Implicit Types (df : frame C) (l : string) (x : C).

Lemma labelled_true l (cx : string * C) : labelled l cx = true <-> fst cx = l.
Proof. unfold labelled. apply String.eqb_eq. Qed.

Lemma labelled_false l (cx : string * C) : labelled l cx = false <-> fst cx <> l.
Proof. unfold labelled. apply String.eqb_neq. Qed.

Lemma existsb_labelled df l :
  existsb (labelled l) df = true <-> In l (columns df).
Proof.
  unfold columns. rewrite existsb_exists, in_map_iff. split.
  - intros [cx [Hin H]]. exists cx. apply labelled_true in H. auto.
  - intros [cx [H Hin]]. exists cx. split; [assumption|]. now apply labelled_true.
Qed.

Lemma columns_rename d df :
  columns (rename d df) = map (dict_get d) (columns df).
Proof. unfold columns, rename. rewrite !map_map. reflexivity. Qed.

Lemma columns_setitem df l x :
  columns (setitem df l x) =
  if existsb (labelled l) df then columns df else (columns df ++ [l])%list.
Proof.
  unfold setitem, columns. destruct (existsb (labelled l) df).
  - rewrite map_map. apply map_ext. intros cx. now destruct (labelled l cx).
  - now rewrite map_app.
Qed.

Lemma length_rename d df : List.length (rename d df) = List.length df.
Proof. apply length_map. Qed.

(** Selection succeeds exactly on a label carried once. *)
Lemma getitem_Ok df l x :
  getitem df l = Ok x <-> filter (labelled l) df = [(l, x)].
Proof.
  unfold getitem. split.
  - destruct (filter (labelled l) df) as [|cx [|cy t]] eqn:E; try discriminate.
    intros [= <-]. assert (Hin : In cx (filter (labelled l) df)) by (rewrite E; now left).
    apply filter_In in Hin. destruct Hin as [_ H]. apply labelled_true in H.
    destruct cx; simpl in *. now subst.
  - intros ->. reflexivity.
Qed.

Lemma getitem_In df l x : getitem df l = Ok x -> In l (columns df).
Proof.
  intros H. apply getitem_Ok in H. apply existsb_labelled.
  apply existsb_exists. exists (l, x). 
  assert (Hin : In (l, x) (filter (labelled l) df)) by (rewrite H; now left).
  apply filter_In in Hin. exact Hin.
Qed.

Lemma getitem_cells df l x cx :
  getitem df l = Ok x -> In cx df -> fst cx = l -> snd cx = x.
Proof.
  intros H Hin Hl. apply getitem_Ok in H.
  assert (Hf : In cx (filter (labelled l) df)).
  { apply filter_In. split; [assumption|]. now apply labelled_true. }
  rewrite H in Hf. destruct Hf as [<-|[]]. reflexivity.
Qed.

Lemma filter_setitem_same df l x :
  existsb (labelled l) df = true ->
  filter (labelled l) (setitem df l x) =
  map (fun cx => (fst cx, x)) (filter (labelled l) df).
Proof.
  intros He. unfold setitem. rewrite He. clear He.
  induction df as [|cx df IH]; simpl; [reflexivity|].
  destruct (labelled l cx) eqn:E; simpl.
  - unfold labelled at 1. simpl. fold (labelled l cx). rewrite E. simpl.
    now rewrite IH.
  - rewrite E. exact IH.
Qed.

Lemma getitem_setitem_same df l x y :
  getitem df l = Ok y -> getitem (setitem df l x) l = Ok x.
Proof.
  intros H. pose proof (getitem_In _ _ _ H) as Hin.
  apply existsb_labelled in Hin. apply getitem_Ok in H. apply getitem_Ok.
  rewrite filter_setitem_same by assumption. rewrite H. reflexivity.
Qed.

Lemma getitem_setitem_new df l x :
  existsb (labelled l) df = false -> getitem (setitem df l x) l = Ok x.
Proof.
  intros He. apply getitem_Ok. unfold setitem. rewrite He.
  rewrite filter_app. simpl. unfold labelled at 2. simpl. rewrite String.eqb_refl.
  replace (filter (labelled l) df) with (@nil (string * C)); [reflexivity|].
  symmetry. induction df as [|cx df IH]; [reflexivity|].
  simpl in *. apply orb_false_elim in He. destruct He as [H1 H2].
  rewrite H1. auto.
Qed.

Lemma filter_setitem_other df l l' x :
  l <> l' -> filter (labelled l') (setitem df l x) = filter (labelled l') df.
Proof.
  intros Hne. unfold setitem. destruct (existsb (labelled l) df).
  - induction df as [|cx df IH]; simpl; [reflexivity|].
    destruct (labelled l cx) eqn:E.
    + apply labelled_true in E.
      assert (F1 : labelled l' (fst cx, x) = false)
        by (apply labelled_false; simpl; congruence).
      assert (F2 : labelled l' cx = false) by (apply labelled_false; congruence).
      rewrite F1, F2. exact IH.
    + destruct (labelled l' cx); now rewrite IH.
  - rewrite filter_app. simpl.
    assert (F : labelled l' (l, x) = false) by (now apply labelled_false).
    rewrite F. apply app_nil_r.
Qed.

Lemma getitem_setitem_other df l l' x :
  l <> l' -> getitem (setitem df l x) l' = getitem df l'.
Proof.
  intros Hne. unfold getitem. now rewrite filter_setitem_other.
Qed.

(** Storing what is there changes nothing. *)
Lemma setitem_same df l x : getitem df l = Ok x -> setitem df l x = df.
Proof.
  intros H. pose proof (getitem_In _ _ _ H) as Hin.
  apply existsb_labelled in Hin. unfold setitem. rewrite Hin.
  rewrite <- (map_id df) at 2. apply map_ext_in. intros cx Hcx.
  destruct (labelled l cx) eqn:E; [|reflexivity].
  apply labelled_true in E. rewrite <- (getitem_cells _ _ _ _ H Hcx E).
  now destruct cx.
Qed.

Lemma filter_absent df l :
  ~ In l (columns df) -> filter (labelled l) df = [].
Proof.
  induction df as [|cx df IH]; intros Hn; [reflexivity|]. simpl.
  assert (F : labelled l cx = false).
  { apply labelled_false. intros E. apply Hn. now left. }
  rewrite F. apply IH. intros H. apply Hn. now right.
Qed.

(** A label carried once is selected. *)
Lemma getitem_NoDup df l :
  NoDup (columns df) -> In l (columns df) -> exists x, getitem df l = Ok x.
Proof.
  induction df as [|[c y] df IH]; intros Hnd Hin; [destruct Hin|].
  simpl in Hnd. inversion Hnd as [|? ? Hnot Hnd']; subst.
  destruct (String.eqb_spec c l) as [->|Hne].
  - exists y. apply getitem_Ok. simpl. unfold labelled at 1. simpl.
    rewrite String.eqb_refl. now rewrite filter_absent.
  - destruct Hin as [E|Hin]; [simpl in E; congruence|].
    destruct (IH Hnd' Hin) as [x Hx]. exists x.
    apply getitem_Ok. apply getitem_Ok in Hx. simpl.
    assert (F : labelled l (c, y) = false) by (now apply labelled_false).
    rewrite F. exact Hx.
Qed.

Lemma setitem_absent_map df l (f : string * C -> string * C) :
  existsb (labelled l) df = false ->
  map (fun cx => if labelled l cx then f cx else cx) df = df.
Proof.
  intros He. rewrite <- (map_id df) at 2. apply map_ext_in. intros cx Hin.
  destruct (labelled l cx) eqn:E; [|reflexivity].
  assert (existsb (labelled l) df = true) by (apply existsb_exists; eauto).
  congruence.
Qed.

(** The later of two assignments to a label stands. *)
Lemma setitem_setitem df l x y :
  setitem (setitem df l x) l y = setitem df l y.
Proof.
  destruct (existsb (labelled l) df) eqn:He.
  - assert (E1 : setitem df l x
                 = map (fun cx => if labelled l cx then (fst cx, x) else cx) df)
      by (unfold setitem; now rewrite He).
    assert (E2 : setitem df l y
                 = map (fun cx => if labelled l cx then (fst cx, y) else cx) df)
      by (unfold setitem; now rewrite He).
    rewrite E1, E2. unfold setitem.
    assert (He' : existsb (labelled l)
              (map (fun cx => if labelled l cx then (fst cx, x) else cx) df) = true).
    { apply existsb_exists. apply existsb_exists in He. destruct He as [cx [Hin H]].
      exists (fst cx, x). split.
      - apply in_map_iff. exists cx. now rewrite H.
      - apply labelled_true. simpl. now apply labelled_true in H. }
    rewrite He'. rewrite map_map. apply map_ext. intros cx.
    destruct (labelled l cx) eqn:E.
    + unfold labelled at 1. simpl. fold (labelled l cx). now rewrite E.
    + now rewrite E.
  - assert (E1 : setitem df l x = (df ++ [(l, x)])%list)
      by (unfold setitem; now rewrite He).
    assert (E2 : setitem df l y = (df ++ [(l, y)])%list)
      by (unfold setitem; now rewrite He).
    rewrite E1, E2. unfold setitem. rewrite existsb_app. simpl.
    unfold labelled at 2. simpl.
    rewrite String.eqb_refl, orb_true_r. rewrite map_app. simpl.
    unfold labelled at 2. simpl. rewrite String.eqb_refl.
    now rewrite setitem_absent_map.
Qed.

End Facts.
End DFFacts.

(** ** Renaming *)

Module RenameFacts.
Import DF DFFacts.
Section Facts.
Context {C : Type}.
Implicit Types (df : frame C) (l : string) (d : list (option string * string)).

Lemma dict_get_fold d acc c :
  let f := fun acc (kv : option string * string) =>
             match fst kv with
             | Some k => if (k =? c) then snd kv else acc
             | None => acc
             end in
  fold_left f d acc = acc \/ In (fold_left f d acc) (map snd d).
Proof.
  intros f. revert acc. induction d as [|kv d IH]; intros acc; [now left|].
  simpl. destruct (IH (f acc kv)) as [H|H]; [|right; now right].
  rewrite H. unfold f. destruct (fst kv) as [k|]; [|now left].
  destruct (k =? c); [right; now left | now left].
Qed.

(** A label is kept or takes a value of the dict. *)
Lemma dict_get_cases d c : dict_get d c = c \/ In (dict_get d c) (map snd d).
Proof. apply dict_get_fold. Qed.

Lemma dict_get_target d c l :
  ~ In l (map snd d) -> dict_get d c = l -> c = l /\ dict_get d l = l.
Proof.
  intros Hn H. destruct (dict_get_cases d c) as [E|E].
  - rewrite E in H. subst. auto.
  - rewrite H in E. contradiction.
Qed.

Lemma filter_rename d df l :
  ~ In l (map snd d) ->
  filter (labelled l) (rename d df) =
  if dict_get d l =? l then filter (labelled l) df else [].
Proof.
  intros Hn. induction df as [|[c x] df IH].
  - simpl. now destruct (dict_get d l =? l).
  - simpl. rewrite IH.
    change (labelled l (dict_get d c, x)) with (dict_get d c =? l).
    change (labelled l (c, x)) with (c =? l).
    destruct (String.eqb_spec (dict_get d c) l) as [E|E].
    + destruct (dict_get_target d c l Hn E) as [-> E2].
      rewrite E2, !String.eqb_refl. reflexivity.
    + destruct (String.eqb_spec (dict_get d l) l) as [E2|E2]; [|reflexivity].
      destruct (String.eqb_spec c l) as [->|]; [contradiction|reflexivity].
Qed.

Lemma getitem_rename d df l :
  ~ In l (map snd d) -> dict_get d l = l ->
  getitem (rename d df) l = getitem df l.
Proof.
  intros Hn E. unfold getitem. rewrite filter_rename by assumption.
  now rewrite E, String.eqb_refl.
Qed.

(** A label that is no value of the dict is borne after the renaming
    only by the columns that bore it before. *)
Lemma In_rename d df l :
  ~ In l (map snd d) -> In l (columns (rename d df)) ->
  dict_get d l = l /\ In l (columns df).
Proof.
  intros Hn H. rewrite columns_rename in H. apply in_map_iff in H.
  destruct H as [c [E Hin]]. destruct (dict_get_target d c l Hn E) as [-> E2].
  auto.
Qed.

Lemma nth_error_rename d df i :
  nth_error (rename d df) i =
  option_map (fun cx => (dict_get d (fst cx), snd cx)) (nth_error df i).
Proof. unfold rename. apply nth_error_map. Qed.

Lemma nth_error_setitem df l x i c y :
  nth_error df i = Some (c, y) -> c <> l ->
  nth_error (setitem df l x) i = Some (c, y).
Proof.
  intros H Hne. unfold setitem. destruct (existsb (labelled l) df).
  - rewrite nth_error_map, H. simpl.
    assert (F : labelled l (c, y) = false) by (now apply labelled_false).
    now rewrite F.
  - rewrite nth_error_app1; [assumption|].
    apply nth_error_Some. congruence.
Qed.

Lemma at_most_once_NoDup df l : NoDup (columns df) -> at_most_once df l.
Proof.
  intros Hnd. unfold at_most_once.
  destruct (in_dec string_dec l (columns df)) as [Hin|Hn].
  - destruct (getitem_NoDup df l Hnd Hin) as [x Hx].
    apply getitem_Ok in Hx. rewrite Hx. simpl. lia.
  - rewrite filter_absent by assumption. simpl. lia.
Qed.

Lemma at_most_once_rename d df l :
  ~ In l (map snd d) -> at_most_once df l -> at_most_once (rename d df) l.
Proof.
  unfold at_most_once. intros Hn H. rewrite filter_rename by assumption.
  destruct (dict_get d l =? l); simpl; lia.
Qed.

Lemma at_most_once_setitem df l l' x :
  at_most_once df l' -> at_most_once (setitem df l x) l'.
Proof.
  unfold at_most_once. intros H.
  destruct (String.eqb_spec l l') as [->|Hne].
  - destruct (existsb (labelled l') df) eqn:He.
    + rewrite filter_setitem_same by assumption. now rewrite length_map.
    + assert (Hx : getitem (setitem df l' x) l' = Ok x)
        by (now apply getitem_setitem_new).
      apply getitem_Ok in Hx. rewrite Hx. simpl. lia.
  - now rewrite filter_setitem_other.
Qed.

Lemma getitem_at_most_once df l :
  at_most_once df l -> In l (columns df) -> exists x, getitem df l = Ok x.
Proof.
  unfold at_most_once, getitem. intros H Hin.
  apply existsb_labelled in Hin. apply existsb_exists in Hin.
  destruct Hin as [cx [Hin Hl]].
  assert (Hf : In cx (filter (labelled l) df)) by (apply filter_In; auto).
  destruct (filter (labelled l) df) as [|c1 [|c2 t]]; simpl in *.
  - contradiction.
  - eauto.
  - lia.
Qed.

Lemma getitem_setitem_once df l x :
  at_most_once df l -> getitem (setitem df l x) l = Ok x.
Proof.
  intros H. destruct (existsb (labelled l) df) eqn:He.
  - apply existsb_labelled in He.
    destruct (getitem_at_most_once df l H He) as [y Hy].
    eapply getitem_setitem_same. exact Hy.
  - now apply getitem_setitem_new.
Qed.

End Facts.
End RenameFacts.

(** ** The type coercions *)

Lemma filter_as_ledger (df : frame column) l :
  filter (DF.labelled l) (as_ledger df) = as_ledger (filter (DF.labelled l) df).
Proof.
  unfold as_ledger. induction df as [|[c x] df IH]; [reflexivity|].
  cbn in *. destruct (c =? l); cbn; now rewrite IH.
Qed.

Lemma getitem_as_ledger (df : frame column) l :
  DF.getitem (as_ledger df) l =
  match DF.getitem df l with
  | Ok x => Ok (Plain x)
  | Raise e => Raise e
  end.
Proof.
  unfold DF.getitem. rewrite filter_as_ledger.
  now destruct (filter (DF.labelled l) df) as [|cx [|cy t]].
Qed.

Lemma columns_as_ledger (df : frame column) :
  DF.columns (as_ledger df) = DF.columns df.
Proof. unfold DF.columns, as_ledger. rewrite map_map. reflexivity. Qed.

Lemma fill0_idem a : fill0 (fill0 a) = fill0 a.
Proof. now destruct a. Qed.

Lemma fill0_not_nan a : fill0 a <> NaN.
Proof. now destruct a. Qed.

Lemma coerce_amount_filled a :
  exists xs, coerce_amount a = Float64 (map fill0 xs).
Proof.
  destruct a as [[vs|xs]|ts]; simpl; eexists; reflexivity.
Qed.

Section Coercions.
Variable conv : column -> option (list (option Z)).
Import DFFacts.

(** What a successful run of lines 94-98 has done. *)
Lemma ensure_types_Ok df L :
  ensure_types conv df = Ok L ->
  exists d ts a,
    DF.getitem df "Date" = Ok d /\
    to_datetime conv d = Ok (Datetime64 ts) /\
    DF.getitem (DF.setitem df "Date" (Datetime64 ts)) "Amount" = Ok a /\
    L = DF.setitem (DF.setitem df "Date" (Datetime64 ts)) "Amount"
          (Plain (coerce_amount a)).
Proof.
  unfold ensure_types. intros H.
  destruct (DF.getitem df "Date") as [d|e] eqn:Hd; [|discriminate]. simpl in H.
  destruct (to_datetime conv d) as [d'|e] eqn:Hc; [|discriminate]. simpl in H.
  assert (exists ts, d' = Datetime64 ts) as [ts ->].
  { unfold to_datetime in Hc. destruct d as [c|ts].
    - destruct (conv c); inversion Hc. eauto.
    - inversion Hc. eauto. }
  set (df1 := DF.setitem df "Date" (Datetime64 ts)) in *.
  destruct (DF.getitem df1 "Amount") as [a|e] eqn:Ha; [|discriminate]. simpl in H.
  exists d, ts, a. repeat split; try assumption.
  destruct a as [[vs|xs]|ts'].
  - simpl in H.
    rewrite (getitem_setitem_same _ _ _ _ Ha) in H. simpl in H.
    rewrite setitem_setitem in H. now inversion H.
  - simpl in H. rewrite Ha in H. simpl in H. now inversion H.
  - simpl in H. rewrite Ha in H. simpl in H. now inversion H.
Qed.

Lemma ensure_types_columns df L :
  ensure_types conv df = Ok L -> DF.columns L = DF.columns df.
Proof.
  intros H. destruct (ensure_types_Ok _ _ H) as (d & ts & a & Hd & _ & Ha & ->).
  rewrite columns_setitem.
  apply getitem_In, existsb_labelled in Ha. rewrite Ha.
  rewrite columns_setitem.
  apply getitem_In, existsb_labelled in Hd. now rewrite Hd.
Qed.

Lemma ensure_types_amount df L :
  ensure_types conv df = Ok L ->
  exists a, DF.getitem df "Amount" = Ok a /\
            DF.getitem L "Amount" = Ok (Plain (coerce_amount a)).
Proof.
  intros H. destruct (ensure_types_Ok _ _ H) as (d & ts & a & Hd & _ & Ha & ->).
  exists a. split.
  - rewrite getitem_setitem_other in Ha by discriminate. exact Ha.
  - eapply getitem_setitem_same. exact Ha.
Qed.

Lemma ensure_types_fixed df L :
  ensure_types conv df = Ok L -> ensure_types conv L = Ok L.
Proof.
  intros H. destruct (ensure_types_Ok _ _ H) as (d & ts & a & Hd & _ & Ha & HL).
  set (df1 := DF.setitem df "Date" (Datetime64 ts)) in *.
  assert (HLd : DF.getitem L "Date" = Ok (Datetime64 ts)).
  { rewrite HL. rewrite getitem_setitem_other by discriminate.
    eapply getitem_setitem_same. exact Hd. }
  assert (HLa : DF.getitem L "Amount" = Ok (Plain (coerce_amount a))).
  { rewrite HL. eapply getitem_setitem_same. exact Ha. }
  destruct (coerce_amount_filled a) as [xs Hxs]. rewrite Hxs in HLa.
  unfold ensure_types. rewrite HLd. simpl.
  rewrite (setitem_same _ _ _ HLd). rewrite HLa. simpl. rewrite HLa. simpl.
  rewrite map_map.
  rewrite (map_ext _ fill0 (fun x => fill0_idem x)).
  now rewrite (setitem_same _ _ _ HLa).
Qed.

End Coercions.

(** ** The stages of [load_data] *)

Module LoadFacts.
Import DF DFFacts RenameFacts.

Lemma rename_basics_Ok df df1 :
  rename_basics df = Ok df1 ->
  exists c0, nth_error (columns df) 0 = Some c0 /\
             df1 = rename (basics (columns df) c0) df.
Proof.
  unfold rename_basics, column_at.
  destruct (nth_error (columns df) 0) as [c0|]; simpl; [|discriminate].
  intros [= <-]. eauto.
Qed.

Lemma rename_basics_nonempty (df : frame column) :
  df <> [] ->
  exists c0, nth_error (columns df) 0 = Some c0 /\
             rename_basics df = Ok (rename (basics (columns df) c0) df).
Proof.
  destruct df as [|[c x] df]; [congruence|]. intros _. exists c.
  split; reflexivity.
Qed.

Lemma rename_basics_empty (df : frame column) :
  columns df = [] -> rename_basics df = Raise IndexError.
Proof. destruct df; [reflexivity|discriminate]. Qed.

(** *** The tests on labels *)

Lemma amount_like_cases a :
  amount_like a = true ->
  Py.lower a = "amount" \/ Py.lower a = "debit" \/
  Py.lower a = "withdraw" \/ Py.lower a = "payment".
Proof.
  unfold amount_like. simpl. rewrite !orb_true_iff, !String.eqb_eq.
  intuition discriminate.
Qed.

Lemma amount_not_receive a : amount_like a = true -> receive_like a = false.
Proof.
  intros H. unfold receive_like.
  destruct (amount_like_cases a H) as [E|[E|[E|E]]]; now rewrite E.
Qed.

Lemma amount_not_cat a : amount_like a = true -> cat_like a = false.
Proof.
  intros H. unfold cat_like.
  destruct (amount_like_cases a H) as [E|[E|[E|E]]]; now rewrite E.
Qed.

Lemma find_In (p : string -> bool) cols c :
  find p cols = Some c -> In c cols /\ p c = true.
Proof. apply find_some. Qed.

Lemma basics_values cols c0 : map snd (basics cols c0) = ["Date"; "Description"].
Proof. reflexivity. Qed.

(** A label that passes [p] is none of the canonical labels when [p]
    rejects them. *)
Lemma not_value (p : string -> bool) (vals : list string) l :
  forallb (fun v => negb (p v)) vals = true -> p l = true -> ~ In l vals.
Proof.
  intros Hv Hp Hin. rewrite forallb_forall in Hv.
  specialize (Hv l Hin). rewrite Hp in Hv. discriminate.
Qed.

(** *** The amount *)

Lemma normalize_cells x :
  normalize x = Float64 (map normalize_cell (cells_of x)).
Proof.
  unfold normalize, clean, to_numeric, fillna0. rewrite !map_map. reflexivity.
Qed.

Lemma resolve_amount_dual df r a x y :
  find_receive (columns df) = Some r -> find_amount (columns df) = Some a ->
  getitem df r = Ok x -> getitem df a = Ok y ->
  resolve_amount df =
  Ok (setitem (setitem (setitem df r (normalize x)) a (normalize y))
        "Amount" (netted x y)).
Proof.
  intros Hr Ha Hx Hy. unfold resolve_amount. rewrite Hr, Ha, Hx.
  rewrite !normalize_cells. cbn [bind].
  assert (Hne : r <> a).
  { intros ->. apply find_In in Hr, Ha. destruct Hr as [_ Hr], Ha as [_ Ha].
    rewrite (amount_not_receive a Ha) in Hr. discriminate. }
  rewrite (getitem_setitem_other df r a _ Hne), Hy. cbn [bind].
  rewrite (getitem_setitem_other _ a r _ (not_eq_sym Hne)).
  rewrite (getitem_setitem_same df r _ x Hx). cbn [bind].
  erewrite getitem_setitem_same
    by (rewrite (getitem_setitem_other df r a _ Hne); exact Hy).
  cbn [bind]. rewrite !normalize_cells. reflexivity.
Qed.

Lemma resolve_amount_single df :
  find_receive (columns df) = None \/ find_amount (columns df) = None ->
  resolve_amount df = Ok (rename [(target_amt df, "Amount")] df).
Proof.
  unfold resolve_amount. intros [H|H]; rewrite H; [reflexivity|].
  now destruct (find_receive (columns df)).
Qed.

(** What a successful amount stage has done. *)
Lemma resolve_amount_Ok df df2 :
  resolve_amount df = Ok df2 ->
  (exists r a x y,
      find_receive (columns df) = Some r /\ find_amount (columns df) = Some a /\
      getitem df r = Ok x /\ getitem df a = Ok y /\
      df2 = setitem (setitem (setitem df r (normalize x)) a (normalize y))
              "Amount" (netted x y))
  \/ ((find_receive (columns df) = None \/ find_amount (columns df) = None) /\
      df2 = rename [(target_amt df, "Amount")] df).
Proof.
  intros H.
  destruct (find_receive (columns df)) as [r|] eqn:Hr;
    [destruct (find_amount (columns df)) as [a|] eqn:Ha|].
  - left. exists r, a.
    destruct (getitem df r) as [x|e] eqn:Hx;
      [|unfold resolve_amount in H; rewrite Hr, Ha, Hx in H; discriminate].
    destruct (getitem df a) as [y|e] eqn:Hy.
    + exists x, y. rewrite (resolve_amount_dual df r a x y Hr Ha Hx Hy) in H.
      inversion H. auto.
    + exfalso. unfold resolve_amount in H. rewrite Hr, Ha, Hx in H. cbn [bind] in H.
      assert (Hne : r <> a).
      { intros ->. apply find_In in Hr, Ha. destruct Hr as [_ Hr'], Ha as [_ Ha'].
        rewrite (amount_not_receive a Ha') in Hr'. discriminate. }
      rewrite (getitem_setitem_other df r a _ Hne), Hy in H. discriminate.
  - right. rewrite resolve_amount_single in H by (now right).
    inversion H. auto.
  - right. rewrite resolve_amount_single in H by (now left).
    inversion H. auto.
Qed.

(** With labels borne once the amount stage returns. *)
Lemma resolve_amount_total df :
  (forall l, receive_like l = true \/ amount_like l = true -> at_most_once df l) ->
  exists df2, resolve_amount df = Ok df2.
Proof.
  intros Hu.
  destruct (find_receive (columns df)) as [r|] eqn:Hr;
    [destruct (find_amount (columns df)) as [a|] eqn:Ha|].
  - pose proof (find_In _ _ _ Hr) as [Hir Hpr].
    pose proof (find_In _ _ _ Ha) as [Hia Hpa].
    destruct (getitem_at_most_once df r (Hu r (or_introl Hpr)) Hir) as [x Hx].
    destruct (getitem_at_most_once df a (Hu a (or_intror Hpa)) Hia) as [y Hy].
    eexists. now apply (resolve_amount_dual df r a x y).
  - eexists. apply resolve_amount_single. now right.
  - eexists. apply resolve_amount_single. now left.
Qed.

(** Distinct labels of the raw table stay borne at most once by the
    labels the first stage does not hand out. *)
Lemma basics_at_most_once (df : frame column) c0 l :
  NoDup (columns df) -> l <> "Date" -> l <> "Description" ->
  at_most_once (rename (basics (columns df) c0) df) l.
Proof.
  intros Hnd H1 H2. apply at_most_once_rename.
  - rewrite basics_values. simpl. intuition congruence.
  - now apply at_most_once_NoDup.
Qed.

Lemma stages_return (df : frame column) :
  NoDup (columns df) -> df <> [] ->
  exists df1 df2, rename_basics df = Ok df1 /\ resolve_amount df1 = Ok df2.
Proof.
  intros Hnd Hne. destruct (rename_basics_nonempty df Hne) as [c0 [_ H1]].
  destruct (resolve_amount_total (rename (basics (columns df) c0) df)) as [df2 H2].
  - intros l Hl. apply basics_at_most_once; try assumption.
    + intros ->. destruct Hl; discriminate.
    + intros ->. destruct Hl; discriminate.
  - eauto.
Qed.



Lemma find_all_false {A} (p : A -> bool) l :
  (forall c, In c l -> p c = false) -> find p l = None.
Proof.
  induction l as [|c l IH]; intros H; [reflexivity|]. simpl.
  rewrite (H c (or_introl eq_refl)). apply IH. intros c' Hc. apply H. now right.
Qed.

(** The labels of the frame after the amount stage. *)
Lemma resolve_amount_labels df df2 l :
  resolve_amount df = Ok df2 -> In l (columns df2) ->
  In l (columns df) \/ l = "Amount".
Proof.
  intros H Hin. destruct (resolve_amount_Ok df df2 H)
    as [(r & a & x & y & Hr & Ha & Hx & Hy & ->)|[_ ->]].
  - rewrite columns_setitem in Hin.
    assert (Hc : columns (setitem (setitem df r (normalize x)) a (normalize y))
                 = columns df).
    { rewrite columns_setitem.
      assert (E : existsb (labelled a) (setitem df r (normalize x)) = true).
      { apply existsb_labelled. eapply getitem_In.
        rewrite getitem_setitem_other; [exact Hy|].
        intros ->. apply find_In in Hr, Ha. destruct Hr as [_ Hr], Ha as [_ Ha].
        rewrite (amount_not_receive a Ha) in Hr. discriminate. }
      rewrite E. rewrite columns_setitem.
      apply getitem_In, existsb_labelled in Hx. now rewrite Hx. }
    rewrite Hc in Hin.
    destruct (existsb _ _); [now left|].
    apply in_app_or in Hin. destruct Hin as [Hin|[<-|[]]]; auto.
  - rewrite columns_rename in Hin. apply in_map_iff in Hin.
    destruct Hin as [c [E Hc]].
    destruct (dict_get_cases [(target_amt df, "Amount")] c) as [E2|[E2|[]]].
    + left. rewrite <- E, E2. exact Hc.
    + right. rewrite <- E. now rewrite <- E2.
Qed.

Lemma basics_labels (df : frame column) c0 l :
  In l (columns (rename (basics (columns df) c0) df)) ->
  In l (columns df) \/ l = "Date" \/ l = "Description".
Proof.
  rewrite columns_rename. intros Hin. apply in_map_iff in Hin.
  destruct Hin as [c [E Hc]].
  destruct (dict_get_cases (basics (columns df) c0) c) as [E2|[E2|[E2|[]]]].
  - left. rewrite <- E, E2. exact Hc.
  - right. left. rewrite <- E. now rewrite <- E2.
  - right. right. rewrite <- E. now rewrite <- E2.
Qed.

Lemma basics_labels_nodesc (df : frame column) c0 l :
  find_desc (columns df) = None ->
  In l (columns (rename (basics (columns df) c0) df)) ->
  In l (columns df) \/ l = "Date".
Proof.
  intros Hd. rewrite columns_rename. intros Hin. apply in_map_iff in Hin.
  destruct Hin as [c [E Hc]]. unfold basics in E. rewrite Hd in E.
  unfold dict_get in E. simpl in E.
  destruct (find_date (columns df) c0 =? c).
  - right. now rewrite <- E.
  - left. rewrite <- E. exact Hc.
Qed.

Lemma find_desc_none cols c :
  find_desc cols = None -> In c cols -> desc_like c = false.
Proof.
  unfold find_desc, Py.next. intros H Hin.
  destruct (find desc_like cols) eqn:E; [discriminate|].
  now apply (find_none _ _ E).
Qed.

Lemma load_frame_stages df df1 df2 :
  rename_basics df = Ok df1 -> resolve_amount df1 = Ok df2 ->
  load_frame df = resolve_category df2.
Proof.
  intros H1 H2. unfold load_frame. rewrite H1. cbn [bind]. now rewrite H2.
Qed.

Lemma load_frame_Ok df out :
  load_frame df = Ok out ->
  exists df1 df2, rename_basics df = Ok df1 /\ resolve_amount df1 = Ok df2 /\
                  resolve_category df2 = Ok out.
Proof.
  unfold load_frame. intros H.
  destruct (rename_basics df) as [df1|] eqn:H1; [|discriminate].
  cbn [bind] in H.
  destruct (resolve_amount df1) as [df2|] eqn:H2; [|discriminate].
  cbn [bind] in H. eauto.
Qed.

(** What a successful category stage has done. *)
Lemma resolve_category_Ok df out :
  resolve_category df = Ok out ->
  (exists c, find_cat (columns df) = Some c /\
             out = rename [(Some c, "Category")] df)
  \/ (exists d, find_cat (columns df) = None /\
                getitem df "Description" = Ok d /\
                out = setitem df "Category" (apply_categorize d)).
Proof.
  unfold resolve_category. intros H.
  destruct (find_cat (columns df)) as [c|] eqn:Hc.
  - left. exists c. inversion H. auto.
  - right. destruct (getitem df "Description") as [d|] eqn:Hd; [|discriminate].
    exists d. inversion H. auto.
Qed.

Lemma cat_rename_keeps (df : frame column) c l :
  cat_like c = true -> cat_like l = false -> l <> "Category" ->
  getitem (rename [(Some c, "Category")] df) l = getitem df l.
Proof.
  intros Hc Hl Hne. apply getitem_rename.
  - simpl. intuition congruence.
  - unfold dict_get. simpl. destruct (String.eqb_spec c l); [congruence|reflexivity].
Qed.

(** The category stage leaves the column [Amount] as it is. *)
Lemma resolve_category_amount df out :
  resolve_category df = Ok out -> getitem out "Amount" = getitem df "Amount".
Proof.
  intros H. destruct (resolve_category_Ok df out H)
    as [(c & Hc & ->)|(d & Hc & Hd & ->)].
  - apply find_In in Hc. destruct Hc as [_ Hc].
    apply cat_rename_keeps; [assumption|reflexivity|discriminate].
  - apply getitem_setitem_other. discriminate.
Qed.

Lemma resolve_category_date df out :
  resolve_category df = Ok out -> getitem out "Date" = getitem df "Date".
Proof.
  intros H. destruct (resolve_category_Ok df out H)
    as [(c & Hc & ->)|(d & Hc & Hd & ->)].
  - apply find_In in Hc. destruct Hc as [_ Hc].
    apply cat_rename_keeps; [assumption|reflexivity|discriminate].
  - apply getitem_setitem_other. discriminate.
Qed.

Lemma resolve_category_has_category df out :
  resolve_category df = Ok out -> In "Category" (columns out).
Proof.
  intros H. destruct (resolve_category_Ok df out H)
    as [(c & Hc & ->)|(d & Hc & Hd & ->)].
  - apply find_In in Hc. destruct Hc as [Hin _].
    rewrite columns_rename. apply in_map_iff. exists c. split; [|assumption].
    unfold dict_get. simpl. now rewrite String.eqb_refl.
  - rewrite columns_setitem. destruct (existsb _ _) eqn:E.
    + now apply existsb_labelled.
    + apply in_or_app. right. now left.
Qed.

End LoadFacts.

(** * The statements of the specification *)

Import DF DFFacts RenameFacts LoadFacts Tables.

Lemma pipeline_Ok conv up loc L :
  pipeline conv up loc = Ok L ->
  exists out, load_data up loc = Ok out /\
              ensure_types conv (as_ledger out) = Ok L.
Proof.
  unfold pipeline. destruct (load_data up loc) as [out|]; [|discriminate].
  cbn [bind]. eauto.
Qed.

(** A raw label that passes the credit or the debit test is selected
    after the first stage as it is in the raw table. *)
Lemma basics_getitem (df : frame column) c0 l :
  In l (columns (rename (basics (columns df) c0) df)) ->
  l <> "Date" -> l <> "Description" ->
  getitem (rename (basics (columns df) c0) df) l = getitem df l /\
  In l (columns df).
Proof.
  intros Hin H1 H2.
  assert (Hn : ~ In l (map snd (basics (columns df) c0))).
  { rewrite basics_values. simpl. intuition congruence. }
  destruct (In_rename _ _ _ Hn Hin) as [E Hin'].
  split; [now apply getitem_rename | assumption].
Qed.

(** *** The normalizer of the specification *)

Module NormFacts.
Import Norm.

Lemma prefix_cons p pat c r :
  String.prefix (String p pat) (String c r)
  = Ascii.eqb c p && String.prefix pat r.
Proof.
  cbn [String.prefix]. destruct (ascii_dec p c) as [->|Hne].
  - now rewrite Ascii.eqb_refl.
  - destruct (Ascii.eqb_spec c p) as [->|_]; [contradiction|reflexivity].
Qed.

Lemma prefix_empty s : String.prefix EmptyString s = true.
Proof. now destruct s. Qed.

Lemma remove_char p s : Py.remove (String p EmptyString) s = drop_char p s.
Proof.
  unfold Py.remove. induction s as [|c r IH]; [reflexivity|].
  cbn [Py.remove_from drop_char String.length Nat.sub].
  rewrite prefix_cons, prefix_empty, andb_true_r.
  destruct (Ascii.eqb c p); now rewrite IH.
Qed.

Lemma remove_kr_step c s :
  Py.remove_from "kr" 0 (String c s)
  = if String.prefix "kr" (String c s) then Py.remove_from "kr" 1 s
    else String c (Py.remove_from "kr" 0 s).
Proof. reflexivity. Qed.

Lemma drop_kr_step c d r :
  drop_kr (String c (String d r))
  = if Ascii.eqb c "k" && Ascii.eqb d "r" then drop_kr r
    else String c (drop_kr (String d r)).
Proof. reflexivity. Qed.

Lemma remove_kr_both s :
  Py.remove_from "kr" 0 s = drop_kr s /\
  forall c, Py.remove_from "kr" 0 (String c s) = drop_kr (String c s).
Proof.
  induction s as [|d r [IH1 IH2]].
  - split; [reflexivity|]. intros c. rewrite remove_kr_step, prefix_cons.
    cbn [String.prefix]. now rewrite andb_false_r.
  - split; [apply IH2|]. intros c.
    rewrite remove_kr_step, drop_kr_step, !prefix_cons, prefix_empty,
      andb_true_r.
    destruct (Ascii.eqb c "k" && Ascii.eqb d "r").
    + exact IH1.
    + now rewrite IH2.
Qed.

Lemma remove_kr s : Py.remove "kr" s = drop_kr s.
Proof. apply remove_kr_both. Qed.

(** The cleaning of the source is the stripping of the
    specification. *)
Lemma clean_text_cleaned s : clean_text s = cleaned s.
Proof.
  unfold clean_text, cleaned.
  now rewrite !remove_char, remove_kr.
Qed.

Lemma no_digit_span s : no_digit s = true -> fst (F.span_digits s) = EmptyString.
Proof.
  destruct s as [|c r]; [reflexivity|]. cbn [no_digit F.span_digits].
  intros H. apply andb_prop in H. destruct H as [H _].
  apply negb_true_iff in H. now rewrite H.
Qed.

Lemma no_digit_lstrip s : no_digit s = true -> no_digit (F.lstrip s) = true.
Proof.
  induction s as [|c r IH]; [reflexivity|]. intros H. cbn [F.lstrip].
  destruct (F.is_space c); [|exact H].
  apply IH. cbn [no_digit] in H. apply andb_prop in H. apply H.
Qed.

Lemma no_digit_tail c r : no_digit (String c r) = true -> no_digit r = true.
Proof. cbn [no_digit]. intros H. apply andb_prop in H. apply H. Qed.

Lemma no_digit_parse t : no_digit t = true -> F.parse_decimal t = None.
Proof.
  intros H. unfold F.parse_decimal.
  pose proof (no_digit_lstrip t H) as H1.
  assert (H2 : no_digit (snd (F.parse_sign (F.lstrip t))) = true).
  { unfold F.parse_sign. destruct (F.lstrip t) as [|c r]; [reflexivity|].
    destruct (Ascii.eqb c "-"); [now apply no_digit_tail with c|].
    destruct (Ascii.eqb c "+"); [now apply no_digit_tail with c|exact H1]. }
  destruct (F.parse_sign (F.lstrip t)) as [neg s1]. cbn [snd] in H2.
  pose proof (no_digit_span s1 H2) as E1.
  assert (E2 : snd (F.span_digits s1) = s1).
  { destruct s1 as [|c r]; [reflexivity|]. cbn [no_digit] in H2.
    apply andb_prop in H2. destruct H2 as [Hc _]. apply negb_true_iff in Hc.
    cbn [F.span_digits]. now rewrite Hc. }
  destruct (F.span_digits s1) as [ip s2]. cbn [fst snd] in E1, E2. subst ip s2.
  assert (E3 : fst (match s1 with
                    | String c r =>
                        if Ascii.eqb c "." then F.span_digits r
                        else (EmptyString, s1)
                    | EmptyString => (EmptyString, s1)
                    end) = EmptyString).
  { destruct s1 as [|c r]; [reflexivity|].
    destruct (Ascii.eqb c "."); [|reflexivity].
    apply no_digit_span. now apply no_digit_tail with c. }
  destruct (match s1 with
            | String c r =>
                if Ascii.eqb c "." then F.span_digits r else (EmptyString, s1)
            | EmptyString => (EmptyString, s1)
            end) as [fp s3].
  cbn [fst] in E3. subst fp. reflexivity.
Qed.

Lemma names_infinity_special t :
  names_infinity t = false -> F.parse_special t = NaN.
Proof.
  unfold names_infinity, F.parse_special. cbn [existsb].
  rewrite !(String.eqb_sym (Py.lower t)).
  intros H. repeat (apply orb_false_elim in H; destruct H as [?H H]).
  rewrite H0, H1, H2, H3, H4, H5. reflexivity.
Qed.

Lemma unreadable_of_text t : unreadable t = true -> F.of_text t = NaN.
Proof.
  unfold unreadable. intros H. apply andb_prop in H. destruct H as [H1 H2].
  apply negb_true_iff in H2. unfold F.of_text.
  rewrite (no_digit_parse t H1). now apply names_infinity_special.
Qed.

Lemma all_digits_no_digit s :
  Spec.all_digits s = true -> no_digit s = true -> s = EmptyString.
Proof.
  destruct s as [|c r]; [reflexivity|]. cbn [Spec.all_digits no_digit].
  intros H1 H2. apply andb_prop in H1, H2. destruct H1 as [H1 _], H2 as [H2 _].
  rewrite H1 in H2. discriminate.
Qed.

(** On the cells of the domain the normalizer of the source returns
    what the specification says. *)
Lemma normalize_agreed v : agreed v = true -> normalize_cell v = amount v.
Proof.
  destruct v as [s|x]; cbn [agreed amount].
  - unfold normalize_cell. cbn [py_str]. rewrite clean_text_cleaned.
    set (t := cleaned s). intros H.
    destruct (Spec.plain_numeral t) eqn:Hp.
    + rewrite (FFacts.of_text_plain t Hp). unfold Spec.numeral_value.
      now destruct (Spec.numeral_parts t) as [[neg ip] fp].
    + cbn [andb orb] in H. now rewrite (unreadable_of_text t H).
  - intros _. unfold normalize_cell. cbn [py_str].
    rewrite FFacts.of_text_clean_text. now destruct x.
Qed.

(** ** Values *)

Lemma pow10_positive k : (0 < F.pow10 k)%Z.
Proof. unfold F.pow10. apply Z.pow_pos_nonneg; lia. Qed.

Lemma pow10_split k1 k2 :
  F.pow10 (Nat.max k1 k2) = (F.pow10 (Nat.max k1 k2 - k1) * F.pow10 k1)%Z /\
  F.pow10 (Nat.max k1 k2) = (F.pow10 (Nat.max k1 k2 - k2) * F.pow10 k2)%Z.
Proof.
  unfold F.pow10. rewrite <- !Z.pow_add_r by lia. split; f_equal; lia.
Qed.

Lemma den_pow10_id k : Z.pos (Z.to_pos (F.pow10 k)) = F.pow10 k.
Proof. apply Z2Pos.id, pow10_positive. Qed.

Lemma value_sub m1 k1 m2 k2 :
  (Exact.value (F.sub (Fin m1 k1) (Fin m2 k2))
   == Exact.value (Fin m1 k1) - Exact.value (Fin m2 k2))%Q.
Proof.
  unfold F.sub, Exact.value, Qeq, Qminus, Qplus, Qopp. cbn [Qnum Qden].
  rewrite Pos2Z.inj_mul, !den_pow10_id.
  destruct (pow10_split k1 k2) as [E1 E2].
  set (p := F.pow10 (Nat.max k1 k2)) in *.
  set (a := F.pow10 (Nat.max k1 k2 - k1)) in *.
  set (b := F.pow10 (Nat.max k1 k2 - k2)) in *.
  transitivity ((m1 * a * F.pow10 k1) * F.pow10 k2
                - (m2 * b * F.pow10 k2) * F.pow10 k1)%Z; [ring|].
  replace (m1 * a * F.pow10 k1)%Z with (m1 * p)%Z by (rewrite E1; ring).
  replace (m2 * b * F.pow10 k2)%Z with (m2 * p)%Z by (rewrite E2; ring).
  ring.
Qed.

End NormFacts.

Import NormFacts Cases.

Lemma nth_error_zip_sub xs : forall ys i a b,
  nth_error xs i = Some a -> nth_error ys i = Some b ->
  nth_error (zip_sub xs ys) i = Some (F.sub a b).
Proof.
  induction xs as [|x xs IH]; intros [|y ys] [|i] a b Ha Hb;
    try discriminate; cbn in *.
  - now inversion Ha; inversion Hb.
  - now apply IH.
Qed.

Lemma length_zip_sub xs : forall ys,
  List.length (zip_sub xs ys) = Nat.min (List.length xs) (List.length ys).
Proof.
  induction xs as [|x xs IH]; intros [|y ys]; cbn; auto.
Qed.

Lemma exact_finite w : Exact.exact w = true -> exists m k, w = Fin m k.
Proof. destruct w; try discriminate. eauto. Qed.

Lemma netted_nets x y amt :
  netted x y = Float64 amt -> nets x y amt /\ nets x y (map fill0 amt).
Proof.
  unfold netted. intros E. inversion E; subst amt; clear E.
  assert (H : nets x y (zip_sub (map normalize_cell (cells_of x))
                                (map normalize_cell (cells_of y)))).
  { intros i c d w Hc Hd Ac Ad Ec Ed Ew Hv.
    exists (F.sub (Norm.amount c) (Norm.amount d)).
    destruct (exact_finite _ Ec) as (m1 & k1 & E1).
    destruct (exact_finite _ Ed) as (m2 & k2 & E2).
    split; [|split].
    - apply nth_error_zip_sub; rewrite nth_error_map.
      + rewrite Hc. cbn [option_map]. now rewrite normalize_agreed.
      + rewrite Hd. cbn [option_map]. now rewrite normalize_agreed.
    - now rewrite E1, E2.
    - rewrite Hv, E1, E2. apply value_sub. }
  split; [exact H|].
  intros i c d w Hc Hd Ac Ad Ec Ed Ew Hv.
  destruct (H i c d w Hc Hd Ac Ad Ec Ed Ew Hv) as (z & Hz & Fz & Vz).
  exists z. split; [|now split].
  rewrite nth_error_map, Hz. cbn [option_map]. f_equal.
  now destruct z.
Qed.




(** ** Failures *)

(** C1 (counterexample).  A table with the two columns [Date] and
    [Amount] has no description role; [load_data] does not go on with
    an empty text but raises [KeyError] on [df['Description']]. *)
Lemma absent_description_raises :
  find_desc (columns two_column_table) = None /\
  load_data (Some two_column_table) None = Raise (KeyError "Description").
Proof. split; reflexivity. Qed.

Lemma getitem_absent {C} (df : frame C) l :
  ~ In l (columns df) -> getitem df l = Raise (KeyError l).
Proof. intros H. unfold getitem. now rewrite filter_absent. Qed.

(** C1 (amended).  [load_data] raises [IndexError] on a table without
    columns and [KeyError] on a table with distinct labels that has no
    description role and no label containing "cat"; a [Date] column
    that [pd.to_datetime] rejects ends the whole run.  On a table with
    distinct labels and one column at least the first two stages
    return, and [load_data] returns when a label containing "cat" is
    left or one column is labelled [Description]. *)
Theorem load_data_failures (conv : column -> option (list (option Z)))
    (df : frame column) (loc : option (frame column)) :
  (columns df = [] -> load_data (Some df) loc = Raise IndexError) /\
  (NoDup (columns df) -> df <> [] -> find_desc (columns df) = None ->
   (forall c, In c (columns df) -> cat_like c = false) ->
   load_data (Some df) loc = Raise (KeyError "Description")) /\
  (forall out d, load_data (Some df) loc = Ok out ->
     getitem out "Date" = Ok d -> conv d = None ->
     pipeline conv (Some df) loc = Raise DateError) /\
  (NoDup (columns df) -> df <> [] ->
   exists df1 df2,
     rename_basics df = Ok df1 /\ resolve_amount df1 = Ok df2 /\
     load_data (Some df) loc = resolve_category df2 /\
     (forall c, find_cat (columns df2) = Some c ->
        load_data (Some df) loc = Ok (rename [(Some c, "Category")] df2)) /\
     (forall d, find_cat (columns df2) = None ->
        getitem df2 "Description" = Ok d ->
        load_data (Some df) loc
        = Ok (setitem df2 "Category" (apply_categorize d)))).
Proof.
  change (load_data (Some df) loc) with (load_frame df).
  assert (HD : NoDup (columns df) -> df <> [] ->
    exists df1 df2,
      rename_basics df = Ok df1 /\ resolve_amount df1 = Ok df2 /\
      load_frame df = resolve_category df2).
  { intros Hnd Hne. destruct (stages_return df Hnd Hne) as (df1 & df2 & H1 & H2).
    exists df1, df2. repeat split; try assumption.
    now apply load_frame_stages with df1. }
  repeat split.
  - intros H. unfold load_frame. now rewrite rename_basics_empty.
  - intros Hnd Hne Hd Hcat.
    destruct (HD Hnd Hne) as (df1 & df2 & H1 & H2 & ->).
    destruct (rename_basics_Ok df df1 H1) as [c0 [_ ->]].
    assert (Hlab : forall l, In l (columns df2) ->
                             In l (columns df) \/ l = "Date" \/ l = "Amount").
    { intros l Hl. destruct (resolve_amount_labels _ _ l H2 Hl) as [Hl1|Hl1]; [|auto].
      destruct (basics_labels_nodesc df c0 l Hd Hl1); auto. }
    unfold resolve_category, find_cat. rewrite find_all_false.
    + rewrite getitem_absent; [reflexivity|].
      intros Hin. destruct (Hlab _ Hin) as [Hl|[Hl|Hl]]; try discriminate.
      pose proof (find_desc_none _ _ Hd Hl). discriminate.
    + intros c Hc. destruct (Hlab _ Hc) as [Hl|[Hl|Hl]]; subst; auto.
  - intros out d Ho Hd Hc. unfold pipeline.
    change (load_data (Some df) loc) with (load_frame df). rewrite Ho.
    cbn [bind]. unfold ensure_types. rewrite getitem_as_ledger, Hd.
    cbn [bind to_datetime]. now rewrite Hc.
  - intros Hnd Hne. destruct (HD Hnd Hne) as (df1 & df2 & H1 & H2 & H3).
    exists df1, df2. repeat split; try assumption.
    + intros c Hc. rewrite H3. unfold resolve_category. now rewrite Hc.
    + intros d Hc Hd. rewrite H3. unfold resolve_category. now rewrite Hc, Hd.
Qed.

(** C1 on the empty table, on a table without description and on one with a date that does not read. *)
Lemma load_data_failures_witness :
  load_data (Some []) None = Raise IndexError /\
  load_data (Some two_column_table) None = Raise (KeyError "Description") /\
  pipeline Iso.to_datetime (Some undated_table) None = Raise DateError /\
  load_data (Some undated_table) None
  = Ok (setitem undated_table "Category"
          (apply_categorize (Object [Str "Kiwi 223"; Str "Ruter"]))).
Proof.
  split; [|split; [|split]].
  - apply (proj1 (load_data_failures Iso.to_datetime [] None)). reflexivity.
  - apply (proj1 (proj2 (load_data_failures Iso.to_datetime two_column_table None))).
    + repeat constructor; simpl; intuition discriminate.
    + discriminate.
    + reflexivity.
    + intros c [<-|[<-|[]]]; reflexivity.
  - apply (proj1 (proj2 (proj2 (load_data_failures Iso.to_datetime undated_table None)))
             (setitem undated_table "Category"
                (apply_categorize (Object [Str "Kiwi 223"; Str "Ruter"])))
             (Object [Str "2023-12-01"; Str "tomorrow"])); reflexivity.
  - destruct (proj2 (proj2 (proj2 (load_data_failures Iso.to_datetime undated_table None))))
      as (df1 & df2 & H1 & H2 & _ & _ & H5).
    + repeat constructor; simpl; intuition discriminate.
    + discriminate.
    + inversion H1; subst df1. inversion H2; subst df2.
      apply H5; reflexivity.
Defined.

(** ** The ledger *)

Lemma length_columns {C} (df : frame C) : List.length (columns df) = List.length df.
Proof. apply length_map. Qed.

(** C6 (counterexample).  The sample ledger has its four columns in the
    order Date, Description, Category, Amount, and a table with a
    further column keeps it: five columns reach the presentation
    layer. *)
Lemma ledger_columns_differ :
  load_data None None = Ok sample_data /\
  columns sample_data = ["Date"; "Description"; "Category"; "Amount"] /\
  (exists L, pipeline Iso.to_datetime None None = Ok L /\
             columns L = ["Date"; "Description"; "Category"; "Amount"]) /\
  (exists out, load_data (Some balance_table) None = Ok out /\
               columns out
               = ["Date"; "Description"; "Amount"; "Balance"; "Category"]) /\
  (exists L, pipeline Iso.to_datetime (Some balance_table) None = Ok L /\
             columns L = ["Date"; "Description"; "Amount"; "Balance"; "Category"]).
Proof.
  split; [reflexivity|]. split; [reflexivity|].
  repeat split; eexists; split; reflexivity.
Qed.

Module LedgerFacts.

Lemma setitem_fresh {C} (df : frame C) l x :
  ~ In l (columns df) -> setitem df l x = (df ++ [(l, x)])%list.
Proof.
  intros H. unfold setitem.
  destruct (existsb (labelled l) df) eqn:E; [|reflexivity].
  apply existsb_labelled in E. contradiction.
Qed.

Lemma basics_cases cols c0 c :
  dict_get (basics cols c0) c = c \/ dict_get (basics cols c0) c = "Date" \/
  dict_get (basics cols c0) c = "Description".
Proof.
  destruct (dict_get_cases (basics cols c0) c) as [H|H]; [now left|].
  rewrite basics_values in H. simpl in H. intuition.
Qed.

(** A label that is neither credit-like nor amount-like is, after the
    first stage, none of the labels the dual-column path writes to. *)
Lemma basics_untouched cols c0 c r a :
  receive_like c = false -> amount_like c = false ->
  receive_like r = true -> amount_like a = true ->
  dict_get (basics cols c0) c <> r /\ dict_get (basics cols c0) c <> a /\
  dict_get (basics cols c0) c <> "Amount".
Proof.
  intros Hr Ha Pr Pa.
  destruct (basics_cases cols c0 c) as [E|[E|E]]; rewrite E;
    repeat split; intros Heq; subst; try congruence;
    try (vm_compute in Pr; discriminate);
    try (vm_compute in Pa; discriminate);
    try (vm_compute in Ha; discriminate).
Qed.

Lemma nth_error_app_l {A} (l l' : list A) i x :
  nth_error l i = Some x -> nth_error (l ++ l') i = Some x.
Proof.
  intros H. rewrite nth_error_app1; [exact H|].
  apply nth_error_Some. congruence.
Qed.

(** The frame after the amount stage: the labels of the first stage,
    the target of the single-column fallback relabelled [Amount], and
    on the dual-column path an appended [Amount] when no column had
    that label; the cells of a column that is not written to are
    kept. *)
Lemma resolve_amount_shape df df2 :
  resolve_amount df = Ok df2 ->
  exists h e,
    columns df2 = (map h (columns df) ++ e)%list /\
    (forall c, h c = c \/ h c = "Amount") /\
    (e = [] \/ e = ["Amount"]) /\
    (find_receive (columns df) = None \/ find_amount (columns df) = None ->
     e = []) /\
    (forall i c x, nth_error df i = Some (c, x) ->
       (find_receive (columns df) = None \/ find_amount (columns df) = None)
       \/ (receive_like c = false /\ amount_like c = false) ->
       nth_error df2 i = Some (h c, x)).
Proof.
  intros H. destruct (resolve_amount_Ok df df2 H)
    as [(r & a & x & y & Hr & Ha & Hx & Hy & ->)|[_ ->]].
  - exists (fun c => c).
    set (d2 := setitem (setitem df r (normalize x)) a (normalize y)).
    assert (Hc : columns d2 = columns df).
    { unfold d2. rewrite columns_setitem.
      assert (G2 : getitem (setitem df r (normalize x)) a = Ok y).
      { rewrite getitem_setitem_other; [exact Hy|].
        intros ->. apply find_In in Hr, Ha. destruct Hr as [_ Hr], Ha as [_ Ha].
        rewrite (amount_not_receive _ Ha) in Hr. discriminate. }
      apply getitem_In, existsb_labelled in G2. rewrite G2.
      rewrite columns_setitem.
      pose proof Hx as Hx'. apply getitem_In, existsb_labelled in Hx'.
      now rewrite Hx'. }
    exists (if existsb (labelled "Amount") d2 then [] else ["Amount"]).
    split; [|split; [|split; [|split]]].
    + rewrite columns_setitem, Hc, map_id.
      destruct (existsb (labelled "Amount") d2); [now rewrite app_nil_r|reflexivity].
    + now left.
    + destruct (existsb (labelled "Amount") d2); auto.
    + intros [Hs|Hs]; congruence.
    + intros i c z Hi [[Hs|Hs]|[Pr Pa]]; try congruence.
      apply find_In in Hr, Ha. destruct Hr as [_ Hr], Ha as [_ Ha].
      repeat apply nth_error_setitem; try assumption.
      * intros ->. congruence.
      * intros ->. congruence.
      * intros ->. discriminate.
  - exists (dict_get [(target_amt df, "Amount")]), [].
    split; [|split; [|split; [|split]]].
    + now rewrite columns_rename, app_nil_r.
    + intros c. destruct (dict_get_cases [(target_amt df, "Amount")] c) as [E|[E|[]]];
        [now left|now right].
    + now left.
    + reflexivity.
    + intros i c x Hi _. rewrite nth_error_rename, Hi. reflexivity.
Qed.

Lemma resolve_category_shape df out :
  resolve_category df = Ok out ->
  exists h e,
    columns out = (map h (columns df) ++ e)%list /\
    (forall c, h c = c \/ h c = "Category") /\ h "Amount" = "Amount" /\
    (e = [] \/ e = ["Category"]) /\
    (forall i c x, nth_error df i = Some (c, x) ->
                   nth_error out i = Some (h c, x)).
Proof.
  intros H. destruct (resolve_category_Ok df out H)
    as [(c & Hc & ->)|(d & Hc & Hd & ->)].
  - exists (dict_get [(Some c, "Category")]), [].
    split; [|split; [|split; [|split]]].
    + now rewrite columns_rename, app_nil_r.
    + intros l. destruct (dict_get_cases [(Some c, "Category")] l) as [E|[E|[]]];
        [now left|now right].
    + apply find_In in Hc. destruct Hc as [_ Hc].
      unfold dict_get. cbn [fold_left fst snd].
      destruct (String.eqb_spec c "Amount") as [->|_]; [discriminate|reflexivity].
    + now left.
    + intros i l x Hi. rewrite nth_error_rename, Hi. reflexivity.
  - exists (fun c => c), ["Category"].
    assert (Hn : ~ In "Category" (columns df)).
    { intros Hin. pose proof (find_none _ _ Hc _ Hin). discriminate. }
    rewrite (setitem_fresh _ _ _ Hn).
    split; [|split; [|split; [|split]]].
    + unfold columns. now rewrite map_app, map_id.
    + now left.
    + reflexivity.
    + now right.
    + intros i l x Hi. now apply nth_error_app_l.
Qed.

(** The frame [load_data] returns for a table: every column of the
    table at its position, relabelled or not, and at most [Amount] and
    [Category] behind them. *)
Lemma load_frame_shape df out :
  load_frame df = Ok out ->
  exists f extra,
    columns out = (map f (columns df) ++ extra)%list /\
    relabels f /\ In extra appended /\
    (single_path df -> extra = [] \/ extra = ["Category"]) /\
    (forall i c x, nth_error df i = Some (c, x) ->
       single_path df \/ (receive_like c = false /\ amount_like c = false) ->
       nth_error out i = Some (f c, x)).
Proof.
  intros H. destruct (load_frame_Ok df out H) as (df1 & df2 & H1 & H2 & H3).
  pose proof H1 as H1'.
  destruct (rename_basics_Ok df df1 H1) as [c0 [_ ->]].
  set (g := dict_get (basics (columns df) c0)).
  destruct (resolve_amount_shape _ _ H2) as (h2 & e2 & C2 & R2 & E2 & S2 & N2).
  destruct (resolve_category_shape _ _ H3) as (h3 & e3 & C3 & R3 & A3 & E3 & N3).
  exists (fun c => h3 (h2 (g c))), (e2 ++ e3)%list.
  split; [|split; [|split; [|split]]].
  - assert (Ee : map h3 e2 = e2).
    { destruct E2 as [->| ->]; [reflexivity|]. cbn [map]. now rewrite A3. }
    rewrite C3, C2, columns_rename, map_app, !map_map, Ee.
    now rewrite <- app_assoc.
  - intros c.
    destruct (R3 (h2 (g c))) as [E3'|E3']; rewrite E3'; [|simpl; tauto].
    destruct (R2 (g c)) as [E2'|E2']; rewrite E2'; [|simpl; tauto].
    destruct (basics_cases (columns df) c0 c) as [E|[E|E]]; fold g in E;
      rewrite E; simpl; tauto.
  - unfold appended. destruct E2 as [->| ->], E3 as [->| ->]; simpl; tauto.
  - intros Hs. rewrite (S2 (Hs _ H1')). destruct E3 as [->| ->]; simpl; tauto.
  - intros i c x Hi Hp. apply N3.
    assert (Hg : nth_error (rename (basics (columns df) c0) df) i = Some (g c, x)).
    { rewrite nth_error_rename, Hi. reflexivity. }
    apply N2; [exact Hg|]. destruct Hp as [Hs|[Pr Pa]]; [left; now apply Hs|].
    right. destruct (basics_cases (columns df) c0 c) as [E|[E|E]]; fold g in E;
      rewrite E; now split.
Qed.

Lemma nth_error_as_ledger (df : frame column) i c x :
  nth_error df i = Some (c, x) ->
  nth_error (as_ledger df) i = Some (c, Plain x).
Proof. intros H. unfold as_ledger. now rewrite nth_error_map, H. Qed.

(** The ledger of a table. *)
Lemma ledger_shape conv df L :
  pipeline conv (Some df) None = Ok L ->
  exists f extra,
    columns L = (map f (columns df) ++ extra)%list /\
    relabels f /\ In extra appended /\
    (forall i c x, nth_error df i = Some (c, x) ->
       receive_like c = false -> amount_like c = false ->
       f c <> "Date" -> f c <> "Amount" ->
       nth_error L i = Some (f c, Plain x)).
Proof.
  intros H. destruct (pipeline_Ok _ _ _ _ H) as [out [Ho He]].
  change (load_frame df = Ok out) in Ho.
  destruct (load_frame_shape df out Ho) as (f & extra & Hc & Hf & Hx & _ & Hn).
  exists f, extra. split; [|split; [exact Hf|split; [exact Hx|]]].
  - rewrite (ensure_types_columns conv _ _ He), columns_as_ledger. exact Hc.
  - intros i c x Hi Pr Pa Hd Ha.
    destruct (ensure_types_Ok conv _ _ He) as (d & ts & a & _ & _ & _ & ->).
    apply nth_error_setitem; [|exact Ha].
    apply nth_error_setitem; [|exact Hd].
    apply nth_error_as_ledger. apply Hn; [exact Hi|]. right. now split.
Qed.

Lemma pipeline_source conv up loc df :
  up = Some df \/ (up = None /\ loc = Some df) ->
  pipeline conv up loc = pipeline conv (Some df) None.
Proof. intros [->|[-> ->]]; reflexivity. Qed.

End LedgerFacts.

Import LedgerFacts.

(** C6 (amended).  The ledger has columns labelled [Date], [Amount] and
    [Category].  It keeps every column of the table it was read from
    at its position: the label there is the label of the table or one
    of Date, Description, Amount and Category given in its place, and
    the cells are those of the table unless the column is the [Date]
    or the [Amount] column of the ledger or its label in the table is
    credit-like or amount-like; behind these columns come at most
    [Amount] and [Category], in this order.  So the ledger can have
    more than four columns; the sample ledger has the four columns
    Date, Description, Category, Amount, in this order. *)
Theorem ledger_columns conv up loc L :
  pipeline conv up loc = Ok L ->
  In "Date" (columns L) /\ In "Amount" (columns L) /\ In "Category" (columns L) /\
  (up = None -> loc = None ->
   columns L = ["Date"; "Description"; "Category"; "Amount"]) /\
  (forall df, up = Some df \/ (up = None /\ loc = Some df) ->
     exists f extra,
       columns L = (map f (columns df) ++ extra)%list /\
       relabels f /\ In extra appended /\
       (forall i c x, nth_error df i = Some (c, x) ->
          receive_like c = false -> amount_like c = false ->
          f c <> "Date" -> f c <> "Amount" ->
          nth_error L i = Some (f c, Plain x))).
Proof.
  intros H. destruct (pipeline_Ok _ _ _ _ H) as [out [Ho He]].
  pose proof (ensure_types_columns conv _ _ He) as Hcols.
  rewrite columns_as_ledger in Hcols.
  destruct (ensure_types_Ok conv _ _ He) as (d & ts & a & Hd & _ & Ha & _).
  rewrite getitem_setitem_other in Ha by discriminate.
  apply getitem_In in Hd, Ha. rewrite columns_as_ledger in Hd, Ha.
  split; [now rewrite Hcols|]. split; [now rewrite Hcols|]. split; [|split].
  - rewrite Hcols. destruct up as [df|]; [|destruct loc as [df|]].
    + change (load_frame df = Ok out) in Ho.
      destruct (load_frame_Ok df out Ho) as (df1 & df2 & _ & _ & H3).
      now apply resolve_category_has_category with df2.
    + change (load_frame df = Ok out) in Ho.
      destruct (load_frame_Ok df out Ho) as (df1 & df2 & _ & _ & H3).
      now apply resolve_category_has_category with df2.
    + inversion Ho. simpl. auto.
  - intros -> ->. rewrite Hcols. now inversion Ho.
  - intros df Hsrc. rewrite (pipeline_source conv up loc df Hsrc) in H.
    now apply ledger_shape with conv.
Qed.

(** C6 on the sample ledger and on a table with a balance column. *)
Lemma ledger_columns_witness :
  (exists L,
     pipeline Iso.to_datetime None None = Ok L /\
     columns L = ["Date"; "Description"; "Category"; "Amount"]) /\
  (exists L,
     pipeline Iso.to_datetime (Some balance_table) None = Ok L /\
     columns L = ["Date"; "Description"; "Amount"; "Balance"; "Category"] /\
     nth_error L 3 = Some ("Balance", Plain (Object [Str "1,000.00"]))).
Proof.
  split.
  - destruct (pipeline Iso.to_datetime None None) as [L|e] eqn:E;
      [|vm_compute in E; discriminate].
    exists L. split; [reflexivity|].
    now apply (proj1 (proj2 (proj2 (proj2
                 (ledger_columns Iso.to_datetime None None L E))))).
  - destruct (pipeline Iso.to_datetime (Some balance_table) None) as [L|e] eqn:E;
      [|vm_compute in E; discriminate].
    exists L. split; [reflexivity|].
    destruct (proj2 (proj2 (proj2 (proj2
               (ledger_columns Iso.to_datetime (Some balance_table) None L E))))
               balance_table (or_introl eq_refl))
      as (f & extra & Hc & _ & _ & Hn).
    assert (Ec : columns L = ["Date"; "Description"; "Amount"; "Balance"; "Category"]).
    { vm_compute in E. inversion E. reflexivity. }
    split; [exact Ec|].
    rewrite Ec in Hc. cbn [columns balance_table map fst app] in Hc.
    injection Hc as E1 E2 E3 E4 E5.
    rewrite E4. apply Hn; try reflexivity; rewrite <- E4; discriminate.
Defined.


Lemma Forall_fill0 xs : Forall (fun x => x <> NaN) (map fill0 xs).
Proof.
  apply Forall_forall. intros x Hx. apply in_map_iff in Hx.
  destruct Hx as [y [<- _]]. apply fill0_not_nan.
Qed.

Lemma cat_like_source df out c :
  load_frame df = Ok out ->
  (exists df1 df2, rename_basics df = Ok df1 /\ resolve_amount df1 = Ok df2 /\
                   find_cat (columns df2) = Some c) ->
  In c (columns df) /\ cat_like c = true.
Proof.
  intros _ (df1 & df2 & H1 & H2 & Hc).
  apply find_In in Hc. destruct Hc as [Hin Hc]. split; [|assumption].
  destruct (rename_basics_Ok df df1 H1) as [c0 [_ ->]].
  destruct (resolve_amount_labels _ _ c H2 Hin) as [Hl| ->]; [|discriminate].
  destruct (basics_labels df c0 c Hl) as [Hl'|[->| ->]];
    [assumption|discriminate|discriminate].
Qed.

Module CellFacts.
Import NormFacts LedgerFacts.

Lemma getitem_nth {C} (df : frame C) l x :
  getitem df l = Ok x -> exists i, nth_error df i = Some (l, x).
Proof.
  intros H. apply getitem_Ok in H. apply In_nth_error.
  assert (Hin : In (l, x) (filter (labelled l) df)) by (rewrite H; now left).
  apply filter_In in Hin. apply Hin.
Qed.

Lemma nth_getitem {C} (df : frame C) l x y i :
  getitem df l = Ok x -> nth_error df i = Some (l, y) -> y = x.
Proof.
  intros H Hi. apply nth_error_In in Hi.
  apply (getitem_cells df l x (l, y) H Hi eq_refl).
Qed.

Lemma nth_error_setitem_at {C} (df : frame C) l x y i :
  nth_error df i = Some (l, y) -> nth_error (setitem df l x) i = Some (l, x).
Proof.
  intros Hi. unfold setitem.
  assert (He : existsb (labelled l) df = true).
  { apply existsb_exists. exists (l, y). split; [eapply nth_error_In; eauto|].
    now apply labelled_true. }
  rewrite He, nth_error_map, Hi. cbn [option_map].
  assert (E : labelled l (l, y) = true) by (now apply labelled_true).
  now rewrite E.
Qed.

Lemma nth_error_columns {C} (df : frame C) i c x :
  nth_error df i = Some (c, x) -> nth_error (columns df) i = Some c.
Proof. intros H. unfold columns. now rewrite nth_error_map, H. Qed.

Lemma fill0_amount y : fill0 y = Norm.amount (Num y).
Proof. now destruct y. Qed.

(** What lines 96-98 make of the amounts [load_data] hands over. *)
Lemma coerce_amount_rows a :
  exists xs,
    coerce_amount (Plain a) = Float64 xs /\
    List.length xs = nrows a /\
    Forall (fun x => x <> NaN) xs /\
    (forall i v, nth_error (cells_of a) i = Some v -> Norm.agreed v = true ->
                 nth_error xs i = Some (Norm.amount v)) /\
    (forall ys, a = Float64 ys -> xs = map (fun y => Norm.amount (Num y)) ys).
Proof.
  destruct a as [vs|ys].
  - exists (map normalize_cell vs). split; [apply (normalize_cells (Object vs))|].
    split; [apply length_map|]. split; [|split].
    + apply Forall_forall. intros x Hx. apply in_map_iff in Hx.
      destruct Hx as [v [<- _]]. apply fill0_not_nan.
    + intros i v Hv Ha. cbn [cells_of] in Hv. rewrite nth_error_map, Hv.
      cbn [option_map]. now rewrite normalize_agreed.
    + discriminate.
  - exists (map fill0 ys). split; [reflexivity|].
    split; [unfold nrows; cbn [cells_of]; now rewrite !length_map|].
    split; [apply Forall_fill0|split].
    + intros i v Hv _. cbn [cells_of] in Hv. rewrite nth_error_map in Hv.
      rewrite nth_error_map.
      destruct (nth_error ys i) as [y|]; [|discriminate].
      cbn [option_map] in *. inversion Hv. now rewrite fill0_amount.
    + intros ys' E. inversion E. subst. apply map_ext. apply fill0_amount.
Qed.

(** On the single-column path the [Amount] column [load_data] hands
    over is a column of the table, with its cells. *)
Lemma single_amount_source df out a :
  load_frame df = Ok out -> getitem out "Amount" = Ok a -> single_path df ->
  exists i c, nth_error df i = Some (c, a).
Proof.
  intros Ho Ha Hs.
  destruct (load_frame_shape df out Ho) as (f & extra & Hc & _ & _ & He & Hn).
  destruct (getitem_nth out "Amount" a Ha) as [i Hi].
  pose proof (nth_error_columns out i "Amount" a Hi) as Hl. rewrite Hc in Hl.
  destruct (nth_error df i) as [[c x]|] eqn:Ei.
  - exists i, c. pose proof (Hn i c x Ei (or_introl Hs)) as Hx.
    rewrite Hi in Hx. now inversion Hx.
  - exfalso. apply nth_error_None in Ei.
    rewrite nth_error_app2 in Hl by (rewrite length_map, length_columns; exact Ei).
    destruct (He Hs) as [E|E]; rewrite E in Hl.
    + now destruct (i - _)%nat.
    + destruct (i - _)%nat as [|[|n]]; discriminate.
Qed.

End CellFacts.

Import CellFacts.



(** ** The sample ledger *)

(** C8 (confirmed).  Without an uploaded file and without
    [statement.csv], [load_data] raises nothing and returns the sample
    table: five rows in each of its columns, amounts that sum to 2730.
    The type coercions keep it, the dates converted, whenever
    [pd.to_datetime] accepts the five sample dates. *)
Theorem sample_fallback conv ts :
  conv sample_dates = Some ts ->
  load_data None None = Ok sample_data /\
  Forall (fun cx => nrows (snd cx) = 5%nat) sample_data /\
  getitem sample_data "Amount" = Ok (Float64 sample_amounts) /\
  total sample_amounts = Fin 2730 0 /\
  total sample_amounts = F.sub (Fin 3000 0) (F.add (Fin 150 0)
                           (F.add (Fin 15 0) (F.add (Fin 45 0) (Fin 60 0)))) /\
  exists L, pipeline conv None None = Ok L /\
            getitem L "Date" = Ok (Datetime64 ts) /\
            getitem L "Amount" = Ok (Plain (Float64 sample_amounts)) /\
            columns L = columns sample_data.
Proof.
  intros Hc. split; [reflexivity|]. split; [repeat constructor|].
  split; [reflexivity|]. split; [reflexivity|]. split; [reflexivity|].
  assert (Hd : getitem (as_ledger sample_data) "Date" = Ok (Plain sample_dates))
    by reflexivity.
  unfold pipeline, ensure_types. cbn [load_data bind]. rewrite Hd.
  cbn [bind to_datetime]. rewrite Hc. cbn [bind].
  eexists. split; [reflexivity|]. repeat split.
Qed.

(** C8 with the converter of ISO dates. *)
Lemma sample_fallback_witness :
  load_data None None = Ok sample_data /\
  total sample_amounts = Fin 2730 0 /\
  exists L, pipeline Iso.to_datetime None None = Ok L /\
            getitem L "Amount" = Ok (Plain (Float64 sample_amounts)).
Proof.
  destruct (sample_fallback Iso.to_datetime _ eq_refl)
    as (H1 & _ & _ & H4 & _ & L & H6 & _ & H8 & _).
  split; [exact H1|]. split; [exact H4|]. exists L. now split.
Defined.

(** ** Idempotence *)

(** C9 (confirmed).  The type coercions leave a ledger they have
    produced as it is: run twice, they give the ledger they give when
    run once. *)
Theorem ensure_types_idempotent conv df L :
  ensure_types conv df = Ok L ->
  ensure_types conv L = Ok L /\
  (L' <- ensure_types conv df ;; ensure_types conv L') = ensure_types conv df.
Proof.
  intros H. pose proof (ensure_types_fixed conv df L H) as HL.
  split; [assumption|]. rewrite H. cbn [bind]. exact HL.
Qed.

(** C9 on a table with a balance column. *)
Lemma ensure_types_idempotent_witness :
  exists L,
    ensure_types Iso.to_datetime (as_ledger balance_table) = Ok L /\
    ensure_types Iso.to_datetime L = Ok L.
Proof.
  eexists. split; [reflexivity|].
  apply (proj1 (ensure_types_idempotent Iso.to_datetime
                  (as_ledger balance_table) _ eq_refl)).
Defined.

(** ** The rules of the categorizer *)

(** C5 (counterexample).  A description with a grocery keyword and a
    restaurant keyword that also holds the two savings tokens is
    labelled Savings: the savings rule comes first. *)
Lemma savings_before_groceries :
  let v := Str "Kontoregulering Mobil overføring Kiwi Cafe" in
  Spec.fires Spec.groceries (Py.lower (py_str v)) = true /\
  Spec.fires Spec.dining (Py.lower (py_str v)) = true /\
  categorize v = "Savings 🏦" /\
  categorize v <> "Groceries 🛒".
Proof. repeat split. discriminate. Qed.

(** C5 (amended).  The categorizer returns the label of the first rule
    of the list Savings, Groceries, Food & Dining, Transport,
    Entertainment, Bills & Utilities, Shopping, Income/Transfer that
    fires on the lowered text of the description, the savings rule
    firing only when both its tokens occur, and "Other" when none
    fires.  A description with a grocery keyword is labelled Groceries,
    whatever restaurant keyword it holds, unless both savings tokens
    occur in it. *)
Theorem categorize_rule_order (v : value) :
  categorize v = Spec.first_match Spec.rules (Py.lower (py_str v)) /\
  map snd Spec.rules
  = ["Savings 🏦"; "Groceries 🛒"; "Food & Dining 🍔"; "Transport 🚆";
     "Entertainment 🎬"; "Bills & Utilities 💡"; "Shopping 🛍️";
     "Income/Transfer 💰"] /\
  (Spec.fires Spec.savings (Py.lower (py_str v)) = false ->
   Spec.fires Spec.groceries (Py.lower (py_str v)) = true ->
   categorize v = "Groceries 🛒") /\
  ((forall t label, In (t, label) Spec.rules ->
                    Spec.fires t (Py.lower (py_str v)) = false) ->
   categorize v = "Other").
Proof.
  split; [apply categorize_first_match|]. split; [reflexivity|]. split.
  - intros Hs Hg. rewrite categorize_first_match.
    change (Spec.first_match Spec.rules (Py.lower (py_str v)))
      with (if Spec.fires Spec.savings (Py.lower (py_str v)) then "Savings 🏦"
            else if Spec.fires Spec.groceries (Py.lower (py_str v))
                 then "Groceries 🛒"
                 else Spec.first_match (skipn 2 Spec.rules) (Py.lower (py_str v))).
    now rewrite Hs, Hg.
  - intros H. rewrite categorize_first_match.
    generalize dependent Spec.rules. intros rs.
    induction rs as [|[t label] rs IH]; intros H; [reflexivity|].
    simpl. rewrite (H t label (or_introl eq_refl)).
    apply IH. intros t' l' Hin. apply (H t' l'). now right.
Qed.

(** C5 on a grocery with a cafe and on an unknown merchant. *)
Lemma categorize_rule_order_witness :
  categorize (Str "Rema 1000 Cafe") = "Groceries 🛒" /\
  categorize (Str "XYZCORP PURCHASE") = "Other".
Proof.
  split.
  - apply (proj1 (proj2 (proj2 (categorize_rule_order (Str "Rema 1000 Cafe")))));
      reflexivity.
  - apply (proj2 (proj2 (proj2 (categorize_rule_order (Str "XYZCORP PURCHASE"))))).
    intros t label Hin. simpl in Hin.
    repeat (destruct Hin as [Hin|Hin]; [inversion Hin; reflexivity|]).
    destruct Hin.
Defined.

(** ** The numeric normalizer *)




(** ** A supplied category *)

(** C10 (counterexample).  In a table with the columns Date, Category
    and Amount the category column is the second column, which the
    single-column fallback relabels [Amount]; the categorizer runs, on
    the amounts, and the supplied "Food" is not the category of the
    row. *)
Lemma supplied_category_overridden :
  Spec.first_containing ["cat"] (columns categorized_table) = Some "Category" /\
  load_data (Some categorized_table) None
  = Ok [("Date", Object [Str "2023-12-01"]);
        ("Amount", Object [Str "Food"]);
        ("Description", Float64 [Fin (-1200) 2]);
        ("Category", Object [Str "Other"])].
Proof. split; reflexivity. Qed.

(** C10 (amended).  When a label containing "cat" is left once the
    date, description and amount columns are resolved, the first such
    column is relabelled [Category] and the categorizer is not run: the
    ledger is the frame of the amount stage under the new label.  The
    column is a column of the raw table, and its cells are the raw
    cells unless it is also the credit column of the dual-column path,
    whose cells are normalized. *)
Theorem supplied_category_kept (df df1 df2 : frame column) c :
  rename_basics df = Ok df1 -> resolve_amount df1 = Ok df2 ->
  find_cat (columns df2) = Some c ->
  (forall loc, load_data (Some df) loc
               = Ok (rename [(Some c, "Category")] df2)) /\
  In c (columns df) /\
  (~ (find_receive (columns df1) = Some c /\ find_amount (columns df1) <> None) ->
   forall i x, nth_error df i = Some (c, x) ->
     nth_error (rename [(Some c, "Category")] df2) i = Some ("Category", x)).
Proof.
  intros H1 H2 Hc. pose proof (find_In _ _ _ Hc) as [Hin2 Hcat].
  destruct (rename_basics_Ok df df1 H1) as [c0 [_ E1]].
  assert (Hin1 : In c (columns df1)).
  { destruct (resolve_amount_labels _ _ c H2 Hin2) as [H|H]; [assumption|].
    subst c. discriminate. }
  assert (Hnv : ~ In c (map snd (basics (columns df) c0))).
  { rewrite basics_values. simpl. intros [<-|[<-|[]]]; discriminate. }
  rewrite E1 in Hin1. destruct (In_rename _ _ _ Hnv Hin1) as [Ed Hin].
  split; [|split; [assumption|]].
  - intros loc. change (load_data (Some df) loc) with (load_frame df).
    rewrite (load_frame_stages df df1 df2 H1 H2).
    unfold resolve_category. now rewrite Hc.
  - intros Hnot i x Hi.
    assert (Hi1 : nth_error df1 i = Some (c, x)).
    { rewrite E1, nth_error_rename, Hi. simpl. now rewrite Ed. }
    assert (Hi2 : nth_error df2 i = Some (c, x)).
    { destruct (resolve_amount_Ok df1 df2 H2)
        as [(r & a & x' & y' & Hr & Ha & Hx & Hy & ->)|[_ ->]].
      - repeat apply nth_error_setitem; try assumption.
        + intros ->. apply Hnot. split; [assumption|congruence].
        + intros ->. apply find_In in Ha. destruct Ha as [_ Ha].
          rewrite (amount_not_cat a Ha) in Hcat. discriminate.
        + intros ->. discriminate.
      - rewrite nth_error_rename, Hi1. simpl.
        assert (Hna : ~ In c (map snd [(target_amt df1, "Amount")])).
        { simpl. intros [<-|[]]. discriminate. }
        destruct (In_rename _ _ _ Hna Hin2) as [Ea _]. now rewrite Ea. }
    rewrite nth_error_rename, Hi2. simpl. unfold dict_get. simpl.
    now rewrite String.eqb_refl.
Qed.

(** C10 on a table with a category column behind the amount. *)
Lemma supplied_category_kept_witness :
  load_data (Some labelled_table) None
  = Ok (rename [(Some "Kategori / Cat", "Category")] labelled_table) /\
  nth_error (rename [(Some "Kategori / Cat", "Category")] labelled_table) 3
  = Some ("Category", Object [Str "Mat"]).
Proof.
  destruct (supplied_category_kept labelled_table labelled_table labelled_table
              "Kategori / Cat" eq_refl eq_refl eq_refl) as (H1 & _ & H3).
  split; [apply H1|]. apply H3; [|reflexivity].
  intros [H _]. discriminate.
Defined.

(** ** The role map *)

(** C4 (counterexample).  The credit, debit and category columns are
    looked for after the date and description columns have taken their
    canonical labels: "Deposit Date" is the date column and, relabelled
    [Date], no credit column any more, while the reference finds
    "deposit" in its name. *)
Lemma credit_role_differs :
  receive_col (Spec.role_map (columns deposit_table)) = Some "Deposit Date" /\
  (exists r, infer_roles deposit_table = Ok r /\ receive_col r = None) /\
  infer_roles deposit_table <> Ok (Spec.role_map (columns deposit_table)).
Proof.
  split; [reflexivity|]. split; [eexists; split; reflexivity|]. discriminate.
Qed.

Lemma find_ext' {A} (p q : A -> bool) l :
  (forall c, p c = q c) -> find p l = find q l.
Proof.
  intros H. induction l as [|c l IH]; [reflexivity|]. simpl.
  now rewrite H, IH.
Qed.

Lemma first_containing_date cols :
  Spec.first_containing ["date"; "time"] cols = find date_like cols.
Proof.
  apply find_ext'. intros c. unfold date_like. simpl. now rewrite orb_false_r.
Qed.

Lemma first_containing_desc cols :
  Spec.first_containing ["desc"; "merchant"; "name"] cols = find desc_like cols.
Proof.
  apply find_ext'. intros c. unfold desc_like. simpl.
  now rewrite orb_false_r, orb_assoc.
Qed.

Lemma first_containing_receive cols :
  Spec.first_containing ["receive"; "credit"; "deposit"] cols
  = find receive_like cols.
Proof.
  apply find_ext'. intros c. unfold receive_like. simpl.
  now rewrite orb_false_r, orb_assoc.
Qed.

Lemma first_containing_cat cols :
  Spec.first_containing ["cat"] cols = find cat_like cols.
Proof.
  apply find_ext'. intros c. unfold cat_like. simpl. now rewrite orb_false_r.
Qed.

Lemma at_or_none_nth cols i : at_or_none cols i = nth_error cols i.
Proof.
  unfold at_or_none. destruct (Nat.ltb_spec i (List.length cols)); [reflexivity|].
  symmetry. now apply nth_error_None.
Qed.

(** The date and description roles are those of the reference. *)
Lemma basic_roles cols c0 :
  nth_error cols 0 = Some c0 ->
  Some (find_date cols c0) = date_col (Spec.role_map cols) /\
  find_desc cols = desc_col (Spec.role_map cols).
Proof.
  intros H0. unfold Spec.role_map, Spec.or_else. cbn [date_col desc_col]. split.
  - rewrite first_containing_date, H0. unfold find_date.
    now destruct (find date_like cols).
  - rewrite first_containing_desc. unfold find_desc, Py.next.
    now rewrite at_or_none_nth.
Qed.

(** A search gives the same label after a relabelling that changes
    neither the label found nor the outcome of the test on the others. *)
Lemma find_map_stable (p : string -> bool) (f : string -> string) cols :
  (forall c, f c = c \/ p (f c) = false) ->
  (forall r, find p cols = Some r -> f r = r) ->
  find p (map f cols) = find p cols.
Proof.
  intros Hf. induction cols as [|c cols IH]; intros Hr; [reflexivity|].
  simpl in *. destruct (p c) eqn:Hp.
  - rewrite (Hr c eq_refl), Hp. reflexivity.
  - assert (E : p (f c) = false) by (destruct (Hf c) as [->|]; assumption).
    rewrite E. apply IH. exact Hr.
Qed.

Lemma basics_fixed cols c0 r :
  find_date cols c0 <> r -> find_desc cols <> Some r ->
  dict_get (basics cols c0) r = r.
Proof.
  intros Hd Hs. unfold basics, dict_get. simpl.
  destruct (String.eqb_spec (find_date cols c0) r); [contradiction|].
  destruct (find_desc cols) as [k|]; [|reflexivity].
  destruct (String.eqb_spec k r); [congruence|reflexivity].
Qed.

Lemma neq_role_Some a b :
  Spec.neq_role (Some a) (Some b) = true -> a <> b.
Proof.
  simpl. intros H. apply negb_true_iff in H. now apply String.eqb_neq.
Qed.

(** A search that rejects the canonical labels is not disturbed by the
    first stage when what it finds is neither the date nor the
    description column. *)
Lemma find_after_basics (p : string -> bool) cols c0 :
  nth_error cols 0 = Some c0 ->
  p "Date" = false -> p "Description" = false ->
  Spec.neq_role (find p cols) (date_col (Spec.role_map cols)) = true ->
  Spec.neq_role (find p cols) (desc_col (Spec.role_map cols)) = true ->
  find p (map (dict_get (basics cols c0)) cols) = find p cols.
Proof.
  intros H0 Hpd Hps Hnd Hns. destruct (basic_roles cols c0 H0) as [Ed Es].
  rewrite <- Ed in Hnd. rewrite <- Es in Hns.
  apply find_map_stable.
  - intros c. destruct (dict_get_cases (basics cols c0) c) as [E|[E|[E|[]]]].
    + now left.
    + right. now rewrite <- E.
    + right. now rewrite <- E.
  - intros r Hr. rewrite Hr in Hnd, Hns. apply basics_fixed.
    + apply not_eq_sym. now apply neq_role_Some.
    + intros E. rewrite E in Hns. apply neq_role_Some in Hns. congruence.
Qed.

Lemma find_app_last {A} (p : A -> bool) l x :
  p x = false -> find p (l ++ [x])%list = find p l.
Proof.
  intros H. induction l as [|c l IH]; simpl; [now rewrite H|].
  now rewrite IH.
Qed.

Lemma dual_columns (df : frame column) r a x y u v w :
  getitem df r = Ok x -> getitem df a = Ok y ->
  columns (setitem (setitem (setitem df r u) a v) "Amount" w)
  = if existsb (labelled "Amount") df then columns df
    else (columns df ++ ["Amount"])%list.
Proof.
  intros Hx Hy.
  assert (Hc : columns (setitem (setitem df r u) a v) = columns df).
  { rewrite columns_setitem.
    assert (E : existsb (labelled a) (setitem df r u) = true).
    { apply existsb_labelled. rewrite columns_setitem.
      apply getitem_In in Hx, Hy. apply existsb_labelled in Hx. now rewrite Hx. }
    rewrite E. rewrite columns_setitem.
    apply getitem_In, existsb_labelled in Hx. now rewrite Hx. }
  rewrite columns_setitem.
  assert (E : existsb (labelled "Amount") (setitem (setitem df r u) a v)
              = existsb (labelled "Amount") df).
  { apply eq_true_iff_eq. rewrite !existsb_labelled. now rewrite Hc. }
  now rewrite E, Hc.
Qed.

(** C4 (amended).  The date and description roles are those of the
    reference definition over the names of the raw table.  The credit
    and debit roles are searched among the names left after the date
    and description columns are relabelled, and the category role
    among those left after the amount column is relabelled too; on a
    table with distinct names in which the roles keep apart, the whole
    role map is the reference one. *)
Theorem roles_match_reference (df : frame column) :
  (forall r, infer_roles df = Ok r ->
     date_col r = date_col (Spec.role_map (columns df)) /\
     desc_col r = desc_col (Spec.role_map (columns df)) /\
     exists df1 df2,
       rename_basics df = Ok df1 /\ resolve_amount df1 = Ok df2 /\
       receive_col r = find receive_like (columns df1) /\
       amount_col r = find amount_like (columns df1) /\
       cat_col r = find cat_like (columns df2)) /\
  (NoDup (columns df) -> df <> [] -> Spec.roles_apart (columns df) = true ->
   infer_roles df = Ok (Spec.role_map (columns df))).
Proof.
  split.
  - intros r H. unfold infer_roles, column_at in H.
    destruct (nth_error (columns df) 0) as [c0|] eqn:H0; [|discriminate].
    cbn [bind] in H.
    destruct (rename_basics df) as [df1|] eqn:H1; [|discriminate].
    cbn [bind] in H.
    destruct (resolve_amount df1) as [df2|] eqn:H2; [|discriminate].
    cbn [bind] in H. inversion H; subst r; clear H. simpl.
    destruct (basic_roles _ _ H0) as [Ed Es].
    split; [exact Ed|]. split; [exact Es|]. exists df1, df2. auto.
  - intros Hnd Hne Hap.
    destruct (stages_return df Hnd Hne) as (df1 & df2 & H1 & H2).
    destruct (rename_basics_Ok df df1 H1) as [c0 [H0 E1]].
    unfold infer_roles, column_at. rewrite H0. cbn [bind]. rewrite H1.
    cbn [bind]. rewrite H2. cbn [bind].
    destruct (basic_roles _ _ H0) as [Ed Es].
    set (cols := columns df) in *.
    unfold Spec.roles_apart in Hap. cbv zeta in Hap.
    apply andb_prop in Hap. destruct Hap as [Hap H].
    apply andb_prop in Hap. destruct Hap as [Hap Hcs].
    apply andb_prop in Hap. destruct Hap as [Hap Hcd].
    apply andb_prop in Hap. destruct Hap as [Hap Has].
    apply andb_prop in Hap. destruct Hap as [Hap Had].
    apply andb_prop in Hap. destruct Hap as [Hrd Hrs].
    assert (Hc1 : columns df1 = map (dict_get (basics cols c0)) cols)
      by (rewrite E1; apply columns_rename).
    assert (Er : find_receive (columns df1) = receive_col (Spec.role_map cols)).
    { unfold find_receive. rewrite Hc1. simpl receive_col.
      rewrite first_containing_receive.
      apply find_after_basics; try assumption; try reflexivity;
        now rewrite <- first_containing_receive. }
    assert (Ea : find_amount (columns df1) = amount_col (Spec.role_map cols)).
    { unfold find_amount. rewrite Hc1. simpl amount_col.
      change (Spec.first_equal ["amount"; "debit"; "withdraw"; "payment"] cols)
        with (find amount_like cols).
      apply find_after_basics; try assumption; reflexivity. }
    assert (Ec1 : find cat_like (columns df1) = cat_col (Spec.role_map cols)).
    { rewrite Hc1. simpl cat_col. rewrite first_containing_cat.
      apply find_after_basics; try assumption; try reflexivity;
        now rewrite <- first_containing_cat. }
    assert (Ec : find_cat (columns df2) = cat_col (Spec.role_map cols)).
    { unfold find_cat. rewrite <- Ec1.
      destruct (resolve_amount_Ok df1 df2 H2)
        as [(r & a & x & y & Hr & Ha & Hx & Hy & ->)|[Hsingle ->]].
      - rewrite (dual_columns df1 r a x y _ _ _ Hx Hy).
        destruct (existsb _ df1); [reflexivity|].
        now apply find_app_last.
      - rewrite columns_rename. apply find_map_stable.
        + intros c.
          destruct (dict_get_cases [(target_amt df1, "Amount")] c) as [E|[E|[]]].
          * now left.
          * right. now rewrite <- E.
        + intros c Hc. unfold dict_get. simpl.
          destruct (target_amt df1) as [t|] eqn:Et; [|reflexivity].
          destruct (String.eqb_spec t c) as [->|]; [exfalso|reflexivity].
          pose proof (find_In _ _ _ Hc) as [Hinc Hcat].
          unfold target_amt in Et.
          destruct (find_amount (columns df1)) as [a|] eqn:Hfa.
          * inversion Et; subst a. apply find_In in Hfa. destruct Hfa as [_ Hfa].
            rewrite (amount_not_cat c Hfa) in Hcat. discriminate.
          * rewrite at_or_none_nth, Hc1, nth_error_map in Et.
            destruct (nth_error cols 1) as [c1|] eqn:E1c; [|discriminate].
            simpl in Et. inversion Et as [Et'].
            assert (Hnv : ~ In c (map snd (basics cols c0))).
            { rewrite basics_values. simpl. intros [<-|[<-|[]]]; discriminate. }
            destruct (dict_get_target _ _ _ Hnv Et') as [-> _].
            rewrite <- Ea in H. rewrite <- Ec1, Hc in H.
            simpl in H. apply negb_true_iff in H.
            now rewrite String.eqb_refl in H. }
    rewrite Er, Ea, Ec. rewrite Ed, Es. now destruct (Spec.role_map cols).
Qed.

(** C4 on the table of section 8 of the specification. *)
Lemma roles_match_reference_witness :
  infer_roles bank_table
  = Ok {| date_col := Some "Transaction Date";
          desc_col := Some "Merchant Name";
          receive_col := None;
          amount_col := Some "Payment";
          cat_col := None |}.
Proof.
  apply (proj2 (roles_match_reference bank_table)).
  - repeat constructor; simpl; intuition discriminate.
  - discriminate.
  - reflexivity.
Defined.

(** * Further properties of [load_data] *)

Module More.
Import Chars.

(** ** Lowering *)

Lemma string_pair_ind (P : string -> Prop) :
  P EmptyString ->
  (forall c, P (String c EmptyString)) ->
  (forall c d r, P r -> P (String d r) -> P (String c (String d r))) ->
  forall s, P s.
Proof.
  intros H0 H1 H2.
  assert (H : forall s, P s /\ forall c, P (String c s)).
  { induction s as [|d r [IHr IHc]].
    - split; [exact H0 | exact H1].
    - split; [apply IHc|]. intros c. apply H2; [exact IHr | apply IHc]. }
  intros s. apply H.
Qed.

Lemma lower_cons2 c d r :
  Py.lower (String c (String d r)) =
  if latin_pair c d then String c (String (Py.shift32 d) (Py.lower r))
  else String (lower_char c) (Py.lower (String d r)).
Proof. reflexivity. Qed.

Lemma lower_cons1 c : Py.lower (String c EmptyString) = String (lower_char c) EmptyString.
Proof. reflexivity. Qed.

Lemma N_of_ascii_lt c : (N_of_ascii c < 256)%N.
Proof. apply N_ascii_bounded. Qed.

Lemma code_shift32 d :
  (N_of_ascii d < 224)%N -> N_of_ascii (Py.shift32 d) = (N_of_ascii d + 32)%N.
Proof.
  intros H. unfold Py.shift32. apply N_ascii_embedding. lia.
Qed.

Lemma ascii_in_spec lo hi c :
  Py.ascii_in lo hi c = true <-> (lo <= N_of_ascii c <= hi)%N.
Proof.
  unfold Py.ascii_in. rewrite andb_true_iff, !N.leb_le. tauto.
Qed.

Lemma ascii_in_false lo hi c :
  Py.ascii_in lo hi c = false <-> (N_of_ascii c < lo \/ hi < N_of_ascii c)%N.
Proof.
  unfold Py.ascii_in. rewrite andb_false_iff, !N.leb_gt. tauto.
Qed.

Lemma lower_char_code c :
  N_of_ascii (lower_char c)
  = if Py.ascii_in 65 90 c then (N_of_ascii c + 32)%N else N_of_ascii c.
Proof.
  unfold lower_char. destruct (Py.ascii_in 65 90 c) eqn:E; [|reflexivity].
  apply ascii_in_spec in E. apply code_shift32. lia.
Qed.

Lemma lower_char_idem c : lower_char (lower_char c) = lower_char c.
Proof.
  unfold lower_char at 1.
  destruct (Py.ascii_in 65 90 (lower_char c)) eqn:E; [|reflexivity].
  apply ascii_in_spec in E. rewrite lower_char_code in E.
  destruct (Py.ascii_in 65 90 c) eqn:E2.
  - apply ascii_in_spec in E2. lia.
  - apply ascii_in_false in E2. lia.
Qed.

(** The first character of a lowered text. *)
Lemma lower_head d r :
  exists e t, Py.lower (String d r) = String e t /\
              ((128 <= N_of_ascii d)%N -> e = d) /\
              ((N_of_ascii d < 128)%N -> (N_of_ascii e < 128)%N).
Proof.
  destruct r as [|d' r'].
  - rewrite lower_cons1. eexists _, _. split; [reflexivity|]. split.
    + intros H. unfold lower_char.
      destruct (Py.ascii_in 65 90 d) eqn:E; [|reflexivity].
      apply ascii_in_spec in E. lia.
    + intros H. rewrite lower_char_code.
      destruct (Py.ascii_in 65 90 d) eqn:E; [|assumption].
      apply ascii_in_spec in E. lia.
  - rewrite lower_cons2. destruct (latin_pair d d') eqn:E.
    + eexists _, _. split; [reflexivity|]. split; [reflexivity|].
      unfold latin_pair in E. apply andb_prop in E. destruct E as [E _].
      apply andb_prop in E. destruct E as [E _]. apply N.eqb_eq in E. lia.
    + eexists _, _. split; [reflexivity|]. split.
      * intros H. unfold lower_char.
        destruct (Py.ascii_in 65 90 d) eqn:E2; [|reflexivity].
        apply ascii_in_spec in E2. lia.
      * intros H. rewrite lower_char_code.
        destruct (Py.ascii_in 65 90 d) eqn:E2; [|assumption].
        apply ascii_in_spec in E2. lia.
Qed.

Lemma latin_pair_first c d : latin_pair c d = true -> N_of_ascii c = 195%N.
Proof.
  unfold latin_pair. intros H. apply andb_prop in H. destruct H as [H _].
  apply andb_prop in H. destruct H as [H _]. now apply N.eqb_eq.
Qed.

Lemma latin_pair_second_eq c d e :
  ((128 <= N_of_ascii d)%N -> e = d) ->
  ((N_of_ascii d < 128)%N -> (N_of_ascii e < 128)%N) ->
  latin_pair c e = latin_pair c d.
Proof.
  intros H1 H2. destruct (N.lt_ge_cases (N_of_ascii d) 128) as [Hd|Hd].
  - specialize (H2 Hd). unfold latin_pair.
    assert (E1 : Py.ascii_in 128 158 e = false) by (apply ascii_in_false; lia).
    assert (E2 : Py.ascii_in 128 158 d = false) by (apply ascii_in_false; lia).
    now rewrite E1, E2, !andb_false_r.
  - now rewrite (H1 Hd).
Qed.

(** Lowering twice is lowering once. *)
Lemma lower_idem s : Py.lower (Py.lower s) = Py.lower s.
Proof.
  induction s as [|c|c d r IHr IHd] using string_pair_ind.
  - reflexivity.
  - rewrite lower_cons1, lower_cons1. now rewrite lower_char_idem.
  - rewrite lower_cons2. destruct (latin_pair c d) eqn:E.
    + pose proof (latin_pair_first _ _ E) as Hc.
      unfold latin_pair in E. apply andb_prop in E. destruct E as [E E3].
      apply andb_prop in E. destruct E as [_ E2]. apply ascii_in_spec in E2.
      assert (Hs : N_of_ascii (Py.shift32 d) = (N_of_ascii d + 32)%N)
        by (apply code_shift32; lia).
      rewrite lower_cons2.
      assert (F1 : latin_pair c (Py.shift32 d) = false).
      { unfold latin_pair.
        assert (X : Py.ascii_in 128 158 (Py.shift32 d) = false)
          by (apply ascii_in_false; lia).
        now rewrite X, andb_false_r. }
      rewrite F1.
      assert (F2 : lower_char c = c).
      { unfold lower_char.
        assert (X : Py.ascii_in 65 90 c = false) by (apply ascii_in_false; lia).
        now rewrite X. }
      rewrite F2. f_equal.
      assert (F3 : lower_char (Py.shift32 d) = Py.shift32 d).
      { unfold lower_char.
        assert (X : Py.ascii_in 65 90 (Py.shift32 d) = false)
          by (apply ascii_in_false; lia).
        now rewrite X. }
      destruct (Py.lower r) as [|e t] eqn:Er.
      * rewrite lower_cons1. now rewrite F3.
      * rewrite lower_cons2.
        assert (F4 : latin_pair (Py.shift32 d) e = false).
        { destruct (latin_pair (Py.shift32 d) e) eqn:X; [|reflexivity].
          apply latin_pair_first in X. lia. }
        rewrite F4, F3. f_equal. exact IHr.
    + destruct (lower_head d r) as (e & t & Ee & H1 & H2).
      rewrite Ee. rewrite lower_cons2.
      assert (F1 : latin_pair (lower_char c) e = false).
      { destruct (latin_pair (lower_char c) e) eqn:X; [|reflexivity].
        pose proof (latin_pair_first _ _ X) as Hc.
        rewrite lower_char_code in Hc.
        destruct (Py.ascii_in 65 90 c) eqn:E2.
        - apply ascii_in_spec in E2. lia.
        - assert (Hcc : lower_char c = c) by (unfold lower_char; now rewrite E2).
          rewrite Hcc in X. rewrite (latin_pair_second_eq c d e H1 H2) in X.
          congruence. }
      rewrite F1, lower_char_idem. f_equal. rewrite <- Ee. exact IHd.
Qed.

(** X1: on a text of ASCII and Latin-1 characters, letter case plays
    no part in the tests on labels nor in the categorizer. *)
Theorem case_insensitive (s : string) :
  latin1 s = true ->
  categorize (Str (Py.lower s)) = categorize (Str s) /\
  date_like (Py.lower s) = date_like s /\
  desc_like (Py.lower s) = desc_like s /\
  receive_like (Py.lower s) = receive_like s /\
  amount_like (Py.lower s) = amount_like s /\
  cat_like (Py.lower s) = cat_like s.
Proof.
  intros _.
  unfold categorize, date_like, desc_like, receive_like, amount_like, cat_like.
  simpl py_str. rewrite !lower_idem. repeat split.
Qed.

(** X1 on a salary and on a label. *)
Lemma case_insensitive_witness :
  categorize (Str (Py.lower "LØNN Hector")) = categorize (Str "LØNN Hector") /\
  date_like (Py.lower "Transaction DATE") = date_like "Transaction DATE".
Proof.
  split.
  - apply (case_insensitive "LØNN Hector"). vm_compute. reflexivity.
  - apply (case_insensitive "Transaction DATE"). vm_compute. reflexivity.
Defined.

(** ** Cleaning *)

Lemma all_chars_remove_from p pat k s :
  all_chars p s = true -> all_chars p (Py.remove_from pat k s) = true.
Proof.
  revert k. induction s as [|c r IH]; intros k H; [reflexivity|].
  simpl in H. apply andb_prop in H. destruct H as [Hc Hr].
  cbn [Py.remove_from]. destruct k.
  - destruct (String.prefix pat (String c r)).
    + now apply IH.
    + cbn [all_chars]. now rewrite Hc, IH.
  - now apply IH.
Qed.

Lemma all_chars_remove p pat s :
  all_chars p s = true -> all_chars p (Py.remove pat s) = true.
Proof.
  intros H. unfold Py.remove. destruct pat; [assumption|].
  now apply all_chars_remove_from.
Qed.

(** Removing a character leaves none of it. *)
Lemma remove_char_gone c s :
  all_chars (fun x => negb (Ascii.eqb x c)) (Py.remove (String c EmptyString) s)
  = true.
Proof.
  unfold Py.remove. induction s as [|d r IH]; [reflexivity|].
  cbn [Py.remove_from]. simpl String.prefix.
  destruct (ascii_dec c d) as [->|Hne].
  - destruct r; simpl; exact IH.
  - simpl. rewrite IH, andb_true_r. apply negb_true_iff.
    destruct (Ascii.eqb_spec d c); [congruence|reflexivity].
Qed.

Lemma all_chars_lower s :
  all_chars (fun x => negb (Py.ascii_in 65 90 x)) (Py.lower s) = true.
Proof.
  induction s as [|c|c d r IHr IHd] using string_pair_ind.
  - reflexivity.
  - rewrite lower_cons1. simpl. rewrite andb_true_r. apply negb_true_iff.
    apply ascii_in_false. rewrite lower_char_code.
    destruct (Py.ascii_in 65 90 c) eqn:E.
    + apply ascii_in_spec in E. lia.
    + apply ascii_in_false in E. lia.
  - rewrite lower_cons2. destruct (latin_pair c d) eqn:E.
    + pose proof (latin_pair_first _ _ E) as Hc.
      unfold latin_pair in E. apply andb_prop in E. destruct E as [E _].
      apply andb_prop in E. destruct E as [_ E2]. apply ascii_in_spec in E2.
      simpl. rewrite IHr, andb_true_r. apply andb_true_intro. split.
      * apply negb_true_iff. apply ascii_in_false. lia.
      * apply negb_true_iff. apply ascii_in_false.
        rewrite code_shift32 by lia. lia.
    + cbn [all_chars]. rewrite IHd, andb_true_r. apply negb_true_iff.
      apply ascii_in_false. rewrite lower_char_code.
      destruct (Py.ascii_in 65 90 c) eqn:E2.
      * apply ascii_in_spec in E2. lia.
      * apply ascii_in_false in E2. lia.
Qed.

(** X2: a cleaned text holds no comma, no dollar sign, no blank and no
    ASCII capital; the token "kr" can be left where the removal of
    blanks puts its letters together, so that on some texts cleaning
    twice is not cleaning once. *)
Theorem clean_text_alphabet (s : string) :
  all_chars (fun x => negb (Ascii.eqb x ",")) (clean_text s) = true /\
  all_chars (fun x => negb (Ascii.eqb x "$")) (clean_text s) = true /\
  all_chars (fun x => negb (Ascii.eqb x " ")) (clean_text s) = true /\
  all_chars (fun x => negb (Py.ascii_in 65 90 x)) (clean_text s) = true /\
  (exists t, clean_text (clean_text t) <> clean_text t).
Proof.
  split; [|split; [|split; [|split]]].
  - unfold clean_text. do 3 apply all_chars_remove. apply remove_char_gone.
  - unfold clean_text. do 2 apply all_chars_remove. apply remove_char_gone.
  - unfold clean_text. apply remove_char_gone.
  - unfold clean_text. do 4 apply all_chars_remove. apply all_chars_lower.
  - exists "10 k r". vm_compute. discriminate.
Qed.

(** ** Descriptions that are numbers *)

Lemma contains_numeric kw c s :
  Shape.numeric_char c = false -> Shape.numeric_text s = true ->
  Py.contains (String c kw) s = false.
Proof.
  intros Hc. induction s as [|d r IH]; intros Hs; [reflexivity|].
  simpl in Hs. apply andb_prop in Hs. destruct Hs as [Hd Hr].
  cbn [Py.contains]. rewrite (IH Hr), orb_false_r.
  apply FFacts.prefix_head. destruct (Ascii.eqb_spec d c); [congruence|reflexivity].
Qed.

(** X4: a description that is a number, as in a column [read_csv] has
    read as numbers, and a missing description are labelled "Other". *)
Theorem numeric_description_other (x : float) : categorize (Num x) = "Other".
Proof.
  destruct x as [m k| | |]; try reflexivity.
  unfold categorize. simpl py_str.
  pose proof (FFacts.numeric_text_fin m k) as Hn.
  rewrite (FFacts.lower_numeric _ Hn).
  unfold any_in. cbn [existsb].
  repeat match goal with
         | |- context [Py.contains (String ?c ?kw) ?t] =>
             rewrite (contains_numeric kw c t eq_refl Hn)
         end.
  reflexivity.
Qed.

End More.

Module Stages.
Import Layouts.

Lemma map_snd_rename {C} d (df : frame C) : map snd (rename d df) = map snd df.
Proof. unfold rename. rewrite map_map. reflexivity. Qed.

Lemma getitem_cell_In {C} (df : frame C) l x :
  getitem df l = Ok x -> In x (map snd df).
Proof.
  intros H. apply getitem_Ok in H.
  assert (Hin : In (l, x) (filter (labelled l) df)) by (rewrite H; now left).
  apply filter_In in Hin. destruct Hin as [Hin _].
  apply in_map_iff. exists (l, x). auto.
Qed.

Lemma setitem_new {C} (df : frame C) l x :
  ~ In l (columns df) -> setitem df l x = (df ++ [(l, x)])%list.
Proof.
  intros H. unfold setitem.
  destruct (existsb (labelled l) df) eqn:E; [|reflexivity].
  apply existsb_labelled in E. contradiction.
Qed.

Lemma find_cat_none_category cols :
  find_cat cols = None -> ~ In "Category" cols.
Proof.
  intros H Hin. pose proof (find_none _ _ H _ Hin). discriminate.
Qed.

(** X5: without a credit column or without a debit column [load_data]
    changes no cell of the table: the columns of the result hold, in
    order, the cells of the columns read, and behind them the
    categories generated from one of them when no label contains
    "cat". *)
Theorem single_path_keeps_cells (df df1 out : frame column) :
  rename_basics df = Ok df1 ->
  find_receive (columns df1) = None \/ find_amount (columns df1) = None ->
  load_frame df = Ok out ->
  map snd out = map snd df \/
  exists d, In d (map snd df) /\
            map snd out = (map snd df ++ [apply_categorize d])%list.
Proof.
  intros H1 Hs Ho.
  destruct (rename_basics_Ok df df1 H1) as [c0 [_ E1]].
  pose proof (resolve_amount_single df1 Hs) as H2.
  rewrite (load_frame_stages df df1 _ H1 H2) in Ho.
  assert (Hc : map snd (rename [(target_amt df1, "Amount")] df1) = map snd df).
  { rewrite map_snd_rename, E1. apply map_snd_rename. }
  destruct (resolve_category_Ok _ _ Ho) as [(c & _ & ->)|(d & Hn & Hd & ->)].
  - left. now rewrite map_snd_rename.
  - right. exists d. split.
    + rewrite <- Hc. eapply getitem_cell_In. exact Hd.
    + rewrite setitem_new by (now apply find_cat_none_category).
      now rewrite map_app, Hc.
Qed.

(** X5 on the table of a bank with a single amount column. *)
Lemma single_path_keeps_cells_witness :
  exists out,
    load_frame bank_table = Ok out /\
    (map snd out = map snd bank_table \/
     exists d, In d (map snd bank_table) /\
               map snd out = (map snd bank_table ++ [apply_categorize d])%list).
Proof.
  eexists. split; [reflexivity|].
  apply (single_path_keeps_cells bank_table
           (rename (basics (columns bank_table) "Transaction Date") bank_table));
    [reflexivity | now left | reflexivity].
Defined.

Lemma receive_not_amount r a cols :
  find_receive cols = Some r -> find_amount cols = Some a -> r <> a.
Proof.
  intros Hr Ha ->. apply find_In in Hr, Ha.
  destruct Hr as [_ Hr], Ha as [_ Ha].
  rewrite (amount_not_receive a Ha) in Hr. discriminate.
Qed.

(** X6: with a credit and a debit column, [load_data] overwrites both
    in place with columns of numbers, one for each cell, the debit
    column with the net amounts when it is itself labelled [Amount]; a
    column [Amount] of numbers, one for each row, is appended when
    there was none, and every other column keeps its place, label and
    cells. *)
Theorem dual_path_overwrites (df df2 : frame column) r a x y :
  find_receive (columns df) = Some r -> find_amount (columns df) = Some a ->
  getitem df r = Ok x -> getitem df a = Ok y ->
  at_most_once df "Amount" ->
  resolve_amount df = Ok df2 ->
  (exists xs, getitem df2 r = Ok (Float64 xs) /\ List.length xs = nrows x) /\
  (exists zs, getitem df2 "Amount" = Ok (Float64 zs) /\
              List.length zs = Nat.min (nrows x) (nrows y)) /\
  (a <> "Amount" ->
   exists ys, getitem df2 a = Ok (Float64 ys) /\ List.length ys = nrows y) /\
  (a = "Amount" -> getitem df2 a = getitem df2 "Amount") /\
  columns df2 = (if existsb (labelled "Amount") df then columns df
                 else columns df ++ ["Amount"])%list /\
  (forall i c z, nth_error df i = Some (c, z) ->
                 c <> r -> c <> a -> c <> "Amount" ->
                 nth_error df2 i = Some (c, z)).
Proof.
  intros Hr Ha Hx Hy Hu H2.
  rewrite (resolve_amount_dual df r a x y Hr Ha Hx Hy) in H2.
  inversion H2; subst df2; clear H2.
  pose proof (receive_not_amount r a _ Hr Ha) as Hne.
  assert (HrA : r <> "Amount").
  { intros ->. apply find_In in Hr. destruct Hr as [_ Hr]. discriminate. }
  assert (G1 : getitem (setitem df r (normalize x)) r = Ok (normalize x))
    by (eapply getitem_setitem_same; exact Hx).
  assert (G2 : getitem (setitem df r (normalize x)) a = Ok y)
    by (rewrite getitem_setitem_other; [exact Hy | exact Hne]).
  split; [|split; [|split; [|split; [|split]]]].
  - exists (map normalize_cell (cells_of x)). split; [|apply length_map].
    rewrite getitem_setitem_other by (apply not_eq_sym; exact HrA).
    rewrite getitem_setitem_other by (apply not_eq_sym; exact Hne).
    rewrite G1. now rewrite normalize_cells.
  - exists (zip_sub (map normalize_cell (cells_of x))
                    (map normalize_cell (cells_of y))).
    split; [|unfold nrows; now rewrite length_zip_sub, !length_map].
    apply getitem_setitem_once. now do 2 apply at_most_once_setitem.
  - intros HaA. exists (map normalize_cell (cells_of y)).
    split; [|apply length_map].
    rewrite getitem_setitem_other by (apply not_eq_sym; exact HaA).
    rewrite <- normalize_cells. eapply getitem_setitem_same. exact G2.
  - intros ->. reflexivity.
  - rewrite columns_setitem.
    assert (Hc : columns (setitem (setitem df r (normalize x)) a (normalize y))
                 = columns df).
    { rewrite columns_setitem.
      apply getitem_In, existsb_labelled in G2. rewrite G2.
      rewrite columns_setitem.
      pose proof Hx as Hx'. apply getitem_In, existsb_labelled in Hx'.
      now rewrite Hx'. }
    assert (E : existsb (labelled "Amount")
                  (setitem (setitem df r (normalize x)) a (normalize y))
                = existsb (labelled "Amount") df).
    { apply eq_true_iff_eq. rewrite !existsb_labelled. now rewrite Hc. }
    now rewrite E, Hc.
  - intros i c z Hi H1 H3 H4. now repeat apply nth_error_setitem.
Qed.

(** X6 on a table with a credit and a debit column. *)
Lemma dual_path_overwrites_witness :
  exists df2,
    resolve_amount netting_table = Ok df2 /\
    columns df2 = ["Date"; "Description"; "Credit"; "Debit"; "Amount"] /\
    nth_error df2 1
    = Some ("Description", Object [Str "Kiwi 223"; Str "Salary"]).
Proof.
  destruct (resolve_amount netting_table) as [df2|e] eqn:E;
    [|vm_compute in E; discriminate].
  exists df2. split; [reflexivity|].
  destruct (dual_path_overwrites netting_table df2 "Credit" "Debit"
              (Object [Str "500"; Str "31,000.00 kr"])
              (Object [Str "120.50"; Num NaN]))
    as (_ & _ & _ & _ & Hc & Hn); try (vm_compute; reflexivity).
  - unfold at_most_once. vm_compute. lia.
  - exact E.
  - split; [exact Hc|]. apply Hn; [reflexivity| | |]; discriminate.
Defined.

(** ** The labels of the result *)

Lemma resolve_category_labels df out l :
  resolve_category df = Ok out -> In l (columns out) ->
  In l (columns df) \/ l = "Category".
Proof.
  intros H Hin. destruct (resolve_category_Ok df out H)
    as [(c & _ & ->)|(d & _ & _ & ->)].
  - rewrite columns_rename in Hin. apply in_map_iff in Hin.
    destruct Hin as [c' [E Hc']].
    destruct (dict_get_cases [(Some c, "Category")] c') as [E2|[E2|[]]].
    + left. rewrite <- E, E2. exact Hc'.
    + right. rewrite <- E. now rewrite <- E2.
  - rewrite columns_setitem in Hin. destruct (existsb _ _); [now left|].
    apply in_app_or in Hin. destruct Hin as [Hin|[<-|[]]]; auto.
Qed.



(** ** The roles *)

Lemma find_date_In cols c0 :
  nth_error cols 0 = Some c0 -> In (find_date cols c0) cols.
Proof.
  intros H0. unfold find_date. destruct (find date_like cols) eqn:E.
  - now apply find_In in E.
  - eapply nth_error_In. exact H0.
Qed.

Lemma find_desc_In cols c : find_desc cols = Some c -> In c cols.
Proof.
  unfold find_desc, Py.next, at_or_none.
  destruct (find desc_like cols) eqn:E.
  - intros [= <-]. now apply find_In in E.
  - destruct (2 <? List.length cols)%nat; [|discriminate].
    apply nth_error_In.
Qed.

(** A label that is none of the canonical two and is borne after the
    first stage is a raw label that is neither the date nor the
    description column. *)
Lemma after_basics_raw (df : frame column) c0 l :
  In l (columns (rename (basics (columns df) c0) df)) ->
  l <> "Date" -> l <> "Description" ->
  In l (columns df) /\ find_date (columns df) c0 <> l /\
  find_desc (columns df) <> Some l.
Proof.
  intros Hin H1 H2.
  assert (Hn : ~ In l (map snd (basics (columns df) c0))).
  { rewrite basics_values. simpl. intuition congruence. }
  destruct (In_rename _ _ _ Hn Hin) as [E Hin']. split; [assumption|].
  unfold basics, dict_get in E. simpl in E. split.
  - intros Heq. rewrite Heq, String.eqb_refl in E.
    destruct (find_desc (columns df)) as [k|].
    + destruct (k =? l); congruence.
    + congruence.
  - intros Heq. rewrite Heq, String.eqb_refl in E. congruence.
Qed.

(** X8: every role [load_data] infers names a column of the table read;
    the credit and the debit column are two columns, and neither is
    the date or the description column. *)
Theorem roles_are_columns (df : frame column) (r : roles) :
  infer_roles df = Ok r ->
  (forall c, In (Some c) [date_col r; desc_col r; receive_col r;
                          amount_col r; cat_col r] -> In c (columns df)) /\
  (forall c, receive_col r = Some c ->
     date_col r <> Some c /\ desc_col r <> Some c /\ amount_col r <> Some c) /\
  (forall c, amount_col r = Some c ->
     date_col r <> Some c /\ desc_col r <> Some c).
Proof.
  intros H. unfold infer_roles, column_at in H.
  destruct (nth_error (columns df) 0) as [c0|] eqn:H0; [|discriminate].
  cbn [bind] in H.
  destruct (rename_basics df) as [df1|] eqn:H1; [|discriminate].
  cbn [bind] in H.
  destruct (resolve_amount df1) as [df2|] eqn:H2; [|discriminate].
  cbn [bind] in H. inversion H; subst r; clear H. cbn [date_col desc_col
    receive_col amount_col cat_col].
  destruct (rename_basics_Ok df df1 H1) as [c0' [H0' E1]].
  rewrite H0 in H0'. inversion H0'; subst c0'. clear H0'.
  assert (Rr : forall c, find_receive (columns df1) = Some c ->
             In c (columns df) /\ find_date (columns df) c0 <> c /\
             find_desc (columns df) <> Some c).
  { intros c Hc. apply find_In in Hc. destruct Hc as [Hin Hp].
    rewrite E1 in Hin. apply after_basics_raw; [assumption| |];
      intros ->; discriminate. }
  assert (Ra : forall c, find_amount (columns df1) = Some c ->
             In c (columns df) /\ find_date (columns df) c0 <> c /\
             find_desc (columns df) <> Some c).
  { intros c Hc. apply find_In in Hc. destruct Hc as [Hin Hp].
    rewrite E1 in Hin. apply after_basics_raw; [assumption| |];
      intros ->; discriminate. }
  split; [|split].
  - intros c Hin. simpl in Hin.
    destruct Hin as [E|[E|[E|[E|[E|[]]]]]].
    + inversion E. now apply find_date_In.
    + now apply find_desc_In.
    + now apply Rr.
    + now apply Ra.
    + apply find_In in E. destruct E as [Hin Hp].
      destruct (resolve_amount_labels _ _ _ H2 Hin) as [Hl|Hl];
        [|subst c; discriminate].
      rewrite E1 in Hl. apply after_basics_raw in Hl.
      * apply Hl.
      * intros ->; discriminate.
      * intros ->; discriminate.
  - intros c Hc. destruct (Rr c Hc) as (_ & Hd & Hs).
    split; [congruence|]. split; [assumption|].
    intros Ha. now apply (receive_not_amount c c (columns df1)).
  - intros c Hc. destruct (Ra c Hc) as (_ & Hd & Hs).
    split; [congruence|assumption].
Qed.

(** X8 on the table of a bank with a single amount column. *)
Lemma roles_are_columns_witness :
  In "Payment" (columns bank_table) /\
  Some "Transaction Date" <> Some "Payment".
Proof.
  destruct (roles_are_columns bank_table _ eq_refl) as (H1 & _ & H3).
  split.
  - apply H1. simpl. auto.
  - apply (H3 "Payment" eq_refl).
Defined.

End Stages.

Module Fallback.
Import Layouts.

Lemma basics_description cols c0 c1 :
  find_desc cols = Some c1 -> dict_get (basics cols c0) c1 = "Description".
Proof.
  intros H. unfold basics, dict_get. rewrite H. cbn.
  now rewrite String.eqb_refl.
Qed.

Lemma amount_dict c :
  dict_get [(Some "Description", "Amount")] c <> "Description".
Proof.
  unfold dict_get. cbn [fold_left fst snd].
  destruct (String.eqb_spec "Description" c) as [E|E];
    [intros H; discriminate H|congruence].
Qed.

(** X9: when the description column is the second column and no label
    is one of amount, debit, withdraw and payment, the fallback takes
    the second column for the amounts: the description column is
    relabelled [Amount], the result has no [Description] column, and
    [load_data] raises [KeyError] unless a label contains "cat". *)
Theorem description_taken_as_amount (df : frame column) loc c0 c1 rest :
  columns df = c0 :: c1 :: rest ->
  find_desc (columns df) = Some c1 ->
  (forall c, In c (columns df) -> amount_like c = false) ->
  (forall out, load_data (Some df) loc = Ok out ->
     nth_error (columns out) 1 = Some "Amount" /\
     ~ In "Description" (columns out)) /\
  ((forall c, In c (columns df) -> cat_like c = false) ->
   load_data (Some df) loc = Raise (KeyError "Description")).
Proof.
  intros Hc Hd Ha. change (load_data (Some df) loc) with (load_frame df).
  set (df1 := rename (basics (columns df) c0) df).
  assert (H1 : rename_basics df = Ok df1).
  { assert (H0 : nth_error (columns df) 0 = Some c0) by (now rewrite Hc).
    unfold rename_basics, column_at. now rewrite H0. }
  assert (C1 : columns df1
               = dict_get (basics (columns df) c0) c0 :: "Description"
                 :: map (dict_get (basics (columns df) c0)) rest).
  { unfold df1. rewrite columns_rename. rewrite Hc at 2. cbn [map].
    now rewrite (basics_description _ c0 c1 Hd). }
  assert (L1 : forall l, In l (columns df1) ->
                         In l (columns df) \/ l = "Date" \/ l = "Description").
  { intros l. apply basics_labels. }
  assert (A1 : find_amount (columns df1) = None).
  { apply find_all_false. intros c Hin.
    destruct (L1 c Hin) as [H|[->| ->]]; [now apply Ha|reflexivity|reflexivity]. }
  assert (T1 : target_amt df1 = Some "Description").
  { unfold target_amt. rewrite A1, C1. reflexivity. }
  pose proof (resolve_amount_single df1 (or_intror A1)) as H2. rewrite T1 in H2.
  set (df2 := rename [(Some "Description", "Amount")] df1) in H2.
  assert (C2 : nth_error (columns df2) 1 = Some "Amount").
  { unfold df2. rewrite columns_rename, C1. reflexivity. }
  assert (N2 : ~ In "Description" (columns df2)).
  { unfold df2. rewrite columns_rename. intros Hin. apply in_map_iff in Hin.
    destruct Hin as [c [E _]]. now apply (amount_dict c). }
  rewrite (load_frame_stages df df1 df2 H1 H2).
  split.
  - intros out Ho.
    destruct (resolve_category_Ok df2 out Ho) as [(c & Hf & ->)|(d & _ & Hg & _)].
    + apply find_In in Hf. destruct Hf as [Hin Hcat].
      assert (Dc : forall l, cat_like l = false ->
                   dict_get [(Some c, "Category")] l = l).
      { intros l Hl. unfold dict_get. cbn. destruct (c =? l) eqn:E; [|reflexivity].
        apply String.eqb_eq in E. subst. congruence. }
      rewrite columns_rename. split.
      * rewrite nth_error_map, C2. cbn [option_map]. now rewrite Dc.
      * intros Hi. apply in_map_iff in Hi. destruct Hi as [l [E Hl]].
        unfold dict_get in E. cbn in E. destruct (c =? l); [discriminate|].
        subst l. contradiction.
    + exfalso. apply getitem_In in Hg. contradiction.
  - intros Hcat. unfold resolve_category, find_cat. rewrite find_all_false.
    + unfold getitem. now rewrite filter_absent.
    + intros c Hin. unfold df2 in Hin. rewrite columns_rename in Hin.
      apply in_map_iff in Hin. destruct Hin as [l [E Hl]].
      destruct (dict_get_cases [(Some "Description", "Amount")] l) as [E2|[E2|[]]].
      * rewrite E2 in E. subst l.
        destruct (L1 c Hl) as [H|[->| ->]]; [now apply Hcat|reflexivity|reflexivity].
      * rewrite E in E2. rewrite <- E2. reflexivity.
Qed.

(** X9 on a ledger with the columns Date, Description and Value. *)
Lemma description_taken_as_amount_witness :
  load_data (Some value_table) None = Raise (KeyError "Description").
Proof.
  apply (description_taken_as_amount value_table None "Date" "Description"
           ["Value"] eq_refl eq_refl).
  - intros c Hin. simpl in Hin.
    destruct Hin as [<-|[<-|[<-|[]]]]; reflexivity.
  - intros c Hin. simpl in Hin.
    destruct Hin as [<-|[<-|[<-|[]]]]; reflexivity.
Defined.

End Fallback.

(** * Properties of the dashboard *)

Module ViewFacts.
Import View.

Lemma pow10_pos k : (0 < F.pow10 k)%Z.
Proof. unfold F.pow10. apply Z.pow_pos_nonneg; lia. Qed.

Lemma pow10_add a b : F.pow10 (a + b) = (F.pow10 a * F.pow10 b)%Z.
Proof. unfold F.pow10. rewrite Nat2Z.inj_add. apply Z.pow_add_r; lia. Qed.

Lemma pow10_max_l k1 k2 :
  F.pow10 (Nat.max k1 k2) = (F.pow10 (Nat.max k1 k2 - k1) * F.pow10 k1)%Z.
Proof. rewrite <- pow10_add. f_equal. lia. Qed.

Lemma pow10_max_r k1 k2 :
  F.pow10 (Nat.max k1 k2) = (F.pow10 (Nat.max k1 k2 - k2) * F.pow10 k2)%Z.
Proof. rewrite <- pow10_add. f_equal. lia. Qed.

Lemma den_pow10 k : Z.pos (Z.to_pos (F.pow10 k)) = F.pow10 k.
Proof. apply Z2Pos.id. apply pow10_pos. Qed.

(** Addition is the addition of the values. *)
Lemma to_Q_add m1 k1 m2 k2 :
  (to_Q (F.add (Fin m1 k1) (Fin m2 k2)) == to_Q (Fin m1 k1) + to_Q (Fin m2 k2))%Q.
Proof.
  unfold F.add. cbv zeta. unfold to_Q, Qeq, Qplus. cbn [Qnum Qden].
  rewrite Pos2Z.inj_mul, !den_pow10.
  pose proof (pow10_max_l k1 k2) as H1. pose proof (pow10_max_r k1 k2) as H2.
  set (P := F.pow10 (Nat.max k1 k2)) in *.
  set (d1 := F.pow10 (Nat.max k1 k2 - k1)) in *.
  set (d2 := F.pow10 (Nat.max k1 k2 - k2)) in *.
  set (p1 := F.pow10 k1) in *. set (p2 := F.pow10 k2) in *.
  transitivity ((m1 * (d1 * p1) * p2 + m2 * (d2 * p2) * p1)%Z); [ring|].
  rewrite <- H1, <- H2. ring.
Qed.

(** [==] on finite numbers is the equality of the values. *)
Lemma eqb_to_Q a b :
  finite a = true -> finite b = true ->
  (F.eqb a b = true <-> (to_Q a == to_Q b)%Q).
Proof.
  destruct a as [m1 k1| | |]; try discriminate.
  destruct b as [m2 k2| | |]; try discriminate. intros _ _.
  unfold F.eqb, to_Q, Qeq. cbn [Qnum Qden]. rewrite !den_pow10.
  apply Z.eqb_eq.
Qed.

Lemma finite_add a b :
  finite a = true -> finite b = true -> finite (F.add a b) = true.
Proof. destruct a, b; try discriminate. reflexivity. Qed.

Lemma plus_finite s x :
  finite s = true -> finite x = true ->
  finite (plus s x) = true /\ (to_Q (plus s x) == to_Q s + to_Q x)%Q.
Proof.
  destruct s as [m1 k1| | |]; try discriminate.
  destruct x as [m2 k2| | |]; try discriminate. intros _ _.
  split; [reflexivity|]. apply to_Q_add.
Qed.

Lemma fold_plus_finite xs : forall s,
  all_finite xs -> finite s = true ->
  finite (fold_left plus xs s) = true /\
  (to_Q (fold_left plus xs s) == to_Q s + Qsum xs)%Q.
Proof.
  induction xs as [|x xs IH]; intros s Hx Hs.
  - simpl. split; [assumption|]. unfold Qsum. simpl. ring.
  - inversion Hx as [|? ? Hx1 Hx2]; subst.
    destruct (plus_finite s x Hs Hx1) as [F1 E1].
    destruct (IH (plus s x) Hx2 F1) as [F2 E2].
    simpl. split; [assumption|]. rewrite E2, E1. unfold Qsum. simpl. ring.
Qed.

Lemma pd_sum_finite xs :
  all_finite xs ->
  finite (pd_sum xs) = true /\ (to_Q (pd_sum xs) == Qsum xs)%Q.
Proof.
  intros H. destruct (fold_plus_finite xs F.zero H eq_refl) as [F E].
  split; [exact F|]. unfold pd_sum. rewrite E. unfold to_Q, F.zero.
  unfold Qeq. simpl. ring.
Qed.

Lemma all_finite_filter p xs : all_finite xs -> all_finite (filter p xs).
Proof.
  unfold all_finite. rewrite !Forall_forall. intros H x Hx.
  apply filter_In in Hx. apply H, Hx.
Qed.

Lemma Qsum_signs xs :
  all_finite xs ->
  (Qsum xs == Qsum (filter gt0 xs) + Qsum (filter lt0 xs))%Q.
Proof.
  induction xs as [|x xs IH]; intros H.
  - unfold Qsum. simpl. ring.
  - inversion H as [|? ? Hx Hxs]; subst. specialize (IH Hxs).
    destruct x as [m k| | |]; try discriminate.
    cbn [filter gt0 lt0].
    destruct (Z.ltb_spec 0 m) as [Hp|Hp]; destruct (Z.ltb_spec m 0) as [Hn|Hn];
      try lia; unfold Qsum in *; cbn [fold_right]; rewrite IH; try ring.
    assert (m = 0%Z) by lia. subst m.
    assert (E : (to_Q (Fin 0 k) == 0)%Q) by (unfold to_Q, Qeq; simpl; ring).
    rewrite E. ring.
Qed.

Lemma sum_not_negative ys : forall s,
  Forall (fun y => gt0 y = true) ys ->
  lt0 s = false -> F.isna s = false ->
  lt0 (fold_left plus ys s) = false.
Proof.
  induction ys as [|y ys IH]; intros s Hy Hs Hn; [assumption|].
  inversion Hy as [|? ? Hy1 Hy2]; subst. simpl. apply IH; [assumption| |].
  - destruct s as [m1 k1| | |], y as [m2 k2| | |]; try discriminate;
      try reflexivity.
    simpl in *. apply Z.ltb_ge. apply Z.ltb_ge in Hs. apply Z.ltb_lt in Hy1.
    pose proof (pow10_pos (Nat.max k1 k2 - k1)).
    pose proof (pow10_pos (Nat.max k1 k2 - k2)). nia.
  - destruct s as [m1 k1| | |], y as [m2 k2| | |]; try discriminate;
      reflexivity.
Qed.

Lemma sum_not_positive ys : forall s,
  Forall (fun y => lt0 y = true) ys ->
  gt0 s = false -> F.isna s = false ->
  gt0 (fold_left plus ys s) = false.
Proof.
  induction ys as [|y ys IH]; intros s Hy Hs Hn; [assumption|].
  inversion Hy as [|? ? Hy1 Hy2]; subst. simpl. apply IH; [assumption| |].
  - destruct s as [m1 k1| | |], y as [m2 k2| | |]; try discriminate;
      try reflexivity.
    simpl in *. apply Z.ltb_ge. apply Z.ltb_ge in Hs. apply Z.ltb_lt in Hy1.
    pose proof (pow10_pos (Nat.max k1 k2 - k1)).
    pose proof (pow10_pos (Nat.max k1 k2 - k2)). nia.
  - destruct s as [m1 k1| | |], y as [m2 k2| | |]; try discriminate;
      reflexivity.
Qed.

(** X10: on amounts whose magnitudes add up to less than 2^63, so that
    no sum leaves the range of int64 (infinite amounts and NaN
    included), the total income is not negative and the total expenses
    are not positive; without a positive amount the income is 0,
    without a negative one the expenses are 0. *)
Theorem metrics_signs (xs : list float) :
  Bounds.int64_safe xs ->
  lt0 (income (metrics_of xs)) = false /\
  gt0 (expense (metrics_of xs)) = false /\
  ((forall x, In x xs -> gt0 x = false) -> income (metrics_of xs) = F.zero) /\
  ((forall x, In x xs -> lt0 x = false) -> expense (metrics_of xs) = F.zero).
Proof.
  intros _.
  assert (E : forall p, (forall x, In x xs -> p x = false) ->
                        filter p xs = @nil float).
  { intros p H. induction xs as [|x r IH]; [reflexivity|]. cbn [filter].
    rewrite (H x (or_introl eq_refl)). apply IH. intros y Hy. apply H. now right. }
  cbn [metrics_of income expense]. split; [|split; [|split]].
  - unfold pd_sum. apply sum_not_negative; try reflexivity.
    apply Forall_forall. intros y Hy. apply filter_In in Hy. apply Hy.
  - unfold pd_sum. apply sum_not_positive; try reflexivity.
    apply Forall_forall. intros y Hy. apply filter_In in Hy. apply Hy.
  - intros H. now rewrite (E gt0 H).
  - intros H. now rewrite (E lt0 H).
Qed.

(** X10 on the amounts of the sample ledger. *)
Lemma metrics_signs_witness :
  lt0 (income (metrics_of sample_amounts)) = false /\
  gt0 (expense (metrics_of sample_amounts)) = false.
Proof.
  destruct (metrics_signs sample_amounts) as (H1 & H2 & _).
  - vm_compute. reflexivity.
  - now split.
Defined.

Lemma exact_sum_finite xs : Bounds.exact_sum xs -> all_finite xs.
Proof.
  intros [H _]. unfold all_finite. rewrite Forall_forall in *.
  intros x Hx. specialize (H x Hx). now destruct x.
Qed.

(** X11: on exact amounts of bounded size, which float64 adds without
    rounding, the net balance is the total income plus the total
    expenses. *)
Theorem metrics_add_up (xs : list float) :
  Bounds.exact_sum xs ->
  F.eqb (total_balance (metrics_of xs))
        (F.add (income (metrics_of xs)) (expense (metrics_of xs))) = true.
Proof.
  intros Hb. pose proof (exact_sum_finite xs Hb) as H.
  cbn [metrics_of total_balance income expense].
  destruct (pd_sum_finite xs H) as [F1 E1].
  destruct (pd_sum_finite _ (all_finite_filter gt0 xs H)) as [F2 E2].
  destruct (pd_sum_finite _ (all_finite_filter lt0 xs H)) as [F3 E3].
  apply eqb_to_Q; [assumption|now apply finite_add|].
  destruct (pd_sum (filter gt0 xs)) as [m2 k2| | |]; try discriminate.
  destruct (pd_sum (filter lt0 xs)) as [m3 k3| | |]; try discriminate.
  rewrite to_Q_add, E1, E2, E3. now apply Qsum_signs.
Qed.

(** X11 on the amounts of the sample ledger. *)
Lemma metrics_add_up_witness :
  metrics_of sample_amounts
  = {| total_balance := Fin 2730 0; income := Fin 3000 0;
       expense := Fin (-270) 0 |} /\
  F.eqb (Fin 2730 0) (F.add (Fin 3000 0) (Fin (-270) 0)) = true.
Proof.
  split; [reflexivity|].
  apply (metrics_add_up sample_amounts).
  split; [repeat constructor|vm_compute; reflexivity].
Defined.

Lemma to_Q_zero : (to_Q F.zero == 0)%Q.
Proof. reflexivity. Qed.

(** ** Sums per group *)

Section GroupFacts.
Context {K : Type}.
Variable kcmp : K -> K -> comparison.

Lemma insert_sum_total k x gs :
  finite x = true -> sums_finite gs ->
  sums_finite (insert_sum kcmp k x gs) /\
  (Qsum (map snd (insert_sum kcmp k x gs)) == Qsum (map snd gs) + to_Q x)%Q.
Proof.
  intros Hx. induction gs as [|[k' s] gs IH]; intros Hg.
  - cbn [insert_sum map snd]. destruct (plus_finite F.zero x eq_refl Hx) as [F E].
    split; [constructor; [exact F|constructor]|].
    unfold Qsum. cbn [fold_right]. rewrite E, to_Q_zero. ring.
  - inversion Hg as [|? ? Hs Hg']; subst. cbn [insert_sum].
    destruct (kcmp k k').
    + destruct (plus_finite s x Hs Hx) as [F E]. cbn [map snd]. split.
      * constructor; assumption.
      * unfold Qsum. cbn [fold_right]. rewrite E. ring.
    + destruct (plus_finite F.zero x eq_refl Hx) as [F E]. split.
      * constructor; [exact F|exact Hg].
      * unfold Qsum. cbn [map snd fold_right]. rewrite E, to_Q_zero. ring.
    + destruct (IH Hg') as [F E]. cbn [map snd]. split.
      * constructor; assumption.
      * unfold Qsum in *. cbn [fold_right]. rewrite E. ring.
Qed.

Lemma Qsum_nil : Qsum [] = 0%Q.
Proof. reflexivity. Qed.

Lemma Qsum_cons x xs : Qsum (x :: xs) = (to_Q x + Qsum xs)%Q.
Proof. reflexivity. Qed.

Lemma group_rows_total keys : forall xs gs,
  all_finite xs -> sums_finite gs ->
  sums_finite (group_rows kcmp keys xs gs) /\
  (Qsum (map snd (group_rows kcmp keys xs gs))
   == Qsum (map snd gs) + Qsum (rows_where has_key keys xs))%Q.
Proof.
  induction keys as [|[k|] keys IH]; intros xs gs Hx Hg.
  - cbn [group_rows rows_where]. rewrite Qsum_nil. split; [assumption|ring].
  - destruct xs as [|x xs].
    + cbn [group_rows rows_where]. rewrite Qsum_nil. split; [assumption|ring].
    + inversion Hx as [|? ? Hx1 Hx2]; subst.
      destruct (insert_sum_total k x gs Hx1 Hg) as [F E].
      destruct (IH xs _ Hx2 F) as [F2 E2].
      cbn [group_rows rows_where has_key]. split; [assumption|].
      rewrite E2, E, Qsum_cons. ring.
  - destruct xs as [|x xs].
    + cbn [group_rows rows_where]. rewrite Qsum_nil. split; [assumption|ring].
    + inversion Hx as [|? ? Hx1 Hx2]; subst.
      cbn [group_rows rows_where has_key]. now apply IH.
Qed.

(** The sums of the groups add up to the sum of the rows that have a
    key. *)
Lemma groupby_sum_total keys xs :
  all_finite xs ->
  F.eqb (pd_sum (map snd (groupby_sum kcmp keys xs)))
        (pd_sum (rows_where has_key keys xs)) = true.
Proof.
  intros Hx. destruct (group_rows_total keys xs [] Hx (Forall_nil _)) as [F E].
  assert (Hr : all_finite (rows_where has_key keys xs)).
  { clear F E. unfold all_finite in *. revert xs Hx.
    induction keys as [|k keys IH]; intros xs Hx.
    - apply Forall_nil.
    - destruct xs as [|x xs]; [apply Forall_nil|].
      inversion Hx as [|? ? Hx1 Hx2]; subst. cbn [rows_where].
      destruct (has_key k).
      + apply Forall_cons; [exact Hx1|now apply IH].
      + now apply IH. }
  destruct (pd_sum_finite _ F) as [F1 E1].
  destruct (pd_sum_finite _ Hr) as [F2 E2].
  apply eqb_to_Q; try assumption.
  rewrite E1, E2. unfold groupby_sum. rewrite E. cbn [map]. rewrite Qsum_nil. ring.
Qed.

End GroupFacts.

End ViewFacts.

Module DailyFacts.
Import View ViewFacts.

Lemma insert_keys k x gs t :
  In t (map fst (insert_sum Z.compare k x gs)) <-> t = k \/ In t (map fst gs).
Proof.
  induction gs as [|[k' s] gs IH]; cbn [insert_sum map fst].
  - simpl. intuition.
  - destruct (Z.compare_spec k k') as [->|H|H]; cbn [map fst In].
    + intuition.
    + intuition.
    + rewrite IH. intuition.
Qed.

Lemma insert_hd a k x gs :
  HdRel Z.lt a (map fst gs) -> (a < k)%Z ->
  HdRel Z.lt a (map fst (insert_sum Z.compare k x gs)).
Proof.
  intros H Hk. destruct gs as [|[k' s] gs]; cbn [insert_sum map fst].
  - constructor. exact Hk.
  - inversion H; subst.
    destruct (Z.compare_spec k k'); cbn [map fst]; constructor; assumption.
Qed.

Lemma insert_sorted k x gs :
  Sorted Z.lt (map fst gs) -> Sorted Z.lt (map fst (insert_sum Z.compare k x gs)).
Proof.
  induction gs as [|[k' s] gs IH]; intros H; cbn [insert_sum map fst].
  - repeat constructor.
  - inversion H as [|? ? Hs Hh]; subst.
    destruct (Z.compare_spec k k') as [->|Hlt|Hgt]; cbn [map fst].
    + constructor; assumption.
    + constructor; [exact H|]. constructor. exact Hlt.
    + constructor; [now apply IH|]. now apply insert_hd.
Qed.

Lemma group_rows_sorted keys : forall xs gs,
  Sorted Z.lt (map fst gs) ->
  Sorted Z.lt (map fst (group_rows Z.compare keys xs gs)).
Proof.
  induction keys as [|[k|] keys IH]; intros xs gs H; [assumption| |];
    destruct xs as [|x xs]; cbn [group_rows]; try assumption.
  - apply IH. now apply insert_sorted.
  - now apply IH.
Qed.

Lemma group_rows_keys keys : forall xs gs t,
  In t (map fst (group_rows Z.compare keys xs gs)) <->
  In t (map fst gs) \/ In (Some t) (map fst (combine keys xs)).
Proof.
  induction keys as [|[k|] keys IH]; intros xs gs t.
  - simpl. intuition.
  - destruct xs as [|x xs]; cbn [group_rows combine map fst In].
    + intuition.
    + rewrite IH, insert_keys. split.
      * intros [[->|H]|H]; auto.
      * intros [H|[E|H]]; auto. inversion E. auto.
  - destruct xs as [|x xs]; cbn [group_rows combine map fst In].
    + intuition.
    + rewrite IH. split.
      * intros [H|H]; auto.
      * intros [H|[E|H]]; auto. discriminate.
Qed.

Lemma gval_insert t k x gs :
  finite x = true -> sums_finite gs ->
  sums_finite (insert_sum Z.compare k x gs) /\
  (gval t (insert_sum Z.compare k x gs)
   == gval t gs + (if (k =? t)%Z then to_Q x else 0))%Q.
Proof.
  intros Hx. induction gs as [|[k' s] gs IH]; intros Hg.
  - destruct (plus_finite F.zero x eq_refl Hx) as [F E].
    cbn [insert_sum]. split; [constructor; [exact F|constructor]|].
    unfold gval. cbn [filter fst]. destruct (k =? t)%Z.
    + cbn [map snd]. rewrite Qsum_cons, Qsum_nil, E, to_Q_zero. ring.
    + cbn [map]. rewrite Qsum_nil. ring.
  - inversion Hg as [|? ? Hs Hg']; subst. cbn [insert_sum].
    destruct (Z.compare_spec k k') as [->|Hlt|Hgt].
    + destruct (plus_finite s x Hs Hx) as [F E]. split.
      * constructor; assumption.
      * unfold gval. cbn [filter fst]. destruct (k' =? t)%Z.
        -- cbn [map snd]. rewrite !Qsum_cons, E. ring.
        -- ring.
    + destruct (plus_finite F.zero x eq_refl Hx) as [F E]. split.
      * constructor; [exact F|exact Hg].
      * unfold gval. cbn [filter fst]. destruct (k =? t)%Z.
        -- cbn [map snd]. rewrite Qsum_cons, E, to_Q_zero.
           change (Qsum (map snd (filter (fun g => (fst g =? t)%Z) ((k', s) :: gs))))
             with (gval t ((k', s) :: gs)). unfold gval. cbn [filter fst]. ring.
        -- ring.
    + destruct (IH Hg') as [F E]. split.
      * constructor; assumption.
      * unfold gval in *. cbn [filter fst]. destruct (k' =? t)%Z.
        -- cbn [map snd]. rewrite !Qsum_cons, E. ring.
        -- exact E.
Qed.

Lemma gval_group_rows t keys : forall xs gs,
  all_finite xs -> sums_finite gs ->
  (gval t (group_rows Z.compare keys xs gs)
   == gval t gs + Qsum (rows_where (is_day t) keys xs))%Q.
Proof.
  induction keys as [|[k|] keys IH]; intros xs gs Hx Hg.
  - cbn [group_rows rows_where]. rewrite Qsum_nil. ring.
  - destruct xs as [|x xs].
    + cbn [group_rows rows_where]. rewrite Qsum_nil. ring.
    + inversion Hx as [|? ? Hx1 Hx2]; subst.
      destruct (gval_insert t k x gs Hx1 Hg) as [F E].
      cbn [group_rows rows_where is_day]. rewrite (IH xs _ Hx2 F), E.
      destruct (k =? t)%Z; [rewrite Qsum_cons|]; ring.
  - destruct xs as [|x xs].
    + cbn [group_rows rows_where]. rewrite Qsum_nil. ring.
    + inversion Hx as [|? ? Hx1 Hx2]; subst.
      cbn [group_rows rows_where is_day]. now apply IH.
Qed.

Lemma sorted_hd_notin a l : Sorted Z.lt l -> HdRel Z.lt a l -> ~ In a l.
Proof.
  intros Hs. revert a. induction Hs as [|b l Hs IH Hh]; intros a Ha Hin.
  - destruct Hin.
  - inversion Ha; subst. destruct Hin as [->|Hin]; [lia|].
    apply (IH b Hh). 
    assert (G : forall c, In c l -> (b < c)%Z).
    { clear -Hs Hh. revert b Hh. induction Hs as [|d l Hs IH Hd]; intros b Hb c Hc.
      - destruct Hc.
      - inversion Hb; subst. destruct Hc as [->|Hc]; [assumption|].
        assert (d < c)%Z by (now apply IH). lia. }
    specialize (G a Hin). lia.
Qed.

Lemma gval_sorted t s gs :
  Sorted Z.lt (map fst gs) -> In (t, s) gs -> (gval t gs == to_Q s)%Q.
Proof.
  induction gs as [|[k' s'] gs IH]; intros Hs Hin; [destruct Hin|].
  cbn [map fst] in Hs. inversion Hs as [|? ? Hs' Hh]; subst.
  unfold gval. cbn [filter fst]. destruct Hin as [E|Hin].
  - inversion E; subst. rewrite Z.eqb_refl. cbn [map snd]. rewrite Qsum_cons.
    assert (Hnil : filter (fun g => (fst g =? t)%Z) gs = []).
    { pose proof (sorted_hd_notin t _ Hs' Hh) as Hn.
      clear -Hn. induction gs as [|[a b] gs IH]; [reflexivity|].
      cbn [filter fst]. destruct (Z.eqb_spec a t) as [->|].
      - exfalso. apply Hn. now left.
      - apply IH. intros H. apply Hn. now right. }
    rewrite Hnil. cbn [map]. rewrite Qsum_nil. ring.
  - destruct (Z.eqb_spec k' t) as [->|Hne].
    + exfalso. apply (sorted_hd_notin t _ Hs' Hh).
      apply in_map_iff. exists (t, s). auto.
    + now apply IH.
Qed.

(** X12: the chart of the days has one bar per date of the ledger, the
    dates in increasing order and the rows without date left out; a bar
    is typed as income when its sum is above 0 and as expense
    otherwise. *)
Theorem daily_days (ts : list (option Z)) (xs : list float) :
  Sorted Z.lt (map (fun r => fst (fst r)) (daily ts xs)) /\
  (forall t, In t (map (fun r => fst (fst r)) (daily ts xs)) <->
             In (Some t) (map fst (combine ts xs))) /\
  (forall t s ty, In (t, s, ty) (daily ts xs) -> ty = bar_type s).
Proof.
  unfold daily. rewrite !map_map. cbn [fst snd].
  change (map (fun x : Z * float => fst x)) with (@map (Z * float) Z fst).
  split; [|split].
  - apply group_rows_sorted. constructor.
  - intros t. unfold groupby_sum. rewrite group_rows_keys. simpl. intuition.
  - intros t s ty Hin. apply in_map_iff in Hin. destruct Hin as [[t' s'] [E _]].
    now inversion E.
Qed.

Lemma rows_where_finite {K} (p : option K -> bool) ts : forall xs,
  all_finite xs -> all_finite (rows_where p ts xs).
Proof.
  unfold all_finite. induction ts as [|k ts IH]; intros xs Hx; [apply Forall_nil|].
  destruct xs as [|x xs]; [apply Forall_nil|].
  inversion Hx as [|? ? Hx1 Hx2]; subst. cbn [rows_where].
  destruct (p k).
  - apply Forall_cons; [exact Hx1|now apply IH].
  - now apply IH.
Qed.

(** X13: on exact amounts of bounded size, which float64 adds without
    rounding, the bar of a day is the sum of the amounts of the rows
    of that day, and the bars add up to the sum of the dated rows. *)
Theorem daily_totals (ts : list (option Z)) (xs : list float) :
  Bounds.exact_sum xs ->
  (forall t s ty, In (t, s, ty) (daily ts xs) ->
     F.eqb s (pd_sum (rows_where (is_day t) ts xs)) = true) /\
  F.eqb (pd_sum (map (fun r => snd (fst r)) (daily ts xs)))
        (pd_sum (rows_where has_key ts xs)) = true.
Proof.
  intros Hb. pose proof (exact_sum_finite xs Hb) as Hx.
  unfold daily. rewrite !map_map. cbn [fst snd].
  change (map (fun x : Z * float => snd x)) with (@map (Z * float) float snd).
  split.
  - intros t s ty Hin. apply in_map_iff in Hin.
    destruct Hin as [[t' s'] [E Hin]]. inversion E; subst; clear E.
    cbn [fst snd] in *.
    destruct (group_rows_total Z.compare ts xs [] Hx (Forall_nil _)) as [F _].
    assert (Fs : finite s = true).
    { unfold sums_finite, all_finite in F. rewrite Forall_forall in F.
      apply F. apply in_map_iff. exists (t, s). auto. }
    destruct (pd_sum_finite _ (rows_where_finite (is_day t) ts xs Hx)) as [F2 E2].
    apply eqb_to_Q; try assumption. rewrite E2.
    rewrite <- (gval_sorted t s (groupby_sum Z.compare ts xs)).
    + unfold groupby_sum. rewrite gval_group_rows by (assumption || constructor).
      unfold gval. cbn [filter map]. rewrite Qsum_nil. ring.
    + apply group_rows_sorted. constructor.
    + exact Hin.
  - now apply groupby_sum_total.
Qed.

(** X13 on four rows of two days and one row without date. *)
Lemma daily_totals_witness :
  daily [Some 2%Z; Some 1%Z; None; Some 2%Z; Some 1%Z]
        [Fin (-1050) 2; Fin 300 0; Fin 99 0; Fin 1050 2; Fin (-1) 0]
  = [(1%Z, Fin 299 0, "Income 🟢"); (2%Z, Fin 0 2, "Expense 🔴")] /\
  F.eqb (pd_sum [Fin 299 0; Fin 0 2])
        (pd_sum [Fin (-1050) 2; Fin 300 0; Fin 1050 2; Fin (-1) 0]) = true.
Proof.
  split; [reflexivity|].
  destruct (daily_totals [Some 2%Z; Some 1%Z; None; Some 2%Z; Some 1%Z]
              [Fin (-1050) 2; Fin 300 0; Fin 99 0; Fin 1050 2; Fin (-1) 0])
    as [_ H]; [split; [repeat constructor|vm_compute; reflexivity]|exact H].
Defined.

End DailyFacts.

Module SortFacts.
Import Board.

Section Insertion.
Context {A : Type}.
Variable le : A -> A -> bool.
Hypothesis le_total : forall a b, le a b = false -> le b a = true.
Hypothesis le_trans : forall a b c, le a b = true -> le b c = true -> le a c = true.

Lemma insert_by_perm x l : Permutation (insert_by le x l) (x :: l).
Proof.
  induction l as [|y l IH]; cbn [insert_by]; [reflexivity|].
  destruct (le x y); [reflexivity|].
  rewrite IH. apply perm_swap.
Qed.

Lemma sort_by_perm l : Permutation (sort_by le l) l.
Proof.
  induction l as [|x l IH]; cbn [sort_by]; [reflexivity|].
  rewrite insert_by_perm. now constructor.
Qed.

Lemma insert_by_hd a x l :
  HdRel (fun u v => le u v = true) a l -> le a x = true ->
  HdRel (fun u v => le u v = true) a (insert_by le x l).
Proof.
  intros H Hx. destruct l as [|y l]; cbn [insert_by].
  - now constructor.
  - inversion H; subst. destruct (le x y); now constructor.
Qed.

Lemma insert_by_sorted x l :
  Sorted (fun u v => le u v = true) l ->
  Sorted (fun u v => le u v = true) (insert_by le x l).
Proof.
  induction l as [|y l IH]; intros H; cbn [insert_by].
  - repeat constructor.
  - inversion H as [|? ? Hs Hh]; subst. destruct (le x y) eqn:E.
    + constructor; [exact H|]. now constructor.
    + constructor; [now apply IH|]. apply insert_by_hd; [exact Hh|].
      now apply le_total.
Qed.

Lemma sort_by_sorted l : StronglySorted (fun u v => le u v = true) (sort_by le l).
Proof.
  apply Sorted_StronglySorted.
  - intros a b c. apply le_trans.
  - induction l as [|x l IH]; cbn [sort_by]; [constructor|].
    now apply insert_by_sorted.
Qed.

End Insertion.

(** ** Texts in decreasing order *)

Lemma compare_lt_trans a b c :
  String.compare a b = Lt -> String.compare b c = Lt -> String.compare a c = Lt.
Proof.
  intros H1 H2. apply OrderedTypeEx.String_as_OT.cmp_lt.
  apply OrderedTypeEx.String_as_OT.lt_trans with b; now apply OrderedTypeEx.String_as_OT.cmp_lt.
Qed.

Lemma compare_gt_lt a b : String.compare a b = Gt -> String.compare b a = Lt.
Proof.
  intros H. rewrite String.compare_antisym, H. reflexivity.
Qed.

Lemma str_ge_total a b : str_ge a b = false -> str_ge b a = true.
Proof.
  unfold str_ge. rewrite (String.compare_antisym b a).
  now destruct (String.compare a b).
Qed.

Lemma str_ge_trans a b c :
  str_ge a b = true -> str_ge b c = true -> str_ge a c = true.
Proof.
  unfold str_ge. intros H1 H2.
  destruct (String.compare a b) eqn:E1; [| discriminate |].
  - apply String.compare_eq_iff in E1. now subst.
  - destruct (String.compare b c) eqn:E2; [| discriminate |].
    + apply String.compare_eq_iff in E2. subst. now rewrite E1.
    + apply compare_gt_lt in E1, E2.
      pose proof (compare_lt_trans _ _ _ E2 E1) as H.
      rewrite String.compare_antisym, H. reflexivity.
Qed.

(** ** The months offered *)

Lemma opt_eqb_eq a b : opt_eqb a b = true <-> a = b.
Proof.
  destruct a as [s|], b as [t|]; simpl; try (split; congruence).
  rewrite String.eqb_eq. split; congruence.
Qed.

Lemma existsb_opt_eqb x seen : existsb (opt_eqb x) seen = true <-> In x seen.
Proof.
  rewrite existsb_exists. split.
  - intros [y [Hy E]]. apply opt_eqb_eq in E. now subst.
  - intros H. exists x. split; [assumption|]. now apply opt_eqb_eq.
Qed.

Lemma unique_from_In seen xs o :
  In o (unique_from seen xs) <-> In o xs /\ ~ In o seen.
Proof.
  revert seen. induction xs as [|x r IH]; intros seen; cbn [unique_from].
  - simpl. tauto.
  - destruct (existsb (opt_eqb x) seen) eqn:E.
    + apply existsb_opt_eqb in E. rewrite IH. simpl. split.
      * intros [H1 H2]. auto.
      * intros [[->|H1] H2]; [contradiction|auto].
    + assert (Hn : ~ In x seen).
      { intros H. apply existsb_opt_eqb in H. congruence. }
      cbn [In]. rewrite IH. simpl. split.
      * intros [->|[H1 H2]]; [auto|]. split; [auto|]. intros H. apply H2. auto.
      * intros [[->|H1] H2]; [auto|].
        destruct (opt_eqb x o) eqn:E2.
        -- apply opt_eqb_eq in E2. auto.
        -- right. split; [assumption|]. intros [->|H]; [|contradiction].
           assert (opt_eqb o o = true) by (now apply opt_eqb_eq). congruence.
Qed.

Lemma unique_from_NoDup seen xs : NoDup (unique_from seen xs).
Proof.
  revert seen. induction xs as [|x r IH]; intros seen; cbn [unique_from].
  - constructor.
  - destruct (existsb (opt_eqb x) seen); [apply IH|].
    constructor; [|apply IH]. rewrite unique_from_In. intros [_ H].
    apply H. now left.
Qed.

Lemma texts_In u s : In s (texts u) <-> In (Some s) u.
Proof.
  induction u as [|[t|] u IH]; cbn [texts In].
  - tauto.
  - rewrite IH. split; intros [H|H]; auto; [left; congruence | left; congruence].
  - rewrite IH. split; [auto|]. intros [H|H]; [discriminate|assumption].
Qed.

Lemma texts_NoDup u : NoDup u -> NoDup (texts u).
Proof.
  induction u as [|[t|] u IH]; intros H; cbn [texts].
  - constructor.
  - inversion H as [|? ? Hn Hu]; subst. constructor; [|now apply IH].
    now rewrite texts_In.
  - inversion H; subst. now apply IH.
Qed.

Lemma existsb_is_none u : existsb is_none u = true <-> In None u.
Proof.
  rewrite existsb_exists. split.
  - intros [[s|] [H E]]; [discriminate|assumption].
  - intros H. exists None. auto.
Qed.

Lemma existsb_is_some u :
  existsb (fun o => negb (is_none o)) u = true <-> exists s, In (Some s) u.
Proof.
  rewrite existsb_exists. split.
  - intros [[s|] [H E]]; [eauto|discriminate].
  - intros [s H]. exists (Some s). auto.
Qed.

Lemma NoDup_map_Some (ss : list string) : NoDup ss -> NoDup (map Some ss).
Proof.
  induction 1 as [|s l Hn Hl IH]; cbn [map]; constructor; [|exact IH].
  rewrite in_map_iff. intros [t [E Ht]]. injection E as ->. contradiction.
Qed.


Lemma descending_sort ss :
  NoDup ss -> descending (sort_by str_ge ss).
Proof.
  intros Hnd.
  pose proof (sort_by_sorted str_ge str_ge_total str_ge_trans ss) as Hs.
  assert (Hnd' : NoDup (sort_by str_ge ss)).
  { eapply Permutation_NoDup; [|exact Hnd]. symmetry. apply sort_by_perm. }
  unfold descending. induction Hs as [|a l Hs IH Ha]; [constructor|].
  inversion Hnd' as [|? ? Hn Hl]; subst. constructor; [now apply IH|].
  rewrite Forall_forall in *. intros b Hb. specialize (Ha b Hb).
  unfold str_ge in Ha. destruct (String.compare a b) eqn:E;
    [|discriminate|reflexivity].
  apply String.compare_eq_iff in E. subst. contradiction.
Qed.

(** X14: the months offered are the months of the rows, each once, the
    latest text first; building the list raises [TypeError] exactly
    when the ledger has a row without date beside a dated row, and a
    ledger without any date offers NaN alone. *)
Theorem available_months_spec (ms : list (option string)) :
  (available_months ms = Raise TypeError <->
   In None ms /\ exists s, In (Some s) ms) /\
  (forall l, available_months ms = Ok l ->
     (forall o, In o l <-> In o ms) /\ NoDup l /\
     (~ In None ms ->
      exists ss, l = map Some ss /\ descending ss)).
Proof.
  unfold available_months, sorted_reverse, unique.
  assert (HU : forall o, In o (unique_from [] ms) <-> In o ms).
  { intros o. rewrite unique_from_In. simpl. tauto. }
  pose proof (unique_from_NoDup [] ms) as HN.
  set (u := unique_from [] ms) in *.
  destruct (existsb is_none u) eqn:E1.
  - apply existsb_is_none in E1. apply HU in E1.
    destruct (existsb (fun o => negb (is_none o)) u) eqn:E2.
    + apply existsb_is_some in E2. destruct E2 as [s Hs]. apply HU in Hs.
      split; [|discriminate]. split; [eauto|reflexivity].
    + split.
      * split; [discriminate|]. intros [_ [s Hs]].
        assert (existsb (fun o => negb (is_none o)) u = true)
          by (apply existsb_is_some; exists s; now apply HU).
        congruence.
      * intros l [= <-]. split; [exact HU|]. split; [exact HN|].
        intros Hn. contradiction.
  - assert (Hn : ~ In None u).
    { intros H. apply existsb_is_none in H. congruence. }
    split.
    + split; [discriminate|]. intros [H _]. apply HU in H. contradiction.
    + intros l [= <-]. split; [|split].
      * intros o. rewrite <- HU. rewrite in_map_iff. split.
        -- intros [s [<- Hs]]. apply texts_In.
           eapply Permutation_in; [apply sort_by_perm|exact Hs].
        -- intros Ho. destruct o as [s|]; [|contradiction].
           exists s. split; [reflexivity|].
           eapply Permutation_in; [symmetry; apply sort_by_perm|].
           now apply texts_In.
      * apply NoDup_map_Some.
        eapply Permutation_NoDup; [symmetry; apply sort_by_perm|].
        now apply texts_NoDup.
      * intros _. eexists. split; [reflexivity|].
        apply descending_sort. now apply texts_NoDup.
Qed.

(** X14 on three dated rows of two months, and on a dated row beside
    a row without date. *)
Lemma available_months_spec_witness :
  available_months
    (month_year [Some 1701388800000000000%Z; Some 1704067200000000000%Z;
                 Some 1701475200000000000%Z])
  = Ok [Some "2024-01"; Some "2023-12"] /\
  NoDup [Some "2024-01"; Some "2023-12"] /\
  available_months [Some "2023-12"; None] = Raise TypeError.
Proof.
  split; [reflexivity|]. split.
  - apply (proj2 (available_months_spec
                    (month_year [Some 1701388800000000000%Z;
                                 Some 1704067200000000000%Z;
                                 Some 1701475200000000000%Z]))
                 [Some "2024-01"; Some "2023-12"] eq_refl).
  - apply (proj1 (available_months_spec [Some "2023-12"; None])).
    split; [right; now left|]. exists "2023-12". now left.
Defined.

End SortFacts.

Module OrderFacts.
Import View Board SortFacts.

(** ** Stability of the insertion sort *)

Section Stable.
Context {A : Type}.
Variable le : A -> A -> bool.
Variable idx : A -> nat.
Hypothesis le_total : forall a b, le a b = false -> le b a = true.
Hypothesis le_trans : forall a b c, le a b = true -> le b c = true -> le a c = true.

Lemma insert_by_In x y l : In y (insert_by le x l) <-> y = x \/ In y l.
Proof.
  split.
  - intros H. apply (Permutation_in _ (insert_by_perm le x l)) in H.
    destruct H as [H|H]; auto.
  - intros H. apply (Permutation_in _ (Permutation_sym (insert_by_perm le x l))).
    destruct H as [H|H]; [left; auto|right; auto].
Qed.

Lemma insert_by_stable x l :
  StronglySorted (le2 le idx) l -> Forall (fun z => (idx x < idx z)%nat) l ->
  StronglySorted (le2 le idx) (insert_by le x l).
Proof.
  induction l as [|y l IH]; intros Hs Hx; cbn [insert_by].
  - repeat constructor.
  - inversion Hs as [|? ? Hl Hy]; subst. inversion Hx as [|? ? Hxy Hxl]; subst.
    destruct (le x y) eqn:E.
    + constructor; [exact Hs|]. constructor.
      * split; [exact E|auto].
      * rewrite Forall_forall in *. intros z Hz. split.
        -- apply le_trans with y; [exact E|]. apply (Hy z Hz).
        -- intros _. now apply Hxl.
    + constructor; [now apply IH|].
      rewrite Forall_forall in *. intros z Hz. apply insert_by_In in Hz.
      destruct Hz as [->|Hz]; [|now apply Hy].
      split; [now apply le_total|]. intros H. congruence.
Qed.

Lemma sort_by_stable l :
  StronglySorted (fun a b => (idx a < idx b)%nat) l ->
  StronglySorted (le2 le idx) (sort_by le l).
Proof.
  induction 1 as [|x l Hl IH Hx]; cbn [sort_by]; [constructor|].
  apply insert_by_stable; [exact IH|].
  rewrite Forall_forall in *. intros z Hz. apply Hx.
  eapply Permutation_in; [apply sort_by_perm|exact Hz].
Qed.

End Stable.

Lemma StronglySorted_map {A B} (f : A -> B) (R : B -> B -> Prop) l :
  StronglySorted (fun a b => R (f a) (f b)) l -> StronglySorted R (map f l).
Proof.
  induction 1 as [|x l Hl IH Hx]; cbn [map]; constructor; [exact IH|].
  rewrite Forall_forall in *. intros y Hy. apply in_map_iff in Hy.
  destruct Hy as [z [<- Hz]]. now apply Hx.
Qed.

Lemma StronglySorted_In {A} (R R' : A -> A -> Prop) l :
  (forall a b, In a l -> In b l -> R a b -> R' a b) ->
  StronglySorted R l -> StronglySorted R' l.
Proof.
  intros H Hs. induction Hs as [|x l Hl IH Hx]; constructor.
  - apply IH. intros a b Ha Hb. apply H; now right.
  - rewrite Forall_forall in *. intros y Hy.
    apply H; [now left|now right|now apply Hx].
Qed.

(** ** The order of the keys *)

Lemma key_le_total a b : key_le a b = false -> key_le b a = true.
Proof.
  destruct a as [[x|] p], b as [[y|] q]; unfold key_le; cbn;
    destruct p, q; cbn; rewrite ?orb_false_r, ?andb_true_r, ?andb_false_r,
      ?orb_true_r; try congruence;
    destruct (Z.ltb_spec y x), (Z.ltb_spec x y), (Z.eqb_spec x y),
      (Z.eqb_spec y x); cbn; try congruence; try lia.
Qed.

Lemma key_le_trans a b c :
  key_le a b = true -> key_le b c = true -> key_le a c = true.
Proof.
  destruct a as [[x|] p], b as [[y|] q], c as [[z|] r]; unfold key_le; cbn;
    destruct p, q, r; cbn; rewrite ?orb_false_r, ?andb_true_r, ?andb_false_r,
      ?orb_true_r; try congruence;
    try (destruct (Z.ltb_spec y x), (Z.ltb_spec z y), (Z.ltb_spec z x),
           (Z.eqb_spec x y), (Z.eqb_spec y z), (Z.eqb_spec x z);
         cbn; try congruence; lia).
Qed.

Lemma keyed_le_total a b : keyed_le a b = false -> keyed_le b a = true.
Proof. apply key_le_total. Qed.

Lemma keyed_le_trans a b c :
  keyed_le a b = true -> keyed_le b c = true -> keyed_le a c = true.
Proof. apply key_le_trans. Qed.

Lemma key_le_shown ts bs i j :
  key_le (key_at ts bs i) (key_at ts bs j) = true ->
  (key_le (key_at ts bs j) (key_at ts bs i) = true -> (i < j)%nat) ->
  shown_before ts bs i j.
Proof.
  unfold key_at, key_le, shown_before, tie. cbn [fst snd].
  destruct (nth i ts None) as [x|], (nth j ts None) as [y|]; cbn;
    destruct (nth i bs false), (nth j bs false); cbn;
    rewrite ?orb_false_r, ?andb_true_r, ?andb_false_r, ?orb_true_r;
    try (destruct (Z.ltb_spec y x), (Z.ltb_spec x y), (Z.eqb_spec x y),
           (Z.eqb_spec y x); cbn);
    intros H1 H2; try discriminate; try lia; auto;
    try (right; split; [lia|]); try (split; [congruence|]; intros; auto);
    try (left; lia).
Qed.

(** ** The rows and their positions *)

Lemma keyed_rows (ts : list (option Z)) : forall (bs : list bool) s,
  List.length bs = List.length ts ->
  Forall (fun e => (s <= snd e)%nat /\
                   fst e = (nth (snd e - s) ts None, nth (snd e - s) bs false))
         (combine (combine ts bs) (seq s (List.length ts))).
Proof.
  induction ts as [|t ts IH]; intros [|b bs] s Hl; try discriminate;
    cbn [combine List.length seq]; constructor.
  - cbn [fst snd]. rewrite Nat.sub_diag. split; [lia|reflexivity].
  - injection Hl as Hl. specialize (IH bs (S s) Hl).
    rewrite Forall_forall in *. intros e He. destruct (IH e He) as [H1 H2].
    split; [lia|]. rewrite H2.
    replace (snd e - s)%nat with (S (snd e - S s)) by lia. reflexivity.
Qed.

Lemma positions_increase {K} (ks : list K) : forall s n,
  StronglySorted (fun a b : K * nat => (snd a < snd b)%nat)
                 (combine ks (seq s n)).
Proof.
  induction ks as [|k ks IH]; intros s [|n]; cbn [combine seq]; try constructor.
  - apply IH.
  - rewrite Forall_forall. intros e He. destruct e as [k' i].
    apply in_combine_r, in_seq in He. cbn [snd]. lia.
Qed.

Lemma map_snd_combine {A B} (a : list A) : forall (b : list B),
  List.length a = List.length b -> map snd (combine a b) = b.
Proof.
  induction a as [|x a IH]; intros [|y b] H; try discriminate; [reflexivity|].
  cbn [combine map snd]. f_equal. apply IH. now injection H.
Qed.

Lemma take_cons {A} (x : A) xs idx :
  take (map S idx) (x :: xs) = take idx xs.
Proof.
  unfold take. induction idx as [|i idx IH]; [reflexivity|].
  cbn [map flat_map nth_error]. now rewrite IH.
Qed.

Lemma take_all {A} (xs : list A) : take (seq 0 (List.length xs)) xs = xs.
Proof.
  induction xs as [|x xs IH]; [reflexivity|].
  cbn [List.length seq]. rewrite <- seq_shift.
  change (take (0%nat :: map S (seq 0 (List.length xs))) (x :: xs))
    with (x :: take (map S (seq 0 (List.length xs))) (x :: xs)).
  now rewrite take_cons, IH.
Qed.

Lemma take_perm {A} (xs : list A) idx idx' :
  Permutation idx idx' -> Permutation (take idx xs) (take idx' xs).
Proof. intros H. unfold take. now apply Permutation_flat_map. Qed.

(** X16: [sort_values(by=['Date', 'IsPriority'], ascending=[False, True])]
    rearranges the rows, losing and repeating none: later dates come
    first, the rows without date last; on one date the rows that are
    not priority rows come first, and rows with the same date and the
    same priority keep the order they had. *)
Theorem sort_order_spec (ts : list (option Z)) (bs : list bool) :
  List.length bs = List.length ts ->
  Permutation (sort_order ts bs) (seq 0 (List.length ts)) /\
  StronglySorted (shown_before ts bs) (sort_order ts bs) /\
  (forall A (xs : list A), List.length xs = List.length ts ->
     Permutation (take (sort_order ts bs) xs) xs).
Proof.
  intros Hl. unfold sort_order.
  set (rows := combine (combine ts bs) (seq 0 (List.length ts))).
  assert (Hp : Permutation (sort_by keyed_le rows) rows) by apply sort_by_perm.
  assert (Hs : map snd rows = seq 0 (List.length ts)).
  { apply map_snd_combine. rewrite length_combine, length_seq, Hl. lia. }
  assert (P : Permutation (map snd (sort_by keyed_le rows))
                          (seq 0 (List.length ts))).
  { rewrite <- Hs. now apply Permutation_map. }
  split; [exact P|]. split.
  - apply StronglySorted_map.
    pose proof (keyed_rows ts bs 0%nat Hl) as Hk. fold rows in Hk.
    rewrite Forall_forall in Hk.
    assert (Hk' : forall e, In e (sort_by keyed_le rows) ->
                            fst e = key_at ts bs (snd e)).
    { intros e He. apply (Permutation_in _ Hp) in He.
      destruct (Hk e He) as [_ H]. rewrite Nat.sub_0_r in H. exact H. }
    eapply StronglySorted_In;
      [|apply (sort_by_stable keyed_le snd keyed_le_total keyed_le_trans);
        apply positions_increase].
    intros a b Ha Hb [H1 H2]. unfold keyed_le in H1, H2.
    rewrite (Hk' a Ha), (Hk' b Hb) in H1, H2. now apply key_le_shown.
  - intros A xs Hx. rewrite <- (take_all xs) at 2. rewrite Hx.
    now apply take_perm.
Qed.

(** X16 on five rows, two of them priority rows and one without date. *)
Lemma sort_order_spec_witness :
  sort_order [Some 5%Z; None; Some 7%Z; Some 5%Z; Some 7%Z]
             [true; false; false; false; true] = [2; 4; 3; 0; 1]%nat /\
  Permutation (take [2; 4; 3; 0; 1]%nat ["a"; "b"; "c"; "d"; "e"])
              ["a"; "b"; "c"; "d"; "e"].
Proof.
  split; [reflexivity|].
  destruct (sort_order_spec [Some 5%Z; None; Some 7%Z; Some 5%Z; Some 7%Z]
              [true; false; false; false; true] eq_refl) as (_ & _ & H).
  exact (H string ["a"; "b"; "c"; "d"; "e"] eq_refl).
Defined.

End OrderFacts.

Module BoardFacts.
Import View Board ViewFacts.

(** ** The month filter *)

Lemma length_append_string a b :
  String.length (a ++ b) = (String.length a + String.length b)%nat.
Proof. induction a as [|c a IH]; simpl; [reflexivity|now rewrite IH]. Qed.

Lemma length_pad w n : (w <= String.length (pad w n))%nat.
Proof.
  unfold pad. rewrite length_append_string, FFacts.length_zeros. lia.
Qed.

Lemma month_text_long t : (7 <= String.length (month_text t))%nat.
Proof.
  unfold month_text. destruct (civil_from_days _) as [[y m] d].
  rewrite !length_append_string.
  pose proof (length_pad 4 y). pose proof (length_pad 2 m).
  change (String.length "-") with 1%nat. lia.
Qed.

Lemma month_not_all ts s : In (Some s) (month_year ts) -> (s =? "All") = false.
Proof.
  intros H. unfold month_year in H. apply in_map_iff in H.
  destruct H as [[t|] [E _]]; [|discriminate]. injection E as <-.
  apply String.eqb_neq. intros E. pose proof (month_text_long t) as L.
  rewrite E in L. simpl in L. lia.
Qed.

Lemma mask_all {A} (xs : list A) : forall {B} (ms : list B),
  List.length xs = List.length ms -> mask (map (fun _ => true) ms) xs = xs.
Proof.
  induction xs as [|x xs IH]; intros B [|m ms] H; try discriminate;
    [reflexivity|]. cbn [map mask]. f_equal. apply IH. now injection H.
Qed.

Lemma mask_none {A} (xs : list A) : forall {B} (ms : list B),
  mask (map (fun _ => false) ms) xs = [].
Proof.
  induction xs as [|x xs IH]; intros B [|m ms]; try reflexivity.
  cbn [map mask]. apply IH.
Qed.

(** X15: under "All" every row is kept; a month the ledger has keeps the
    rows of that month and no other, one at least; the rows without
    date are kept under "All" only, and the option NaN, offered when no
    row has a date, keeps no row. *)
Theorem month_filter (ts : list (option Z)) :
  (forall A (xs : list A), List.length xs = List.length ts ->
     mask (month_mask (Str "All") (month_year ts)) xs = xs) /\
  (forall s, In (Some s) (month_year ts) ->
     month_mask (Str s) (month_year ts)
     = map (opt_eqb (Some s)) (month_year ts) /\
     In true (month_mask (Str s) (month_year ts))) /\
  (forall x A (xs : list A), mask (month_mask (Num x) (month_year ts)) xs = []).
Proof.
  split; [|split].
  - intros A xs H. unfold month_mask. cbn [is_all]. rewrite String.eqb_refl.
    apply mask_all. unfold month_year. now rewrite length_map.
  - intros s Hs. unfold month_mask. cbn [is_all].
    rewrite (month_not_all ts s Hs).
    assert (E : map (month_is (Str s)) (month_year ts)
                = map (opt_eqb (Some s)) (month_year ts)).
    { apply map_ext. intros [t|]; reflexivity. }
    split; [exact E|]. rewrite E. apply in_map_iff. exists (Some s).
    split; [|exact Hs]. cbn [opt_eqb]. apply String.eqb_refl.
  - intros x A xs. unfold month_mask. cbn [is_all].
    change (map (month_is (Num x))) with (@map (option string) bool (fun _ => false)).
    apply mask_none.
Qed.

(** X15 on two rows of December 2023, one of January 2024 and one
    without date. *)
Lemma month_filter_witness :
  month_mask (Str "2023-12")
    (month_year [Some 1701388800000000000%Z; Some 1704067200000000000%Z;
                 None; Some 1701475200000000000%Z])
  = [true; false; false; true].
Proof.
  destruct (month_filter [Some 1701388800000000000%Z;
                          Some 1704067200000000000%Z; None;
                          Some 1701475200000000000%Z]) as (_ & H & _).
  destruct (H "2023-12") as [E _]; [now left|].
  rewrite E. reflexivity.
Defined.

(** ** Colours *)

(** X19: a bar and a cell of the table take the same colour for the same
    number, green above 0 and red otherwise: 0 and NaN are red. *)
Theorem colours_agree (x : float) :
  exists c, color_discrete_map (bar_type x) = Some c /\
            color_amount x = "color: " ++ c /\
            (c = "#00CC96" <-> gt0 x = true) /\
            (c = "#EF553B" <-> gt0 x = false).
Proof.
  unfold bar_type, color_amount. destruct (gt0 x).
  - exists "#00CC96". repeat split; auto; discriminate.
  - exists "#EF553B". repeat split; auto; discriminate.
Qed.

(** ** Expenses per category *)

Lemma mask_filter {A} (p : A -> bool) xs : mask (map p xs) xs = filter p xs.
Proof.
  induction xs as [|x xs IH]; [reflexivity|]. cbn [map mask filter].
  destruct (p x); now rewrite IH.
Qed.

Section Positive.
Context {K : Type}.
Variable kcmp : K -> K -> comparison.

Lemma plus_zero_positive x : gt0 x = true -> gt0 (plus F.zero x) = true.
Proof.
  destruct x as [m k| | |]; try discriminate; [|reflexivity].
  unfold plus, F.zero, F.add. cbn [F.isna gt0]. intros H.
  apply Z.ltb_lt in H. apply Z.ltb_lt.
  pose proof (pow10_pos (Nat.max 0 k - k)). nia.
Qed.

Lemma plus_positive s x :
  gt0 s = true -> gt0 x = true -> gt0 (plus s x) = true.
Proof.
  destruct s as [m1 k1| | |], x as [m2 k2| | |]; try discriminate;
    try reflexivity.
  unfold plus, F.add. cbn [F.isna gt0]. intros H1 H2.
  apply Z.ltb_lt in H1, H2. apply Z.ltb_lt.
  pose proof (pow10_pos (Nat.max k1 k2 - k1)).
  pose proof (pow10_pos (Nat.max k1 k2 - k2)). nia.
Qed.

Lemma insert_sum_positive k x gs :
  gt0 x = true -> positive gs -> positive (insert_sum kcmp k x gs).
Proof.
  intros Hx. induction gs as [|[k' s] gs IH]; intros Hg; cbn [insert_sum].
  - constructor; [now apply plus_zero_positive|constructor].
  - inversion Hg as [|? ? Hs Hgs]; subst. cbn [snd] in Hs.
    destruct (kcmp k k').
    + constructor; [now apply plus_positive|assumption].
    + constructor; [now apply plus_zero_positive|assumption].
    + constructor; [assumption|now apply IH].
Qed.

Lemma group_rows_positive keys : forall xs gs,
  Forall (fun x => gt0 x = true) xs -> positive gs ->
  positive (group_rows kcmp keys xs gs).
Proof.
  induction keys as [|[k|] keys IH]; intros [|x xs] gs Hx Hg;
    cbn [group_rows]; try assumption;
    inversion Hx as [|? ? Hx1 Hx2]; subst.
  - apply IH; [assumption|]. now apply insert_sum_positive.
  - now apply IH.
Qed.

End Positive.

Lemma fabs_positive x : lt0 x = true -> gt0 (fabs x) = true.
Proof.
  destruct x as [m k| | |]; try discriminate; [|reflexivity].
  cbn [lt0 fabs gt0]. intros H. apply Z.ltb_lt in H. apply Z.ltb_lt. lia.
Qed.

Lemma to_Q_fabs x : lt0 x = true -> (to_Q (fabs x) == - to_Q x)%Q.
Proof.
  destruct x as [m k| | |]; try discriminate; [|intros _; reflexivity].
  cbn [lt0 fabs to_Q]. intros H. apply Z.ltb_lt in H.
  unfold Qeq, Qopp. cbn [Qnum Qden]. rewrite Z.abs_neq by lia. reflexivity.
Qed.

Lemma finite_fabs x : finite x = true -> finite (fabs x) = true.
Proof. destruct x; try discriminate. reflexivity. Qed.

Lemma Qsum_fabs ys :
  Forall (fun y => lt0 y = true) ys ->
  (Qsum (map fabs ys) == - Qsum ys)%Q.
Proof.
  induction 1 as [|y ys Hy Hys IH]; cbn [map].
  - rewrite Qsum_nil. reflexivity.
  - rewrite !Qsum_cons, IH, (to_Q_fabs y Hy). ring.
Qed.

Lemma rows_where_keys {A} (p : A -> bool) (f : A -> float) xs :
  forall ks : list (option gkey),
  (List.length xs <= List.length ks)%nat ->
  Forall (fun k => has_key k = true) ks ->
  rows_where has_key (mask (map p xs) ks) (map f (filter p xs))
  = map f (filter p xs).
Proof.
  induction xs as [|x xs IH]; intros [|k ks] Hl Hk; try reflexivity;
    cbn [List.length] in Hl; try lia.
  inversion Hk as [|? ? Hk1 Hk2]; subst. cbn [map mask filter].
  destruct (p x).
  - cbn [map rows_where]. rewrite Hk1. f_equal. apply IH; [lia|assumption].
  - apply IH; [lia|assumption].
Qed.

Lemma cat_summary_cases cat xs :
  match cat_summary cat xs with
  | None => filter lt0 xs = []
  | Some gs =>
      filter lt0 xs <> [] /\
      gs = groupby_sum gcompare (mask (map lt0 xs) (cat_keys cat))
             (map fabs (filter lt0 xs))
  end.
Proof.
  unfold cat_summary. cbv zeta. rewrite mask_filter.
  destruct (filter lt0 xs) as [|e ex] eqn:E; [reflexivity|].
  split; [discriminate|reflexivity].
Qed.

(** X17: on amounts whose magnitudes add up to less than 2^63, so that
    no sum leaves the range of int64, the pie has slices exactly when
    some amount is negative, and every slice is above 0. *)
Theorem pie_slices (cat : column) (xs : list float) :
  Bounds.int64_safe xs ->
  (cat_summary cat xs = None <-> forall x, In x xs -> lt0 x = false) /\
  (forall gs, cat_summary cat xs = Some gs ->
              Forall (fun g => gt0 (snd g) = true) gs).
Proof.
  intros _. pose proof (cat_summary_cases cat xs) as H. split.
  - destruct (cat_summary cat xs) as [gs|].
    + destruct H as [Hn _]. split; [discriminate|]. intros Hx. exfalso.
      apply Hn. destruct (filter lt0 xs) as [|e ex] eqn:E; [reflexivity|].
      assert (Hin : In e (filter lt0 xs)) by (rewrite E; now left).
      apply filter_In in Hin. destruct Hin as [Hin He].
      rewrite (Hx e Hin) in He. discriminate.
    + split; [|reflexivity]. intros _ x Hx.
      destruct (lt0 x) eqn:E; [|reflexivity].
      assert (Hin : In x (filter lt0 xs)) by (apply filter_In; auto).
      rewrite H in Hin. destruct Hin.
  - intros gs Hg. rewrite Hg in H. destruct H as [_ ->].
    apply group_rows_positive; [|constructor].
    apply Forall_forall. intros y Hy. apply in_map_iff in Hy.
    destruct Hy as [x [<- Hx]]. apply filter_In in Hx.
    apply fabs_positive, Hx.
Qed.

(** X17 on three expenses of two categories and one income. *)
Lemma pie_slices_witness :
  cat_summary (Object [Str "Groceries 🛒"; Str "Other"; Str "Other";
                       Str "Groceries 🛒"])
              [Fin (-1050) 2; Fin 300 0; Fin (-5) 0; Fin (-2) 0]
  = Some [(KStr "Groceries 🛒", Fin 1250 2); (KStr "Other", Fin 5 0)] /\
  Forall (fun g : gkey * float => gt0 (snd g) = true)
    [(KStr "Groceries 🛒", Fin 1250 2); (KStr "Other", Fin 5 0)].
Proof.
  split; [vm_compute; reflexivity|].
  destruct (pie_slices (Object [Str "Groceries 🛒"; Str "Other"; Str "Other";
                                Str "Groceries 🛒"])
              [Fin (-1050) 2; Fin 300 0; Fin (-5) 0; Fin (-2) 0]) as [_ H].
  - vm_compute. reflexivity.
  - apply H. vm_compute. reflexivity.
Defined.

(** X18: on exact amounts of bounded size, which float64 adds without
    rounding, in a ledger where every row has a category, the slices
    of the pie add up to the total expenses with the sign changed. *)
Theorem pie_total (cat : column) (xs : list float) gs :
  Bounds.exact_sum xs ->
  (List.length xs <= List.length (cells_of cat))%nat ->
  Forall (fun v => has_key (value_key v) = true) (cells_of cat) ->
  cat_summary cat xs = Some gs ->
  F.eqb (F.add (pd_sum (map snd gs)) (expense (metrics_of xs))) F.zero = true.
Proof.
  intros Hb Hl Hk Hg. pose proof (exact_sum_finite xs Hb) as Hf.
  pose proof (cat_summary_cases cat xs) as H.
  rewrite Hg in H. destruct H as [_ ->]. cbn [metrics_of expense].
  set (ex := filter lt0 xs).
  assert (Fe : all_finite ex) by (now apply all_finite_filter).
  assert (Fa : all_finite (map fabs ex)).
  { unfold all_finite in *. rewrite Forall_forall in *. intros y Hy.
    apply in_map_iff in Hy. destruct Hy as [x [<- Hx]].
    apply finite_fabs, Fe, Hx. }
  pose proof (groupby_sum_total gcompare
                (mask (map lt0 xs) (cat_keys cat)) (map fabs ex) Fa) as Ht.
  unfold ex in Ht at 2. rewrite rows_where_keys in Ht.
  2:{ unfold cat_keys. now rewrite length_map. }
  2:{ unfold cat_keys. rewrite Forall_forall in *. intros k Hin.
      apply in_map_iff in Hin. destruct Hin as [v [<- Hv]]. now apply Hk. }
  fold ex in Ht.
  destruct (group_rows_total gcompare (mask (map lt0 xs) (cat_keys cat))
              (map fabs ex) [] Fa (Forall_nil _)) as [Fg _].
  destruct (pd_sum_finite _ Fg) as [F1 _].
  destruct (pd_sum_finite _ Fa) as [F2 E2].
  destruct (pd_sum_finite _ Fe) as [F3 E3].
  fold (groupby_sum gcompare (mask (map lt0 xs) (cat_keys cat)) (map fabs ex))
    in F1.
  apply (eqb_to_Q _ _ F1 F2) in Ht.
  apply eqb_to_Q; [now apply finite_add|reflexivity|].
  revert Ht F1.
  generalize (pd_sum (map snd (groupby_sum gcompare
                (mask (map lt0 xs) (cat_keys cat)) (map fabs ex)))).
  intros s Ht F1.
  destruct s as [m1 k1| | |]; try discriminate.
  destruct (pd_sum ex) as [m3 k3| | |] eqn:E; try discriminate.
  rewrite to_Q_add, Ht, E2, E3, to_Q_zero.
  rewrite Qsum_fabs.
  - ring.
  - apply Forall_forall. intros y Hy. apply filter_In in Hy. apply Hy.
Qed.

(** X18 on three expenses of two categories and one income. *)
Lemma pie_total_witness :
  cat_summary (Object [Str "Groceries 🛒"; Str "Other"; Str "Other";
                       Str "Groceries 🛒"])
              [Fin (-1050) 2; Fin 300 0; Fin (-5) 0; Fin (-2) 0]
  = Some [(KStr "Groceries 🛒", Fin 1250 2); (KStr "Other", Fin 5 0)] /\
  F.eqb (F.add (pd_sum [Fin 1250 2; Fin 5 0])
               (expense (metrics_of [Fin (-1050) 2; Fin 300 0; Fin (-5) 0;
                                     Fin (-2) 0]))) F.zero = true.
Proof.
  split; [reflexivity|].
  apply (pie_total (Object [Str "Groceries 🛒"; Str "Other"; Str "Other";
                            Str "Groceries 🛒"])
           [Fin (-1050) 2; Fin 300 0; Fin (-5) 0; Fin (-2) 0]
           [(KStr "Groceries 🛒", Fin 1250 2); (KStr "Other", Fin 5 0)]).
  - split; [repeat constructor|vm_compute; reflexivity].
  - simpl. lia.
  - repeat constructor.
  - reflexivity.
Defined.

End BoardFacts.
